(** * supafirehose: load controller, metric collector and dynamic scenario

    A shallow embedding of the Go packages [schema], [metrics] and [load] of
    the supafirehose load generator, and the properties of its specification
    that are settled on it.

    Conventions of the embedding.
    - A Go [int]/[int64] is a [Z]; arithmetic that can wrap goes through
      [wrap64].
    - A Go [string] is a [string] (a sequence of bytes).
    - A Go [float64] is a [spec_float] with the binary64 parameters; the
      operations are the IEEE ones of [SpecFloat].
    - A Go [error] is its message; [option error] is a possibly nil error.
    - Methods with a pointer receiver take the receiver's state and return
      the new one.  Goroutines, locks and atomics are executed one call at a
      time, in the order the caller gives.
    - The clock, the random source and the database are inputs of the
      functions that consult them. *)

From Stdlib Require Import ZArith String Ascii List Lia Bool DecimalString SpecFloat.
From stdpp Require Import base gmap strings list.

Open Scope string_scope.
Open Scope Z_scope.

(** ** Machine integers and floats *)

Definition wrap64 (z : Z) : Z := (z + 2 ^ 63) mod 2 ^ 64 - 2 ^ 63.

Definition maxInt64 : Z := 2 ^ 63 - 1.
Definition minInt64 : Z := - 2 ^ 63.

Definition float64 : Type := spec_float.

(** [float64(z)] for an integer [z]: round to nearest, ties to even. *)
Definition float64_of_int (z : Z) : float64 := binary_normalize 53 1024 z 0 false.

Definition float64_div (x y : float64) : float64 := SFdiv 53 1024 x y.
Definition float64_add (x y : float64) : float64 := SFadd 53 1024 x y.

(** The zero value of a [float64] variable. *)
Definition float64_zero : float64 := S754_zero false.

(** Go's builtin [max] on [int]. *)
Definition go_max (a b : Z) : Z := if a <? b then b else a.

(** ** Package strings (ASCII fragment) *)

Module strings.

Fixpoint HasPrefix (s prefix : string) {struct prefix} : bool :=
  match prefix, s with
  | EmptyString, _ => true
  | String _ _, EmptyString => false
  | String p prefix', String c s' => Ascii.eqb c p && HasPrefix s' prefix'
  end.

Fixpoint Contains (s substr : string) : bool :=
  HasPrefix s substr ||
  match s with
  | EmptyString => false
  | String _ s' => Contains s' substr
  end.

(** Whether every byte of [s] is below [utf8.RuneSelf] (0x80). *)
Fixpoint isASCII (s : string) : bool :=
  match s with
  | EmptyString => true
  | String c s' => (N_of_ascii c <? 128)%N && isASCII s'
  end.

(** [ToLower], as Go computes it for a string of ASCII bytes ([isASCII]):
    the bytes 'A'..'Z' are lowered and every other byte is kept.  For a
    string with a byte from 0x80 on, Go maps its runes by the Unicode
    tables instead (U+0130 becomes i); these tables are not part of this
    development, which keeps such bytes as they are, so a statement that
    is to hold of every name asks for [isASCII]. *)
Definition lower_byte (c : ascii) : ascii :=
  let n := N_of_ascii c in
  if ((65 <=? n) && (n <=? 90))%N then ascii_of_N (n + 32) else c.

Fixpoint ToLower (s : string) : string :=
  match s with
  | EmptyString => EmptyString
  | String c s' => String (lower_byte c) (ToLower s')
  end.

Fixpoint Join (elems : list string) (sep : string) : string :=
  match elems with
  | [] => EmptyString
  | [e] => e
  | e :: rest => e ++ sep ++ Join rest sep
  end.

(** [Cut s sep] for a one-byte separator: the text before and after the
    first occurrence of [sep], if there is one. *)
Fixpoint Cut (s : string) (sep : ascii) : option (string * string) :=
  match s with
  | EmptyString => None
  | String c s' =>
      if Ascii.eqb c sep then Some (EmptyString, s')
      else match Cut s' sep with
           | Some (before, after) => Some (String c before, after)
           | None => None
           end
  end.

(** [SplitN(s, sep, 2)] for a one-byte separator. *)
Definition SplitN2 (s : string) (sep : ascii) : list string :=
  match Cut s sep with
  | Some (before, after) => [before; after]
  | None => [s]
  end.

End strings.

(** [fmt.Sprintf("%d", z)]. *)
Definition sprint_d (z : Z) : string := NilZero.string_of_int (Z.to_int z).

(** ** Package gofakeit and the values handed to the driver *)

Module gofakeit.

(** A call of the fake-data library; its result is whatever the library's
    random source yields for that call. *)
Inductive Call : Type :=
| Email | Username | FirstName | LastName | Name | Phone | City | Country
| State | Zip | Address | Company | JobTitle | URL | IPv4Address
| IPv6Address | UserAgent | Bool | Date
| Sentence (wordCount : Z)
| Number (min max : Z)
| Float64Range (min max : Z).

End gofakeit.

(** ** Package schema: the value generator *)

Module schema.

Definition error : Type := string.

(** What [GenerateValue] returns: a library call's result, possibly
    converted. *)
Inductive Generated : Type :=
| Fake (c : gofakeit.Call)
| AddressOf (c : gofakeit.Call)           (* gofakeit.Address().Address *)
| Int32Of (c : gofakeit.Call)
| Int64Of (c : gofakeit.Call)
| Int16Of (c : gofakeit.Call)
| Float32Of (c : gofakeit.Call)
| UUIDNewString                            (* uuid.New().String() *)
| DateFormat (layout : string)             (* gofakeit.Date().Format(layout) *)
| GeneratedJSON                            (* generateJSON() *)
| BytesOf (c : gofakeit.Call)
| HoursOf (c : gofakeit.Call).             (* fmt.Sprintf("%d hours", ...) *)

(** The first [switch] of [GenerateValue], on the lowered column name. *)
Definition nameHint (colName : string) : option Generated :=
  let has := strings.Contains colName in
  if has "email" then Some (Fake gofakeit.Email)
  else if has "username" || has "user_name" then Some (Fake gofakeit.Username)
  else if has "first_name" || has "firstname" then Some (Fake gofakeit.FirstName)
  else if has "last_name" || has "lastname" then Some (Fake gofakeit.LastName)
  else if has "full_name" || has "fullname" || (colName =? "name")%string
       then Some (Fake gofakeit.Name)
  else if has "phone" || has "cell" || has "mobile" then Some (Fake gofakeit.Phone)
  else if has "city" then Some (Fake gofakeit.City)
  else if has "country" then Some (Fake gofakeit.Country)
  else if has "state" || has "province" then Some (Fake gofakeit.State)
  else if has "zip" || has "postal" then Some (Fake gofakeit.Zip)
  else if has "address" then Some (AddressOf gofakeit.Address)
  else if has "company" || has "org" then Some (Fake gofakeit.Company)
  else if has "job" || has "title" then Some (Fake gofakeit.JobTitle)
  else if has "bio" || has "description" then Some (Fake (gofakeit.Sentence 10))
  else if has "url" || has "link" || has "website" then Some (Fake gofakeit.URL)
  else if has "ipv4" then Some (Fake gofakeit.IPv4Address)
  else if has "ipv6" then Some (Fake gofakeit.IPv6Address)
  else if has "user_agent" then Some (Fake gofakeit.UserAgent)
  else None.

(** The second [switch] of [GenerateValue], on the lowered column type. *)
Definition byType (colType : string) : Generated :=
  let equals (t : string) := (colType =? t)%string in
  let starts := strings.HasPrefix colType in
  if starts "varchar" || starts "character varying" || equals "text" || starts "char" then
    if strings.Contains colType "(" then Fake (gofakeit.Sentence 3)
    else Fake (gofakeit.Sentence 5)
  else if equals "integer" || equals "int" || equals "int4" then Int32Of (gofakeit.Number 0 1000000)
  else if equals "bigint" || equals "int8" then Int64Of (gofakeit.Number 0 1000000000)
  else if equals "smallint" || equals "int2" then Int16Of (gofakeit.Number 0 32000)
  else if equals "boolean" || equals "bool" then Fake gofakeit.Bool
  else if equals "real" || equals "float4" then Float32Of (gofakeit.Float64Range 0 1000)
  else if equals "double precision" || equals "float8" then Fake (gofakeit.Float64Range 0 10000)
  else if starts "numeric" || starts "decimal" then Fake (gofakeit.Float64Range 0 100000)
  else if equals "uuid" then UUIDNewString
  else if equals "timestamp" || equals "timestamp without time zone" then Fake gofakeit.Date
  else if equals "timestamptz" || equals "timestamp with time zone" then Fake gofakeit.Date
  else if equals "date" then DateFormat "2006-01-02"
  else if equals "time" || equals "time without time zone" then DateFormat "15:04:05"
  else if equals "timetz" || equals "time with time zone" then DateFormat "15:04:05-07:00"
  else if equals "jsonb" || equals "json" then GeneratedJSON
  else if equals "bytea" then BytesOf (gofakeit.Sentence 5)
  else if starts "interval" then HoursOf (gofakeit.Number 1 24)
  else Fake (gofakeit.Sentence 5).

Definition GenerateValue (colType colName : string) : Generated :=
  let colType := strings.ToLower colType in
  let colName := strings.ToLower colName in
  match nameHint colName with
  | Some v => v
  | None => byType colType
  end.

(** The interval a generated number is drawn from, when the value is a
    ranged float. *)
Definition floatRange (g : Generated) : option (Z * Z) :=
  match g with
  | Fake (gofakeit.Float64Range lo hi) => Some (lo, hi)
  | Float32Of (gofakeit.Float64Range lo hi) => Some (lo, hi)
  | _ => None
  end.

(** The integer conversion of a generated value: the width in bits of the
    type converted to, and the library call converted. *)
Definition intConversion (g : Generated) : option (Z * gofakeit.Call) :=
  match g with
  | Int16Of c => Some (16, c)
  | Int32Of c => Some (32, c)
  | Int64Of c => Some (64, c)
  | _ => None
  end.

(** The generated values that are Go strings. *)
Definition isText (g : Generated) : bool :=
  match g with
  | Fake (gofakeit.Bool | gofakeit.Date | gofakeit.Number _ _ | gofakeit.Float64Range _ _
          | gofakeit.Address) => false
  | Fake _ => true
  | AddressOf gofakeit.Address => true
  | UUIDNewString | DateFormat _ | GeneratedJSON | HoursOf _ => true
  | _ => false
  end.

(** ** Package schema: the driver boundary *)

(** A query argument: [interface{}] holding one of these. *)
Inductive Value : Type :=
| VString (s : string)
| VInt64 (z : Z)
| VGenerated (g : Generated).

(** A statement sent over the connection. *)
Record Stmt : Type := mkStmt { sql : string; args : list Value }.

(** ColumnInfo holds metadata about a table column. *)
Record ColumnInfo : Type := mkColumnInfo {
  Name : string;
  DataType : string;
  IsNullable : bool;
  HasDefault : bool;
  IsSerial : bool
}.

(** The connection, as the answers the database gives to each kind of
    call the scenario makes.  [inl e] is a non-nil error.  A [Conn] is the
    database as one method call finds it; the next call may be given
    another. *)
Record Conn : Type := mkConn {
  (* QueryRow(...).Scan(&a, &b) of two text columns *)
  scanPair : Stmt -> error + (string * string);
  (* Query(...) of the column catalog; each row scans or fails *)
  queryColumns : Stmt -> error + list (error + ColumnInfo);
  (* QueryRow(...).Scan(&maxID) with maxID *int64 *)
  scanMax : Stmt -> error + option Z;
  (* Query(...) of the keys cast to text; each row scans or fails *)
  queryIDs : Stmt -> error + list (error + string);
  (* QueryRow(...).Scan(destinations...) of a whole row *)
  scanRow : Stmt -> option error;
  (* QueryRow(...).Scan(&newID) *)
  scanID : Stmt -> error + string
}.

(** ** Package schema: the dynamic scenario *)

(** CustomScenario dynamically introspects a table and generates
    appropriate queries. *)
Record CustomScenario : Type := mkCustomScenario {
  tableName : string;
  schemaName : string;
  initialized : bool;
  columns : list ColumnInfo;
  insertColumns : list ColumnInfo;
  primaryKey : string;
  primaryKeyType : string;
  insertQuery : string;
  selectQuery : string;
  maxID : Z;
  ids : list string
}.

Definition NewCustomScenario (tableName : string) : CustomScenario :=
  let schemaName := "public" in
  let tblName := tableName in
  let parts := strings.SplitN2 tableName "." in
  let split := negb (tableName =? EmptyString)%string && strings.Contains tableName "." in
  let schemaName := if split then nth 0 parts EmptyString else schemaName in
  let tblName := if split then nth 1 parts EmptyString else tblName in
  {| tableName := tblName; schemaName := schemaName; initialized := false;
     columns := []; insertColumns := [];
     primaryKey := EmptyString; primaryKeyType := EmptyString;
     insertQuery := EmptyString; selectQuery := EmptyString;
     maxID := 100000; ids := [] |}.

(** Field assignments through the receiver. *)
Definition set_table (sch tbl : string) (s : CustomScenario) : CustomScenario :=
  {| tableName := tbl; schemaName := sch; initialized := initialized s;
     columns := columns s; insertColumns := insertColumns s;
     primaryKey := primaryKey s; primaryKeyType := primaryKeyType s;
     insertQuery := insertQuery s; selectQuery := selectQuery s;
     maxID := maxID s; ids := ids s |}.

Definition set_columns (cols ins : list ColumnInfo) (s : CustomScenario) : CustomScenario :=
  {| tableName := tableName s; schemaName := schemaName s; initialized := initialized s;
     columns := cols; insertColumns := ins;
     primaryKey := primaryKey s; primaryKeyType := primaryKeyType s;
     insertQuery := insertQuery s; selectQuery := selectQuery s;
     maxID := maxID s; ids := ids s |}.

Definition set_primaryKey (pk pkType : string) (s : CustomScenario) : CustomScenario :=
  {| tableName := tableName s; schemaName := schemaName s; initialized := initialized s;
     columns := columns s; insertColumns := insertColumns s;
     primaryKey := pk; primaryKeyType := pkType;
     insertQuery := insertQuery s; selectQuery := selectQuery s;
     maxID := maxID s; ids := ids s |}.

Definition set_maxID (m : Z) (s : CustomScenario) : CustomScenario :=
  {| tableName := tableName s; schemaName := schemaName s; initialized := initialized s;
     columns := columns s; insertColumns := insertColumns s;
     primaryKey := primaryKey s; primaryKeyType := primaryKeyType s;
     insertQuery := insertQuery s; selectQuery := selectQuery s;
     maxID := m; ids := ids s |}.

Definition set_ids (l : list string) (s : CustomScenario) : CustomScenario :=
  {| tableName := tableName s; schemaName := schemaName s; initialized := initialized s;
     columns := columns s; insertColumns := insertColumns s;
     primaryKey := primaryKey s; primaryKeyType := primaryKeyType s;
     insertQuery := insertQuery s; selectQuery := selectQuery s;
     maxID := maxID s; ids := l |}.

Definition set_insertQuery (q : string) (s : CustomScenario) : CustomScenario :=
  {| tableName := tableName s; schemaName := schemaName s; initialized := initialized s;
     columns := columns s; insertColumns := insertColumns s;
     primaryKey := primaryKey s; primaryKeyType := primaryKeyType s;
     insertQuery := q; selectQuery := selectQuery s;
     maxID := maxID s; ids := ids s |}.

Definition set_selectQuery (q : string) (s : CustomScenario) : CustomScenario :=
  {| tableName := tableName s; schemaName := schemaName s; initialized := initialized s;
     columns := columns s; insertColumns := insertColumns s;
     primaryKey := primaryKey s; primaryKeyType := primaryKeyType s;
     insertQuery := insertQuery s; selectQuery := q;
     maxID := maxID s; ids := ids s |}.

Definition set_initialized (b : bool) (s : CustomScenario) : CustomScenario :=
  {| tableName := tableName s; schemaName := schemaName s; initialized := b;
     columns := columns s; insertColumns := insertColumns s;
     primaryKey := primaryKey s; primaryKeyType := primaryKeyType s;
     insertQuery := insertQuery s; selectQuery := selectQuery s;
     maxID := maxID s; ids := ids s |}.

(** A method body: it reads and assigns the receiver's fields, sends
    statements, and either returns early with an error or goes on with a
    value. *)
Definition M (A : Type) : Type :=
  CustomScenario -> (error + A) * CustomScenario * list Stmt.

Definition ret {A : Type} (a : A) : M A := fun s => (inr a, s, []).

Definition fail {A : Type} (e : error) : M A := fun s => (inl e, s, []).

Definition bind {A B : Type} (m : M A) (f : A -> M B) : M B :=
  fun s =>
    match m s with
    | (inl e, s1, l1) => (inl e, s1, l1)
    | (inr a, s1, l1) =>
        match f a s1 with
        | (r, s2, l2) => (r, s2, (l1 ++ l2)%list)
        end
    end.

Definition get : M CustomScenario := fun s => (inr s, s, []).

Definition modify (f : CustomScenario -> CustomScenario) : M unit :=
  fun s => (inr tt, f s, []).

(** Send a statement and take the driver's answer. *)
Definition send {A : Type} (answer : Stmt -> A) (q : Stmt) : M A :=
  fun s => (inr (answer q), s, [q]).

Notation "x <- m ;; k" := (bind m (fun x => k))
  (at level 100, m at next level, right associativity).
Notation "m ;;; k" := (bind m (fun _ => k))
  (at level 100, right associativity).

(** The SQL texts of [Initialize] (white space normalised). *)
Definition discoverSQL : string :=
  "SELECT table_schema, table_name FROM information_schema.tables WHERE table_schema = 'public' AND table_type = 'BASE TABLE' ORDER BY table_name LIMIT 1".

Definition columnsSQL : string :=
  "SELECT c.column_name, c.data_type, c.is_nullable = 'YES' as is_nullable, c.column_default IS NOT NULL as has_default, COALESCE((c.column_default LIKE 'nextval%'), false) as is_serial FROM information_schema.columns c WHERE c.table_schema = $1 AND c.table_name = $2 ORDER BY c.ordinal_position".

Definition primaryKeySQL : string :=
  "SELECT a.attname, format_type(a.atttypid, a.atttypmod) as data_type FROM pg_index i JOIN pg_attribute a ON a.attrelid = i.indrelid AND a.attnum = ANY(i.indkey) WHERE i.indrelid = $1::regclass AND i.indisprimary LIMIT 1".

(** Include columns that are not serial/auto-generated for inserts. *)
Definition insertable (col : ColumnInfo) : bool := negb (IsSerial col).

(** The [for rows.Next()] loop over the catalog rows. *)
Fixpoint scanColumns (rows : list (error + ColumnInfo)) : M unit :=
  match rows with
  | [] => ret tt
  | inl e :: _ => fail ("failed to scan column info: " ++ e)
  | inr col :: rest =>
      modify (fun s =>
        set_columns (columns s ++ [col])%list
                    (if insertable col then (insertColumns s ++ [col])%list else insertColumns s) s) ;;;
      scanColumns rest
  end.

(** The [for idRows.Next()] loop.  A row that fails to scan is not
    appended, and the failed [Scan] closes the rows (pgx v5), so that
    [Next()] is false from then on: the loop ends at the first row that
    fails. *)
Fixpoint scanIDs (rows : list (error + string)) (ids : list string) : list string :=
  match rows with
  | [] => ids
  | inl _ :: _ => ids
  | inr id :: rest => scanIDs rest (ids ++ [id])%list
  end.

Definition isIntegerPK (primaryKeyType : string) : bool :=
  let lowerType := strings.ToLower primaryKeyType in
  (strings.Contains lowerType "int" || strings.Contains lowerType "serial") &&
  negb (strings.Contains lowerType "uuid").

Definition buildInsertQuery (s : CustomScenario) : string :=
  let colNames := imap (fun (_ : nat) col => Name col) (insertColumns s) in
  let placeholders :=
    imap (fun (i : nat) (_ : ColumnInfo) => "$" ++ sprint_d (Z.of_nat i + 1)) (insertColumns s) in
  "INSERT INTO " ++ schemaName s ++ "." ++ tableName s ++
  " (" ++ strings.Join colNames ", " ++ ") VALUES (" ++
  strings.Join placeholders ", " ++ ") RETURNING " ++ primaryKey s ++ "::text".

Definition buildSelectQuery (s : CustomScenario) : string :=
  let colNames := imap (fun (_ : nat) col => Name col) (columns s) in
  "SELECT " ++ strings.Join colNames ", " ++
  " FROM " ++ schemaName s ++ "." ++ tableName s ++
  " WHERE " ++ primaryKey s ++ " = $1".

(** The steps of [Initialize], in the order of its body. *)

(** Auto-discover table if not specified. *)
Definition discoverTable (conn : Conn) : M unit :=
  s <- get ;;
  if (tableName s =? EmptyString)%string then
    r <- send (scanPair conn) (mkStmt discoverSQL []) ;;
    match r with
    | inl e => fail ("failed to auto-discover table: " ++ e)
    | inr (sch, tbl) => modify (set_table sch tbl)
    end
  else ret tt.

(** Get column information from information_schema. *)
Definition loadColumns (conn : Conn) : M unit :=
  s <- get ;;
  rows <- send (queryColumns conn)
            (mkStmt columnsSQL [VString (schemaName s); VString (tableName s)]) ;;
  match rows with
  | inl e => fail ("failed to query columns: " ++ e)
  | inr rows =>
      modify (set_columns [] []) ;;;
      scanColumns rows ;;;
      s <- get ;;
      if (Z.of_nat (length (columns s)) =? 0) then
        fail ("table " ++ schemaName s ++ "." ++ tableName s ++
              " not found or has no columns")
      else ret tt
  end.

Definition noColumn : ColumnInfo := mkColumnInfo EmptyString EmptyString false false false.

(** Get primary key column and type; with no primary key, use the first
    column. *)
Definition resolvePrimaryKey (conn : Conn) : M unit :=
  s <- get ;;
  pk <- send (scanPair conn)
          (mkStmt primaryKeySQL [VString (schemaName s ++ "." ++ tableName s)]) ;;
  match pk with
  | inl _ =>
      modify (fun s => set_primaryKey (Name (nth 0 (columns s) noColumn))
                                      (DataType (nth 0 (columns s) noColumn)) s)
  | inr (attname, pkType) => modify (set_primaryKey attname pkType)
  end.

(** Determine strategy based on PK type (int vs uuid/other): read the
    maximum id, or cache the ids. *)
Definition seedIDs (conn : Conn) : M unit :=
  s <- get ;;
  if isIntegerPK (primaryKeyType s) then
    m <- send (scanMax conn)
           (mkStmt ("SELECT MAX(" ++ primaryKey s ++ ") FROM " ++
                    schemaName s ++ "." ++ tableName s) []) ;;
    (match m with
     | inr (Some v) => modify (set_maxID v)
     | _ => ret tt
     end) ;;;
    modify (fun s => if maxID s <? 1 then set_maxID 1 s else s)
  else
    idRows <- send (queryIDs conn)
                (mkStmt ("SELECT " ++ primaryKey s ++ "::text FROM " ++
                         schemaName s ++ "." ++ tableName s ++ " LIMIT 10000") []) ;;
    match idRows with
    | inr idRows => modify (fun s => set_ids (scanIDs idRows (ids s)) s)
    | inl _ => ret tt
    end.


(** Build INSERT query, build SELECT query. *)
Definition buildQueries : M unit :=
  modify (fun s =>
    if (0 <? Z.of_nat (length (insertColumns s)))
    then set_insertQuery (buildInsertQuery s) s else s) ;;;
  modify (fun s => set_selectQuery (buildSelectQuery s) s).

(** Initialize introspects the table structure and builds queries. *)
Definition Initialize (conn : Conn) : M unit :=
  s <- get ;;
  if initialized s then ret tt else
  discoverTable conn ;;;
  loadColumns conn ;;;
  resolvePrimaryKey conn ;;;
  seedIDs conn ;;;
  buildQueries ;;;
  modify (set_initialized true).

(** [rand.Intn(n)] and [rand.Int63n(n)] for [n > 0], drawn from the
    entropy [rnd] the caller supplies. *)
Definition Intn (rnd n : Z) : Z := rnd mod n.

(** The id [ExecuteRead] settles on; [None] is the nil interface. *)
Definition pickID (rnd : Z) (cachedIDs maxID : Z) (s : CustomScenario) : option Value :=
  if 0 <? cachedIDs then
    if 0 <? Z.of_nat (length (ids s))
    then Some (VString (nth (Z.to_nat (Intn rnd (Z.of_nat (length (ids s))))) (ids s) EmptyString))
    else None
  else if 0 <? maxID then Some (VInt64 (Intn rnd maxID + 1))
  else None.

Definition ExecuteRead (conn : Conn) (rnd : Z) : M unit :=
  s <- get ;;
  (if initialized s then ret tt else Initialize conn) ;;;
  s <- get ;;
  let query := selectQuery s in
  let maxID := maxID s in
  let cachedIDs := Z.of_nat (length (ids s)) in
  if (query =? EmptyString)%string then fail "custom scenario not initialized" else
  match pickID rnd cachedIDs maxID s with
  | None => ret tt
  | Some id =>
      r <- send (scanRow conn) (mkStmt query [id]) ;;
      match r with
      | Some e => fail e
      | None => ret tt
      end
  end.

(** The cache update of a successful insert that returned [newID]. *)
Definition cacheID (rnd : Z) (newID : string) (s : CustomScenario) : CustomScenario :=
  if (0 <? Z.of_nat (length (ids s))) || (maxID s =? 0) then
    if Z.of_nat (length (ids s)) <? 10000
    then set_ids (ids s ++ [newID])%list s
    else set_ids (<[Z.to_nat (Intn rnd (Z.of_nat (length (ids s)))) := newID]> (ids s)) s
  else s.

Definition ExecuteWrite (conn : Conn) (rnd : Z) : M unit :=
  s <- get ;;
  (if initialized s then ret tt else Initialize conn) ;;;
  s <- get ;;
  let query := insertQuery s in
  let insertColumns := insertColumns s in
  if (query =? EmptyString)%string || (Z.of_nat (length insertColumns) =? 0) then
    fail "custom scenario not initialized or no insertable columns"
  else
  let args := imap (fun (_ : nat) col => VGenerated (GenerateValue (DataType col) (Name col)))
                   insertColumns in
  r <- send (scanID conn) (mkStmt query args) ;;
  match r with
  | inr newID =>
      (if negb (newID =? EmptyString)%string then modify (cacheID rnd newID) else ret tt)
  | inl e => fail e
  end.

(** The accessors of the dynamic scenario. *)
Definition CustomScenario_TableName (s : CustomScenario) : string := tableName s.

Definition CustomScenario_MaxID (s : CustomScenario) : Z := maxID s.

Definition IsInitialized (s : CustomScenario) : bool := initialized s.

Definition GetColumns (s : CustomScenario) : list ColumnInfo := columns s.

(** A method body that leaves the [initialized] flag as it found it,
    whether it returns an error or not. *)
Definition keepsInitialized {A : Type} (m : M A) : Prop :=
  forall s, initialized (snd (fst (m s))) = initialized s.

(** The ids the [for idRows.Next()] loop keeps: those of the rows before
    the first one that fails to scan. *)
Fixpoint scannedIDs (rows : list (error + string)) : list string :=
  match rows with
  | inr id :: rest => id :: scannedIDs rest
  | _ => []
  end.

(** ** Package schema: the statically shaped scenarios *)

(** What a call comes to: it returns an error ([None] is nil), or it
    panics. *)
Inductive Outcome : Type :=
| Returns (err : option error)
| Panics (msg : string).

(** [rand.Int63n(n)]: it panics unless [n > 0]. *)
Definition Int63n (rnd n : Z) : option Z :=
  if n <=? 0 then None else Some (Intn rnd n).

(** The cache update after an insert that returned [newID]: append while
    the cache holds fewer than 10000 ids, else replace a random one. *)
Definition keepID (rnd : Z) (newID : string) (ids : list string) : list string :=
  if Z.of_nat (length ids) <? 10000 then (ids ++ [newID])%list
  else <[Z.to_nat (Intn rnd (Z.of_nat (length ids))) := newID]> ids.

(** SimpleScenario is the original users table scenario. *)
Module SimpleScenario.

Record t : Type := mk { maxID : Z; ids : list string }.

Definition New : t := {| maxID := 100000; ids := [] |}.

Definition Name (s : t) : string := "simple".
Definition Description (s : t) : string := "Simple users table (username, email)".
Definition TableName (s : t) : string := "users".
Definition MaxID (s : t) : Z := maxID s.

(** Pre-load some existing ids; a failing query is ignored. *)
Definition Initialize (conn : Conn) (s : t) : option error * t * list Stmt :=
  let q := mkStmt "SELECT id::text FROM users LIMIT 10000" [] in
  match queryIDs conn q with
  | inl _ => (None, s, [q])
  | inr rows => (None, {| maxID := maxID s; ids := scanIDs rows (ids s) |}, [q])
  end.

(** Try to use a cached id first, fall back to a random integer. *)
Definition ExecuteRead (conn : Conn) (rnd : Z) (s : t) : Outcome * list Stmt :=
  let sql := "SELECT id::text, username, email, created_at FROM users WHERE id = $1" in
  if 0 <? Z.of_nat (length (ids s)) then
    let id := VString (nth (Z.to_nat (Intn rnd (Z.of_nat (length (ids s))))) (ids s) EmptyString) in
    (Returns (scanRow conn (mkStmt sql [id])), [mkStmt sql [id]])
  else
    match Int63n rnd (maxID s) with
    | None => (Panics "invalid argument to Int63n", [])
    | Some n =>
        let id := VInt64 (n + 1) in
        (Returns (scanRow conn (mkStmt sql [id])), [mkStmt sql [id]])
    end.

(** [randNum] is the result of [rand.Int63()]. *)
Definition ExecuteWrite (conn : Conn) (randNum rnd : Z) (s : t)
  : option error * t * list Stmt :=
  let username := "user_" ++ sprint_d randNum in
  let email := "user_" ++ sprint_d randNum ++ "@example.com" in
  let q := mkStmt "INSERT INTO users (username, email) VALUES ($1, $2) RETURNING id::text"
             [VString username; VString email] in
  match scanID conn q with
  | inr newID =>
      (None,
       if negb (newID =? EmptyString)%string
       then {| maxID := maxID s; ids := keepID rnd newID (ids s) |}
       else s,
       [q])
  | inl e => (Some e, s, [q])
  end.

(** The ids one call of [Initialize] loads: those of the rows before the
    first one that fails to scan, none when the query fails. *)
Definition loaded (conn : Conn) : list string :=
  match queryIDs conn (mkStmt "SELECT id::text FROM users LIMIT 10000" []) with
  | inr rows => scannedIDs rows
  | inl _ => []
  end.

(** The calls made on the one object of the registry, and the object
    after them. *)
Inductive Call : Type :=
| CallInitialize (conn : Conn)
| CallExecuteRead (conn : Conn) (rnd : Z)
| CallExecuteWrite (conn : Conn) (randNum rnd : Z).

Definition step (s : t) (c : Call) : t :=
  match c with
  | CallInitialize conn => snd (fst (Initialize conn s))
  | CallExecuteRead _ _ => s
  | CallExecuteWrite conn randNum rnd => snd (fst (ExecuteWrite conn randNum rnd s))
  end.

Definition run (calls : list Call) : t := fold_left step calls New.

End SimpleScenario.

(** FKScenario uses tables with foreign key relationships. *)
Module FKScenario.

Record t : Type := mk { maxCategoryID : Z; ids : list string }.

Definition New : t := {| maxCategoryID := 100; ids := [] |}.

Definition Name (s : t) : string := "fk".
Definition Description (s : t) : string := "Tables with foreign key lookup".
Definition TableName (s : t) : string := "items".
Definition MaxID (s : t) : Z := 0.

Definition Initialize (conn : Conn) (s : t) : option error * t * list Stmt :=
  let q := mkStmt "SELECT id::text FROM items LIMIT 10000" [] in
  match queryIDs conn q with
  | inl _ => (None, s, [q])
  | inr rows => (None, {| maxCategoryID := maxCategoryID s; ids := scanIDs rows (ids s) |}, [q])
  end.

(** With no id at hand there is nothing to read (the SQL text with its
    white space normalised). *)
Definition ExecuteRead (conn : Conn) (rnd : Z) (s : t) : Outcome * list Stmt :=
  let sql := "SELECT i.id::text, i.name, i.created_at, c.id::text, c.name FROM items i JOIN categories c ON i.category_id = c.id WHERE i.id = $1" in
  let id :=
    if 0 <? Z.of_nat (length (ids s))
    then nth (Z.to_nat (Intn rnd (Z.of_nat (length (ids s))))) (ids s) EmptyString
    else EmptyString in
  if (id =? EmptyString)%string then (Returns None, [])
  else (Returns (scanRow conn (mkStmt sql [VString id])), [mkStmt sql [VString id]]).

(** [randNum] is the result of [rand.Int63()], [rndCategory] the entropy
    of the category draw. *)
Definition ExecuteWrite (conn : Conn) (rndCategory randNum rnd : Z) (s : t)
  : Outcome * t * list Stmt :=
  match Int63n rndCategory (maxCategoryID s) with
  | None => (Panics "invalid argument to Int63n", s, [])
  | Some n =>
      let categoryID := n + 1 in
      let name := "item_" ++ sprint_d randNum in
      let q := mkStmt "INSERT INTO items (category_id, name) VALUES ($1, $2) RETURNING id::text"
                 [VInt64 categoryID; VString name] in
      match scanID conn q with
      | inr newID =>
          (Returns None,
           if negb (newID =? EmptyString)%string
           then {| maxCategoryID := maxCategoryID s; ids := keepID rnd newID (ids s) |}
           else s,
           [q])
      | inl e => (Returns (Some e), s, [q])
      end
  end.

Definition loaded (conn : Conn) : list string :=
  match queryIDs conn (mkStmt "SELECT id::text FROM items LIMIT 10000" []) with
  | inr rows => scannedIDs rows
  | inl _ => []
  end.

Inductive Call : Type :=
| CallInitialize (conn : Conn)
| CallExecuteRead (conn : Conn) (rnd : Z)
| CallExecuteWrite (conn : Conn) (rndCategory randNum rnd : Z).

Definition step (s : t) (c : Call) : t :=
  match c with
  | CallInitialize conn => snd (fst (Initialize conn s))
  | CallExecuteRead _ _ => s
  | CallExecuteWrite conn rndCategory randNum rnd =>
      snd (fst (ExecuteWrite conn rndCategory randNum rnd s))
  end.

Definition run (calls : list Call) : t := fold_left step calls New.

End FKScenario.

(** ** Package schema: scenarios and their registry *)

(** The statically shaped scenarios.  The registry creates one object of
    each, so a pointer to such an object is told by its kind. *)
Inductive Builtin : Type := Simple | JSONB | Wide | FK.

(** A [Scenario] interface value: nil, a pointer to the registry's object
    of one of the statically shaped scenarios, or a pointer to a dynamic
    scenario at an address of the store of dynamic scenarios. *)
Inductive Scenario : Type :=
| NilScenario
| BuiltinScenario (b : Builtin)
| CustomScenarioAt (addr : nat).

(** The store of the dynamic scenarios created so far, by address. *)
Definition Store : Type := list CustomScenario.

Definition CustomScenario_Name (s : CustomScenario) : string :=
  if (tableName s =? EmptyString)%string then "custom:auto" else "custom:" ++ tableName s.

(** The [Name()] method. *)
Definition Scenario_Name (store : Store) (s : Scenario) : string :=
  match s with
  | NilScenario => EmptyString
  | BuiltinScenario Simple => "simple"
  | BuiltinScenario JSONB => "jsonb"
  | BuiltinScenario Wide => "wide"
  | BuiltinScenario FK => "fk"
  | CustomScenarioAt addr =>
      match store !! addr with
      | Some cs => CustomScenario_Name cs
      | None => EmptyString
      end
  end.

(** Registry holds all available scenarios. *)
Definition Registry : Type := gmap string Scenario.

(** Register adds a scenario to the registry. *)
Definition Register (store : Store) (s : Scenario) (r : Registry) : Registry :=
  <[Scenario_Name store s := s]> r.

(** NewRegistry creates a new scenario registry with builtin scenarios. *)
Definition NewRegistry : Registry :=
  Register [] (BuiltinScenario FK)
    (Register [] (BuiltinScenario Wide)
      (Register [] (BuiltinScenario JSONB)
        (Register [] (BuiltinScenario Simple) ∅))).

(** Get retrieves a scenario by name; [None] is [ok = false]. *)
Definition Get (name : string) (r : Registry) : option Scenario := r !! name.

(** CreateCustomScenario creates a custom scenario for a specific table:
    a new object in the store, and the pointer to it. *)
Definition CreateCustomScenario (tableName : string) (store : Store) : Scenario * Store :=
  (CustomScenarioAt (length store), (store ++ [NewCustomScenario tableName])%list).

(** ScenarioInfo contains metadata about a scenario for API responses. *)
Module ScenarioInfo.
Record t : Type := mk { Name : string; Description : string; TableName : string }.
End ScenarioInfo.

Definition CustomScenario_Description (s : CustomScenario) : string :=
  if (tableName s =? EmptyString)%string then "Custom table: <auto-discover>"
  else "Custom table: " ++ tableName s.

(** The [Description()] method. *)
Definition Scenario_Description (store : Store) (s : Scenario) : string :=
  match s with
  | NilScenario => EmptyString
  | BuiltinScenario Simple => "Simple users table (username, email)"
  | BuiltinScenario JSONB => "Table with JSONB payload column"
  | BuiltinScenario Wide => "Wide table with 20+ columns"
  | BuiltinScenario FK => "Tables with foreign key lookup"
  | CustomScenarioAt addr =>
      match store !! addr with
      | Some cs => CustomScenario_Description cs
      | None => EmptyString
      end
  end.

(** The [TableName()] method. *)
Definition Scenario_TableName (store : Store) (s : Scenario) : string :=
  match s with
  | NilScenario => EmptyString
  | BuiltinScenario Simple => "users"
  | BuiltinScenario JSONB => "jsonb_data"
  | BuiltinScenario Wide => "wide_data"
  | BuiltinScenario FK => "items"
  | CustomScenarioAt addr =>
      match store !! addr with
      | Some cs => CustomScenario_TableName cs
      | None => EmptyString
      end
  end.

Definition infoOf (store : Store) (s : Scenario) : ScenarioInfo.t :=
  ScenarioInfo.mk (Scenario_Name store s) (Scenario_Description store s)
                  (Scenario_TableName store s).

(** The consistent order of [List]. *)
Definition order : list string := ["simple"; "jsonb"; "wide"; "fk"].

(** List returns info about all registered scenarios: those of [order]
    first, then any others.  Go ranges over the others in an unspecified
    order; here it is the one of [map_to_list]. *)
Definition List (store : Store) (r : Registry) : list ScenarioInfo.t :=
  (omap (fun name => match Get name r with
                     | Some s => Some (infoOf store s)
                     | None => None
                     end) order ++
   map (fun entry : string * Scenario => infoOf store (snd entry))
       (List.filter (fun entry : string * Scenario =>
                       negb (existsb (fun o => (o =? fst entry)%string) order))
                    (map_to_list r)))%list.

End schema.

(** ** Package time *)

Module time.

(** A wall-clock instant, in nanoseconds since the Unix epoch, and a
    span in nanoseconds. *)
Definition Time : Type := Z.
Definition Duration : Type := Z.

Definition Millisecond : Duration := 1000000.
Definition Second : Duration := 1000000000.

(** [time.Time{}]: January 1 of year 1, 00:00 UTC. *)
Definition zero : Time := - 62135596800 * Second.

(** [t.Sub(u)]: the difference, saturated to the range of a Duration. *)
Definition Sub (t u : Time) : Duration :=
  let d := t - u in
  if d <? minInt64 then minInt64
  else if maxInt64 <? d then maxInt64
  else d.

(** [time.Since(t)] when the clock reads [now]. *)
Definition Since (now t : Time) : Duration := Sub now t.

Definition UnixMilli (t : Time) : Z := t / Millisecond.

(** [d.Seconds()]. *)
Definition Seconds (d : Duration) : float64 :=
  let sec := Z.quot d Second in
  let nsec := Z.rem d Second in
  float64_add (float64_of_int sec)
              (float64_div (float64_of_int nsec) (float64_of_int 1000000000)).

End time.

(** ** Package metrics *)

Module metrics.

Definition error : Type := string.

(** What a histogram hands out on [SnapshotAndReset]; the collector reads
    these three fields. *)
Record HistogramSnapshot : Type := mkHistogramSnapshot {
  P50 : float64;
  P99 : float64;
  Avg : float64
}.

(** The latency histogram the collector is built on.  The collector only
    creates histograms, records into them and takes their snapshot, so the
    histogram is an interface here and the collector is stated over any
    implementation of it. *)
Class HistogramImpl : Type := {
  Histogram : Type;
  NewHistogram : Histogram;
  Histogram_Record : Histogram -> time.Duration -> Histogram;
  SnapshotAndReset : Histogram -> HistogramSnapshot * Histogram
}.

Module ErrorEntry.
Record t : Type := mk { Timestamp : Z; Message : string }.
End ErrorEntry.

Module OperationStats.
Record t : Type := mk {
  QPS : float64;
  LatencyP50 : float64;
  LatencyP99 : float64;
  LatencyAvg : float64;
  Errors : Z
}.
End OperationStats.

Module TotalStats.
Record t : Type := mk {
  Queries : Z;
  Errors : Z;
  ErrorRate : float64
}.
End TotalStats.

Module PoolStats.
Record t : Type := mk {
  ActiveConnections : Z;
  IdleConnections : Z;
  WaitingRequests : Z
}.
Definition zero : t := mk 0 0 0.
End PoolStats.

Record MetricsSnapshot : Type := mkMetricsSnapshot {
  Timestamp : Z;
  Reads : OperationStats.t;
  Writes : OperationStats.t;
  Totals : TotalStats.t;
  Pool : PoolStats.t;
  RecentErrors : list ErrorEntry.t
}.

(** Collector aggregates metrics from workers and provides snapshots. *)
Record Collector `{HistogramImpl} : Type := mkCollector {
  readLatencies : Histogram;
  writeLatencies : Histogram;
  (* window counters (reset each interval) *)
  readCount : Z;
  writeCount : Z;
  readErrors : Z;
  writeErrors : Z;
  (* total counters (never reset except via Reset) *)
  totalQueries : Z;
  totalErrors : Z;
  recentErrors : list ErrorEntry.t;
  lastErrorTime : time.Time;
  maxRecentErrors : Z;
  (* the pool stats function, nil or a reading of the connection manager *)
  poolStatsFunc : option (unit -> PoolStats.t);
  startTime : time.Time
}.

Section collector.
Context `{HistogramImpl}.

Definition NewCollector (now : time.Time) (poolStatsFunc : option (unit -> PoolStats.t))
  : Collector :=
  {| readLatencies := NewHistogram; writeLatencies := NewHistogram;
     readCount := 0; writeCount := 0; readErrors := 0; writeErrors := 0;
     totalQueries := 0; totalErrors := 0;
     recentErrors := []; lastErrorTime := time.zero; maxRecentErrors := 10;
     poolStatsFunc := poolStatsFunc; startTime := now |}.

(** [s[len(s)-n:]]. *)
Definition lastN {A : Type} (n : Z) (s : list A) : list A :=
  drop (Z.to_nat (Z.of_nat (length s) - n)) s.

(** addError adds an error to the recent errors list (rate limited to 1
    per 10 seconds).  [now] is the clock's reading during the call: the
    readings the body takes one after the other are the same instant. *)
Definition addError (now : time.Time) (errMsg : string) (c : Collector) : Collector :=
  if time.Since now (lastErrorTime c) <? 10 * time.Second then c
  else
    let entry := ErrorEntry.mk (time.UnixMilli now) errMsg in
    let appended := (recentErrors c ++ [entry])%list in
    let trimmed :=
      if maxRecentErrors c <? Z.of_nat (length appended)
      then lastN (maxRecentErrors c) appended else appended in
    {| readLatencies := readLatencies c; writeLatencies := writeLatencies c;
       readCount := readCount c; writeCount := writeCount c;
       readErrors := readErrors c; writeErrors := writeErrors c;
       totalQueries := totalQueries c; totalErrors := totalErrors c;
       recentErrors := trimmed; lastErrorTime := now;
       maxRecentErrors := maxRecentErrors c;
       poolStatsFunc := poolStatsFunc c; startTime := startTime c |}.

(** RecordRead records a read operation. *)
Definition RecordRead (now : time.Time) (latency : time.Duration) (err : option error)
  (c : Collector) : Collector :=
  let c1 :=
    {| readLatencies := Histogram_Record (readLatencies c) latency;
       writeLatencies := writeLatencies c;
       readCount := wrap64 (readCount c + 1); writeCount := writeCount c;
       readErrors := readErrors c; writeErrors := writeErrors c;
       totalQueries := wrap64 (totalQueries c + 1); totalErrors := totalErrors c;
       recentErrors := recentErrors c; lastErrorTime := lastErrorTime c;
       maxRecentErrors := maxRecentErrors c;
       poolStatsFunc := poolStatsFunc c; startTime := startTime c |} in
  match err with
  | None => c1
  | Some e =>
      addError now ("read: " ++ e)
        {| readLatencies := readLatencies c1; writeLatencies := writeLatencies c1;
           readCount := readCount c1; writeCount := writeCount c1;
           readErrors := wrap64 (readErrors c1 + 1); writeErrors := writeErrors c1;
           totalQueries := totalQueries c1; totalErrors := wrap64 (totalErrors c1 + 1);
           recentErrors := recentErrors c1; lastErrorTime := lastErrorTime c1;
           maxRecentErrors := maxRecentErrors c1;
           poolStatsFunc := poolStatsFunc c1; startTime := startTime c1 |}
  end.

(** RecordWrite records a write operation. *)
Definition RecordWrite (now : time.Time) (latency : time.Duration) (err : option error)
  (c : Collector) : Collector :=
  let c1 :=
    {| readLatencies := readLatencies c;
       writeLatencies := Histogram_Record (writeLatencies c) latency;
       readCount := readCount c; writeCount := wrap64 (writeCount c + 1);
       readErrors := readErrors c; writeErrors := writeErrors c;
       totalQueries := wrap64 (totalQueries c + 1); totalErrors := totalErrors c;
       recentErrors := recentErrors c; lastErrorTime := lastErrorTime c;
       maxRecentErrors := maxRecentErrors c;
       poolStatsFunc := poolStatsFunc c; startTime := startTime c |} in
  match err with
  | None => c1
  | Some e =>
      addError now ("write: " ++ e)
        {| readLatencies := readLatencies c1; writeLatencies := writeLatencies c1;
           readCount := readCount c1; writeCount := writeCount c1;
           readErrors := readErrors c1; writeErrors := wrap64 (writeErrors c1 + 1);
           totalQueries := totalQueries c1; totalErrors := wrap64 (totalErrors c1 + 1);
           recentErrors := recentErrors c1; lastErrorTime := lastErrorTime c1;
           maxRecentErrors := maxRecentErrors c1;
           poolStatsFunc := poolStatsFunc c1; startTime := startTime c1 |}
  end.

(** Snapshot returns current metrics and resets window counters. *)
Definition Snapshot (now : time.Time) (interval : time.Duration) (c : Collector)
  : MetricsSnapshot * Collector :=
  let '(readHist, readLatencies') := SnapshotAndReset (readLatencies c) in
  let '(writeHist, writeLatencies') := SnapshotAndReset (writeLatencies c) in
  (* atomic.SwapInt64(&counter, 0) *)
  let readCount' := readCount c in
  let writeCount' := writeCount c in
  let readErrors' := readErrors c in
  let writeErrors' := writeErrors c in
  let intervalSec := time.Seconds interval in
  let readQPS := float64_div (float64_of_int readCount') intervalSec in
  let writeQPS := float64_div (float64_of_int writeCount') intervalSec in
  let totalQueries' := totalQueries c in
  let totalErrors' := totalErrors c in
  let errorRate :=
    if 0 <? totalQueries'
    then float64_div (float64_of_int totalErrors') (float64_of_int totalQueries')
    else float64_zero in
  let poolStats :=
    match poolStatsFunc c with
    | Some f => f tt
    | None => PoolStats.zero
    end in
  ({| Timestamp := time.UnixMilli now;
      Reads := OperationStats.mk readQPS (P50 readHist) (P99 readHist) (Avg readHist) readErrors';
      Writes := OperationStats.mk writeQPS (P50 writeHist) (P99 writeHist) (Avg writeHist) writeErrors';
      Totals := TotalStats.mk totalQueries' totalErrors' errorRate;
      Pool := poolStats;
      RecentErrors := recentErrors c |},
   {| readLatencies := readLatencies'; writeLatencies := writeLatencies';
      readCount := 0; writeCount := 0; readErrors := 0; writeErrors := 0;
      totalQueries := totalQueries c; totalErrors := totalErrors c;
      recentErrors := recentErrors c; lastErrorTime := lastErrorTime c;
      maxRecentErrors := maxRecentErrors c;
      poolStatsFunc := poolStatsFunc c; startTime := startTime c |}).

(** Reset clears all metrics. *)
Definition Reset (now : time.Time) (c : Collector) : Collector :=
  {| readLatencies := snd (SnapshotAndReset (readLatencies c));
     writeLatencies := snd (SnapshotAndReset (writeLatencies c));
     readCount := 0; writeCount := 0; readErrors := 0; writeErrors := 0;
     totalQueries := 0; totalErrors := 0;
     recentErrors := []; lastErrorTime := time.zero;
     maxRecentErrors := maxRecentErrors c;
     poolStatsFunc := poolStatsFunc c; startTime := now |}.

(** Uptime returns the duration since the collector was created or reset. *)
Definition Uptime (now : time.Time) (c : Collector) : time.Duration :=
  time.Since now (startTime c).

(** A call a worker, the broadcaster or a handler makes on the collector,
    with the clock's reading at that call. *)
Inductive Call : Type :=
| CallRecordRead (now : time.Time) (latency : time.Duration) (err : option error)
| CallRecordWrite (now : time.Time) (latency : time.Duration) (err : option error)
| CallSnapshot (now : time.Time) (interval : time.Duration)
| CallReset (now : time.Time).

(** What one [Snapshot] call emits: the snapshot, and the read and write
    window counts it swapped out (the locals [readCount] and [writeCount],
    of which the snapshot carries the quotient by the interval). *)
Record Emitted : Type := mkEmitted {
  windowReads : Z;
  windowWrites : Z;
  snapshot : MetricsSnapshot
}.

Definition step (call : Call) (c : Collector) : Collector * list Emitted :=
  match call with
  | CallRecordRead now latency err => (RecordRead now latency err c, [])
  | CallRecordWrite now latency err => (RecordWrite now latency err c, [])
  | CallSnapshot now interval =>
      let '(snap, c') := Snapshot now interval c in
      (c', [mkEmitted (readCount c) (writeCount c) snap])
  | CallReset now => (Reset now c, [])
  end.

(** The calls of a run, one after the other; the snapshots come out in
    the order they were taken. *)
Fixpoint run (calls : list Call) (c : Collector) : Collector * list Emitted :=
  match calls with
  | [] => (c, [])
  | call :: rest =>
      let '(c1, out1) := step call c in
      let '(c2, out2) := run rest c1 in
      (c2, (out1 ++ out2)%list)
  end.

Definition isRecord (call : Call) : bool :=
  match call with
  | CallRecordRead _ _ _ | CallRecordWrite _ _ _ => true
  | _ => false
  end.

Definition isReset (call : Call) : bool :=
  match call with
  | CallReset _ => true
  | _ => false
  end.

Definition isFailure (call : Call) : bool :=
  match call with
  | CallRecordRead _ _ (Some _) | CallRecordWrite _ _ (Some _) => true
  | _ => false
  end.

(** The operations a list of emitted snapshots accounts for: the sum of
    their read and write window counts. *)
Fixpoint windowTotal (out : list Emitted) : Z :=
  match out with
  | [] => 0
  | e :: rest => windowReads e + windowWrites e + windowTotal rest
  end.

(** The number of RecordRead and RecordWrite calls among [calls]. *)
Definition recorded (calls : list Call) : Z :=
  Z.of_nat (length (List.filter isRecord calls)).

Definition noReset (calls : list Call) : bool :=
  forallb (fun call => negb (isReset call)) calls.

(** The failed operations a list of emitted snapshots accounts for: the
    sum of their read and write error counts. *)
Fixpoint errorTotal (out : list Emitted) : Z :=
  match out with
  | [] => 0
  | e :: rest =>
      OperationStats.Errors (Reads (snapshot e)) +
      OperationStats.Errors (Writes (snapshot e)) + errorTotal rest
  end.

(** The number of record calls among [calls] that carry an error. *)
Definition failed (calls : list Call) : Z :=
  Z.of_nat (length (List.filter isFailure calls)).

(** The messages [addError] is called with along [calls], in the order of
    the calls: the error of every failed read and write, with the prefix
    of its operation. *)
Fixpoint failureMessages (calls : list Call) : list string :=
  match calls with
  | [] => []
  | CallRecordRead _ _ (Some e) :: rest => ("read: " ++ e) :: failureMessages rest
  | CallRecordWrite _ _ (Some e) :: rest => ("write: " ++ e) :: failureMessages rest
  | _ :: rest => failureMessages rest
  end.

(** A snapshot without what it takes from the histograms. *)
Definition withoutLatencies (s : MetricsSnapshot) : MetricsSnapshot :=
  {| Timestamp := Timestamp s;
     Reads := OperationStats.mk (OperationStats.QPS (Reads s)) float64_zero float64_zero
                float64_zero (OperationStats.Errors (Reads s));
     Writes := OperationStats.mk (OperationStats.QPS (Writes s)) float64_zero float64_zero
                 float64_zero (OperationStats.Errors (Writes s));
     Totals := Totals s; Pool := Pool s; RecentErrors := RecentErrors s |}.

Definition emittedCounters (e : Emitted) : Z * Z * MetricsSnapshot :=
  (windowReads e, windowWrites e, withoutLatencies (snapshot e)).

(** Two collectors that agree on everything but the histograms and the
    start time. *)
Definition sameCounters (c1 c2 : Collector) : Prop :=
  readCount c1 = readCount c2 /\ writeCount c1 = writeCount c2 /\
  readErrors c1 = readErrors c2 /\ writeErrors c1 = writeErrors c2 /\
  totalQueries c1 = totalQueries c2 /\ totalErrors c1 = totalErrors c2 /\
  recentErrors c1 = recentErrors c2 /\ lastErrorTime c1 = lastErrorTime c2 /\
  maxRecentErrors c1 = maxRecentErrors c2 /\ poolStatsFunc c1 = poolStatsFunc c2.

(** The counters of a collector are consistent: window errors within
    window counts, windows within the total, errors within queries. *)
Definition consistent (c : Collector) : Prop :=
  0 <= readErrors c <= readCount c /\
  0 <= writeErrors c <= writeCount c /\
  readCount c + writeCount c <= totalQueries c /\
  readErrors c + writeErrors c <= totalErrors c /\
  totalErrors c <= totalQueries c.

Definition consistentEmitted (e : Emitted) : Prop :=
  0 <= OperationStats.Errors (Reads (snapshot e)) <= windowReads e /\
  0 <= OperationStats.Errors (Writes (snapshot e)) <= windowWrites e /\
  windowReads e + windowWrites e <= TotalStats.Queries (Totals (snapshot e)) /\
  0 <= TotalStats.Errors (Totals (snapshot e)) <= TotalStats.Queries (Totals (snapshot e)).

End collector.

Definition prefixed (entry : ErrorEntry.t) : Prop :=
  strings.HasPrefix (ErrorEntry.Message entry) "read: " = true \/
  strings.HasPrefix (ErrorEntry.Message entry) "write: " = true.

End metrics.

(** ** Package rate *)

Module rate.

(** A token-bucket limiter, as far as the controller sets it. *)
Record Limiter : Type := mkLimiter { limit : float64; burst : Z }.

Definition NewLimiter (r : float64) (b : Z) : Limiter := mkLimiter r b.
Definition SetLimit (newLimit : float64) (l : Limiter) : Limiter := mkLimiter newLimit (burst l).
Definition SetBurst (newBurst : Z) (l : Limiter) : Limiter := mkLimiter (limit l) newBurst.

End rate.

(** ** Package load: the controller *)

Module load.

(** Config holds the load generator configuration. *)
Record Config : Type := mkConfig {
  Connections : Z;
  ReadQPS : Z;
  WriteQPS : Z;
  ChurnRate : Z;
  Scenario : string;
  CustomTable : string
}.

Inductive WorkerKind : Type := ReadWorker | WriteWorker.

(** A worker goroutine, by what [Start] hands to it by value.  The
    limiter and the collector it also receives are the controller's own
    objects, shared by pointer. *)
Record Worker : Type := mkWorker {
  kind : WorkerKind;
  worker_scenario : schema.Scenario;
  churnRate : float64
}.

(** The fleet transitions, in the order they happen. *)
Inductive Event : Type :=
| Started (readers writers : nat)
| Stopped.

(** Controller manages the load generation workers.  [workers] are the
    goroutines the wait group counts; [store] holds the dynamic scenarios
    the registry has created; [events] records the fleet transitions. *)
Record Controller : Type := mkController {
  running : bool;
  config : Config;
  readLimiter : rate.Limiter;
  writeLimiter : rate.Limiter;
  registry : schema.Registry;
  scenario : schema.Scenario;
  store : schema.Store;
  workers : list Worker;
  events : list Event
}.

Definition zeroConfig : Config := mkConfig 0 0 0 0 EmptyString EmptyString.

(** [s, _ := registry.Get(name)]: a failed lookup leaves the nil
    interface in [s]. *)
Definition getOrNil (name : string) (r : schema.Registry) : schema.Scenario :=
  match schema.Get name r with
  | Some s => s
  | None => schema.NilScenario
  end.

(** NewController creates a new load controller. *)
Definition NewController : Controller :=
  let registry := schema.NewRegistry in
  let defaultScenario := getOrNil "simple" registry in
  {| running := false; config := zeroConfig;
     readLimiter := rate.NewLimiter (float64_of_int 100) 100;
     writeLimiter := rate.NewLimiter (float64_of_int 10) 10;
     registry := registry; scenario := defaultScenario;
     store := []; workers := []; events := [] |}.

(** SetScenario sets the current scenario by name. *)
Definition SetScenario (name customTable : string) (c : Controller) : Controller :=
  let '(newScenario, store') :=
    if (name =? "custom")%string then
      schema.CreateCustomScenario customTable (store c)
    else
      match schema.Get name (registry c) with
      | Some s => (s, store c)
      | None => (getOrNil "simple" (registry c), store c)
      end in
  {| running := running c;
     config := mkConfig (Connections (config c)) (ReadQPS (config c)) (WriteQPS (config c))
                        (ChurnRate (config c)) name customTable;
     readLimiter := readLimiter c; writeLimiter := writeLimiter c;
     registry := registry c; scenario := newScenario;
     store := store'; workers := workers c; events := events c |}.

(** The per-connection churn rate [Start] computes. *)
Definition perConnectionChurn (cfg : Config) : float64 :=
  if (0 <? Connections cfg) && (0 <? ChurnRate cfg)
  then float64_div (float64_of_int (ChurnRate cfg)) (float64_of_int (Connections cfg))
  else float64_zero.

Definition numReaders (cfg : Config) : Z :=
  let n := Z.quot (wrap64 (Connections cfg * 80)) 100 in
  if (n <? 1) && (0 <? Connections cfg) then 1 else n.

Definition numWriters (cfg : Config) : Z :=
  let n := wrap64 (Connections cfg - numReaders cfg) in
  if n <? 0 then 0 else n.

(** Start begins load generation with the current configuration. *)
Definition Start (c : Controller) : Controller :=
  if running c then c else
  let churnRate := perConnectionChurn (config c) in
  let readers := Z.to_nat (numReaders (config c)) in
  let writers := Z.to_nat (numWriters (config c)) in
  let scenario := scenario c in
  {| running := true; config := config c;
     readLimiter := readLimiter c; writeLimiter := writeLimiter c;
     registry := registry c; scenario := scenario; store := store c;
     workers := (workers c ++ replicate readers (mkWorker ReadWorker scenario churnRate)
                           ++ replicate writers (mkWorker WriteWorker scenario churnRate))%list;
     events := (events c ++ [Started readers writers])%list |}.

(** Stop gracefully stops all workers: it cancels them and waits until
    every one has returned. *)
Definition Stop (c : Controller) : Controller :=
  if negb (running c) then c else
  {| running := false; config := config c;
     readLimiter := readLimiter c; writeLimiter := writeLimiter c;
     registry := registry c; scenario := scenario c; store := store c;
     workers := []; events := (events c ++ [Stopped])%list |}.

Definition scenarioChanged (oldConfig cfg : Config) : bool :=
  negb (Scenario oldConfig =? Scenario cfg)%string ||
  negb (CustomTable oldConfig =? CustomTable cfg)%string.

Definition needsRestart (running : bool) (oldConfig cfg : Config) : bool :=
  running && (negb (Connections oldConfig =? Connections cfg) ||
              negb (ChurnRate oldConfig =? ChurnRate cfg) ||
              scenarioChanged oldConfig cfg).

(** The part of UpdateConfig that runs under the lock. *)
Definition updateLocked (cfg : Config) (c : Controller) : Controller :=
  let oldConfig := config c in
  let readLimiter := rate.SetBurst (go_max (ReadQPS cfg) 1)
                       (rate.SetLimit (float64_of_int (ReadQPS cfg)) (readLimiter c)) in
  let writeLimiter := rate.SetBurst (go_max (WriteQPS cfg) 1)
                        (rate.SetLimit (float64_of_int (WriteQPS cfg)) (writeLimiter c)) in
  let '(scenario', store') :=
    if scenarioChanged oldConfig cfg then
      if (Scenario cfg =? "custom")%string then
        schema.CreateCustomScenario (CustomTable cfg) (store c)
      else if negb (Scenario cfg =? EmptyString)%string then
        match schema.Get (Scenario cfg) (registry c) with
        | Some s => (s, store c)
        | None => (scenario c, store c)
        end
      else (scenario c, store c)
    else (scenario c, store c) in
  {| running := running c; config := cfg;
     readLimiter := readLimiter; writeLimiter := writeLimiter;
     registry := registry c; scenario := scenario'; store := store';
     workers := workers c; events := events c |}.

(** UpdateConfig updates the load configuration. *)
Definition UpdateConfig (cfg : Config) (c : Controller) : Controller :=
  let oldConfig := config c in
  let c1 := updateLocked cfg c in
  if needsRestart (running c) oldConfig cfg then Start (Stop c1) else c1.

(** GetConfig returns the current configuration. *)
Definition GetConfig (c : Controller) : Config := config c.

(** IsRunning returns whether the load generator is running. *)
Definition IsRunning (c : Controller) : bool := running c.

(** SetConfig sets the initial configuration without restarting. *)
Definition SetConfig (cfg : Config) (c : Controller) : Controller :=
  {| running := running c; config := cfg;
     readLimiter := rate.SetBurst (go_max (ReadQPS cfg) 1)
                      (rate.SetLimit (float64_of_int (ReadQPS cfg)) (readLimiter c));
     writeLimiter := rate.SetBurst (go_max (WriteQPS cfg) 1)
                       (rate.SetLimit (float64_of_int (WriteQPS cfg)) (writeLimiter c));
     registry := registry c; scenario := scenario c; store := store c;
     workers := workers c; events := events c |}.

(** The workers [Start] spawns for a configuration and a scenario. *)
Definition fleet (cfg : Config) (scenario : schema.Scenario) : list Worker :=
  (replicate (Z.to_nat (numReaders cfg))
     (mkWorker ReadWorker scenario (perConnectionChurn cfg)) ++
   replicate (Z.to_nat (numWriters cfg))
     (mkWorker WriteWorker scenario (perConnectionChurn cfg)))%list.

(** The fleet is the one of the declared configuration and the current
    scenario when the controller runs, and empty when it does not. *)
Definition fleetMatches (c : Controller) : Prop :=
  workers c = if running c then fleet (config c) (scenario c) else [].

(** A call on the controller, as main and the handlers make them. *)
Inductive Op : Type :=
| OpSetScenario (name customTable : string)
| OpSetConfig (cfg : Config)
| OpUpdateConfig (cfg : Config)
| OpStart
| OpStop.

Definition apply (op : Op) (c : Controller) : Controller :=
  match op with
  | OpSetScenario name customTable => SetScenario name customTable c
  | OpSetConfig cfg => SetConfig cfg c
  | OpUpdateConfig cfg => UpdateConfig cfg c
  | OpStart => Start c
  | OpStop => Stop c
  end.

Fixpoint applyAll (ops : list Op) (c : Controller) : Controller :=
  match ops with
  | [] => c
  | op :: rest => applyAll rest (apply op c)
  end.

(** The calls that reconcile the fleet with the configuration: start,
    stop and update-config. *)
Definition reconciles (op : Op) : bool :=
  match op with
  | OpUpdateConfig _ | OpStart | OpStop => true
  | _ => false
  end.

(** Whether the fleet is up after a list of fleet transitions that began
    with the fleet down; [None] when a Started follows a Started or a
    Stopped does not follow a Started. *)
Fixpoint replay (up : bool) (events : list Event) : option bool :=
  match events with
  | [] => Some up
  | Started _ _ :: rest => if up then None else replay true rest
  | Stopped :: rest => if up then replay false rest else None
  end.

(** A scenario value that points to an object: a registry object, or a
    dynamic scenario the store holds. *)
Definition validScenario (store : schema.Store) (s : schema.Scenario) : Prop :=
  match s with
  | schema.NilScenario => False
  | schema.BuiltinScenario _ => True
  | schema.CustomScenarioAt addr => (addr < length store)%nat
  end.

(** What holds of a controller however it is driven. *)
Definition wellFormed (c : Controller) : Prop :=
  registry c = schema.NewRegistry /\
  validScenario (store c) (scenario c) /\
  Forall (fun w => validScenario (store c) (worker_scenario w)) (workers c) /\
  (running c = false -> workers c = []) /\
  replay false (events c) = Some (running c).

End load.

(** ** Package db: the connection manager *)

Module db.

Definition wrap32 (z : Z) : Z := (z + 2 ^ 31) mod 2 ^ 32 - 2 ^ 31.

(** ConnectionManager tracks active connections: an [atomic.Int32] and
    two [atomic.Int64]. *)
Record ConnectionManager : Type := mkConnectionManager {
  connString : string;
  activeConnections : Z;
  totalCreated : Z;
  totalFailed : Z
}.

Definition NewConnectionManager (connString : string) : ConnectionManager :=
  {| connString := connString; activeConnections := 0; totalCreated := 0; totalFailed := 0 |}.

(** Connect creates a new direct connection to the database.  [dial] is
    what [pgx.Connect] returns: an error, or ([None]) a connection.  The
    result is the error returned (nil with the connection), the manager,
    and the lines logged. *)
Definition Connect (dial : option string) (cm : ConnectionManager)
  : option string * ConnectionManager * list string :=
  match dial with
  | Some err =>
      let failed := wrap64 (totalFailed cm + 1) in
      (Some ("failed to connect: " ++ err),
       {| connString := connString cm; activeConnections := activeConnections cm;
          totalCreated := totalCreated cm; totalFailed := failed |},
       if Z.rem failed 100 =? 1
       then ["Connection failed (total failures: " ++ sprint_d failed ++ "): " ++ err]
       else [])
  | None =>
      let active := wrap32 (activeConnections cm + 1) in
      let created := wrap64 (totalCreated cm + 1) in
      (None,
       {| connString := connString cm; activeConnections := active;
          totalCreated := created; totalFailed := totalFailed cm |},
       if Z.rem created 1000 =? 0
       then ["Connections: active=" ++ sprint_d active ++ ", total_created=" ++
             sprint_d created ++ ", total_failed=" ++ sprint_d (totalFailed cm)]
       else [])
  end.

(** Release decrements the connection counter. *)
Definition Release (cm : ConnectionManager) : ConnectionManager :=
  {| connString := connString cm; activeConnections := wrap32 (activeConnections cm - 1);
     totalCreated := totalCreated cm; totalFailed := totalFailed cm |}.

Definition ActiveConnections (cm : ConnectionManager) : Z := activeConnections cm.

(** The calls the workers make on the manager, the manager after them and
    the lines they log. *)
Inductive Call : Type :=
| CallConnect (dial : option string)
| CallRelease.

Definition step (st : ConnectionManager * list string) (c : Call)
  : ConnectionManager * list string :=
  match c with
  | CallConnect dial =>
      let '(_, cm, lines) := Connect dial (fst st) in (cm, (snd st ++ lines)%list)
  | CallRelease => (Release (fst st), snd st)
  end.

Definition run (calls : list Call) (cm : ConnectionManager) : ConnectionManager * list string :=
  fold_left step calls (cm, []).

(** How many of the calls are connects that succeeded, connects that
    failed, and releases. *)
Definition connected (calls : list Call) : Z :=
  Z.of_nat (length (List.filter (fun c => match c with CallConnect None => true | _ => false end)
                                calls)).

Definition failed (calls : list Call) : Z :=
  Z.of_nat (length (List.filter (fun c => match c with CallConnect (Some _) => true | _ => false end)
                                calls)).

Definition released (calls : list Call) : Z :=
  Z.of_nat (length (List.filter (fun c => match c with CallRelease => true | _ => false end)
                                calls)).

Definition isFailureLine (line : string) : bool := strings.HasPrefix line "Connection failed".

End db.

(** ** Package load: the workers *)

Module worker.

(** One query of [runWithConnection]: the clock when it returned, its
    latency, its error, and whether the context was cancelled by then. *)
Record Query : Type := mkQuery {
  finished : time.Time;
  latency : time.Duration;
  err : option string;
  cancelled : bool
}.

(** What the worker finds in one round of the loop of [Run]. *)
Inductive Round : Type :=
| Cancelled                                              (* <-ctx.Done() *)
| DialError (now : time.Time) (err : string) (cancelled : bool)
| Dialed (now : time.Time) (init : option string) (queries : list Query).

(** What the worker does, in order. *)
Inductive Action : Type :=
| Connect (dial : option string)             (* connMgr.Connect(ctx) *)
| Initialize (result : option string)        (* scenario.Initialize(ctx, conn) *)
| Execute                                    (* scenario.ExecuteRead / ExecuteWrite *)
| Record_ (call : metrics.Call)              (* collector.RecordRead / RecordWrite *)
| Close                                      (* conn.Close(context.Background()) *)
| Release                                    (* connMgr.Release() *)
| Sleep (d : time.Duration).

Definition record (kind : load.WorkerKind) (now : time.Time) (latency : time.Duration)
                  (err : option string) : metrics.Call :=
  match kind with
  | load.ReadWorker => metrics.CallRecordRead now latency err
  | load.WriteWorker => metrics.CallRecordWrite now latency err
  end.

(** [executeRead] and [executeWrite]: context cancellation is not
    recorded as an error. *)
Definition execute (kind : load.WorkerKind) (q : Query) : list Action :=
  match err q with
  | Some _ => if cancelled q then [Execute]
              else [Execute; Record_ (record kind (finished q) (latency q) (err q))]
  | None => [Execute; Record_ (record kind (finished q) (latency q) (err q))]
  end.

(** [runWithConnection], by the queries it gets to execute before the
    connection churns or the context is done. *)
Definition runWithConnection (kind : load.WorkerKind) (queries : list Query) : list Action :=
  concat (map (execute kind) queries).

(** The connection lifetime of [runWithConnection] from the random
    lifetime [raw]: the reader caps it with two [if]s, the writer with
    [max] and [min]. *)
Definition lifetime (kind : load.WorkerKind) (raw : time.Duration) : time.Duration :=
  match kind with
  | load.ReadWorker =>
      let lifetime := if raw <? 100 * time.Millisecond then 100 * time.Millisecond else raw in
      if 60 * time.Second <? lifetime then 60 * time.Second else lifetime
  | load.WriteWorker => Z.min (Z.max raw (100 * time.Millisecond)) (60 * time.Second)
  end.

(** [Run], by the rounds of its loop; it returns at a cancelled round,
    and the model stops when the rounds are used up. *)
Fixpoint Run (kind : load.WorkerKind) (scenarioInitialized : bool) (rounds : list Round)
  : list Action :=
  match rounds with
  | [] => []
  | Cancelled :: _ => []
  | DialError now err cancelled :: rest =>
      Connect (Some err) ::
      (if cancelled then []
       else Record_ (record kind now 0 (Some ("failed to connect: " ++ err))) ::
            Sleep (100 * time.Millisecond) ::
            Run kind scenarioInitialized rest)
  | Dialed now init queries :: rest =>
      Connect None ::
      (if negb scenarioInitialized then
         match init with
         | Some err =>
             Initialize (Some err) :: Record_ (record kind now 0 (Some err)) ::
             Close :: Release :: Sleep (100 * time.Millisecond) ::
             Run kind false rest
         | None =>
             Initialize None ::
             (runWithConnection kind queries ++ Close :: Release :: Run kind true rest)%list
         end
       else (runWithConnection kind queries ++ Close :: Release :: Run kind true rest)%list)
  end.

(** The calls on the connection manager among the actions. *)
Definition managerCalls (actions : list Action) : list db.Call :=
  omap (fun a => match a with
                 | Connect dial => Some (db.CallConnect dial)
                 | Release => Some db.CallRelease
                 | _ => None
                 end) actions.

(** The connections the worker holds after the actions: those it got
    less those it released. *)
Definition held (actions : list Action) : Z :=
  db.connected (managerCalls actions) - db.released (managerCalls actions).

(** With [h] connections held before them, the worker holds one
    connection or none at every point of the actions. *)
Definition within (h : Z) (actions : list Action) : Prop :=
  forall done rest, actions = (done ++ rest)%list -> 0 <= h + held done <= 1.

(** What one action adds to the connections held. *)
Definition delta (a : Action) : Z :=
  match a with
  | Connect None => 1
  | Release => -1
  | _ => 0
  end.

Definition isInitialize (a : Action) : bool :=
  match a with Initialize _ => true | _ => false end.

Definition isExecute (a : Action) : bool :=
  match a with Execute => true | _ => false end.

End worker.

(** ** Package api: the configuration handler *)

Module api.

(** ConfigRequest is the request body for POST /api/config. *)
Record ConfigRequest : Type := mkConfigRequest {
  Connections : Z;
  ReadQPS : Z;
  WriteQPS : Z;
  ChurnRate : Z;
  Scenario : string;
  CustomTable : string
}.

(** ConfigResponse is the response for POST /api/config. *)
Record ConfigResponse : Type := mkConfigResponse {
  OK : bool;
  Config : load.Config
}.

(** The configuration HandleConfig builds from a decoded request: the
    current values stand in for the scenario fields not provided. *)
Definition requestedConfig (req : ConfigRequest) (currentConfig : load.Config) : load.Config :=
  let scenario :=
    if (Scenario req =? EmptyString)%string then load.Scenario currentConfig
    else Scenario req in
  let customTable :=
    if (CustomTable req =? EmptyString)%string &&
       (scenario =? load.Scenario currentConfig)%string
    then load.CustomTable currentConfig
    else CustomTable req in
  load.mkConfig (Connections req) (ReadQPS req) (WriteQPS req) (ChurnRate req)
                scenario customTable.

(** HandleConfig updates the workload configuration: the path of a POST
    whose body decodes. *)
Definition HandleConfig (req : ConfigRequest) (c : load.Controller)
  : load.Controller * ConfigResponse :=
  let currentConfig := load.GetConfig c in
  let cfg := requestedConfig req currentConfig in
  let c' := load.UpdateConfig cfg c in
  (c', mkConfigResponse true (load.GetConfig c')).

(** HandleScenarios returns the list of available scenarios, those of
    the registry and the custom scenario option: the path of a GET. *)
Definition HandleScenarios (c : load.Controller) : list schema.ScenarioInfo.t :=
  (schema.List (load.store c) (load.registry c) ++
   [schema.ScenarioInfo.mk "custom" "Custom table (optionally specify table name)"
                           EmptyString])%list.

End api.

(** ** Frontend: the history buffer of useMetricsHistory.js *)

Module CircularBuffer.

Section buffer.
Context {A : Type}.

(** A JS array: at every index an element or a hole. *)
Definition Array : Type := list (option A).

(** [arr[i]], undefined ([None]) at a hole and out of range. *)
Definition at_ (arr : Array) (i : Z) : option A :=
  if i <? 0 then None
  else match arr !! Z.to_nat i with
       | Some slot => slot
       | None => None
       end.

(** [arr[i] = x] for [0 <= i]: in range it replaces the slot, out of range
    it extends the array with holes. *)
Definition set (arr : Array) (i : Z) (x : A) : Array :=
  if i <? Z.of_nat (length arr) then <[Z.to_nat i := Some x]> arr
  else (arr ++ replicate (Z.to_nat i - length arr) None ++ [Some x])%list.

Record t : Type := mk {
  maxSize : Z;
  buffer : Array;
  head : Z;
  size : Z
}.

(** [new CircularBuffer(maxSize)]; [new Array(maxSize)] throws a
    RangeError ([None]) unless [0 <= maxSize < 2^32]. *)
Definition constructor (maxSize : Z) : option t :=
  if (0 <=? maxSize) && (maxSize <? 2 ^ 32)
  then Some {| maxSize := maxSize; buffer := replicate (Z.to_nat maxSize) None;
               head := 0; size := 0 |}
  else None.

(** [%] is the remainder of the truncated division; with [maxSize = 0]
    it is NaN in JS, which this model does not follow. *)
Definition push (b : t) (item : A) : t :=
  {| maxSize := maxSize b;
     buffer := set (buffer b) (head b) item;
     head := Z.rem (head b + 1) (maxSize b);
     size := if size b <? maxSize b then size b + 1 else size b |}.

(** Get last N items (most recent); [new Array(count)] throws a
    RangeError ([None]) for a negative count. *)
Definition getLastN (n : Z) (b : t) : option Array :=
  let count := Z.min n (size b) in
  if count <? 0 then None
  else Some (map (fun i : nat =>
                    let idx := Z.rem (head b - count + Z.of_nat i + maxSize b) (maxSize b) in
                    at_ (buffer b) idx)
                 (seq 0 (Z.to_nat count))).

Definition clear (b : t) : t :=
  {| maxSize := maxSize b; buffer := buffer b; head := 0; size := 0 |}.

Definition getSize (b : t) : Z := size b.

(** The buffer after pushing the items of [xs] in order. *)
Definition pushAll (xs : list A) (b : t) : t := fold_left push xs b.

(** The last [k] items of [xs], all of them when there are fewer. *)
Definition latest (k : Z) (xs : list A) : list A :=
  drop (length xs - Z.to_nat k) xs.

(** What the ring holds after the items of [xs] were pushed on an empty
    ring of [m] slots. *)
Definition holds (m : Z) (xs : list A) (b : t) : Prop :=
  maxSize b = m /\
  Z.of_nat (length (buffer b)) = m /\
  head b = Z.of_nat (length xs) mod m /\
  size b = Z.min (Z.of_nat (length xs)) m /\
  forall k, Z.of_nat (length xs) - size b <= k < Z.of_nat (length xs) ->
            at_ (buffer b) (k mod m) = xs !! Z.to_nat k.

End buffer.

Arguments t : clear implicits.
Arguments Array : clear implicits.

End CircularBuffer.

(** ** The specification's own formulations

    These definitions follow the words of the specification, not the
    code; the properties below compare them with the code. *)

Module Spec.

(** "a float type (real/float4, double precision/float8) or a
    numeric/decimal type", on the lowered type name. *)
Definition isFloatOrNumericType (colType : string) : bool :=
  let t := strings.ToLower colType in
  (t =? "real")%string || (t =? "float4")%string ||
  (t =? "double precision")%string || (t =? "float8")%string ||
  strings.HasPrefix t "numeric" || strings.HasPrefix t "decimal".

(** "whose name matches no name pattern": none of the substring tests on
    the lowered column name succeeds. *)
Definition matchesNoNamePattern (colName : string) : bool :=
  match schema.nameHint (strings.ToLower colName) with
  | Some _ => false
  | None => true
  end.

(** Positional placeholders $1..$k. *)
Definition placeholders (k : nat) : list string :=
  map (fun i : nat => "$" ++ sprint_d (Z.of_nat i)) (seq 1 k).

(** "columns = all non-serial columns in order; placeholders by position;
    RETURNING <pk>::text". *)
Definition insertStatement (schemaName tableName : string)
  (columns : list schema.ColumnInfo) (pk : string) : string :=
  let nonSerial := List.filter (fun col => negb (schema.IsSerial col)) columns in
  "INSERT INTO " ++ schemaName ++ "." ++ tableName ++
  " (" ++ strings.Join (map schema.Name nonSerial) ", " ++
  ") VALUES (" ++ strings.Join (placeholders (length nonSerial)) ", " ++
  ") RETURNING " ++ pk ++ "::text".

(** "all columns by name, filter by pk placeholder". *)
Definition selectStatement (schemaName tableName : string)
  (columns : list schema.ColumnInfo) (pk : string) : string :=
  "SELECT " ++ strings.Join (map schema.Name columns) ", " ++
  " FROM " ++ schemaName ++ "." ++ tableName ++
  " WHERE " ++ pk ++ " = $1".

(** "readers = floor(connections × 0.8) with a floor of 1 when
    connections > 0; writers = connections − readers". *)
Definition readers (connections : Z) : Z :=
  let r := connections * 8 / 10 in
  if 0 <? connections then Z.max r 1 else r.

Definition writers (connections : Z) : Z := connections - readers connections.

(** "per-connection churn rate = declared_churn / connections (or 0 if
    either is 0)". *)
Definition perConnectionChurn (churn connections : Z) : float64 :=
  if (0 <? connections) && (0 <? churn)
  then float64_div (float64_of_int churn) (float64_of_int connections)
  else float64_zero.

(** "needs_restart = running ∧ (connections changed ∨ churn changed ∨
    scenario identity changed)", the identity being the name or the
    custom table. *)
Definition needsRestart (running : bool) (old new : load.Config) : Prop :=
  running = true /\
  (load.Connections old <> load.Connections new \/
   load.ChurnRate old <> load.ChurnRate new \/
   load.Scenario old <> load.Scenario new \/
   load.CustomTable old <> load.CustomTable new).

Definition identityChanged (old new : load.Config) : Prop :=
  load.Scenario old <> load.Scenario new \/
  load.CustomTable old <> load.CustomTable new.

End Spec.

(** ** Histograms, clocks, databases and controllers used as examples *)

Module Examples.
Import schema.

(** A histogram that keeps the recorded latencies and reports zeros. *)
Definition listHistogram : metrics.HistogramImpl := {|
  metrics.Histogram := list time.Duration;
  metrics.NewHistogram := [];
  metrics.Histogram_Record := fun h d => (h ++ [d])%list;
  metrics.SnapshotAndReset := fun _ =>
    (metrics.mkHistogramSnapshot float64_zero float64_zero float64_zero, [])
|}.

(** 2026-01-01 00:00:00 UTC, and a few clock readings after it. *)
Definition t0 : time.Time := 1767225600 * time.Second.

(** Three reads (one failing) and a write, a snapshot, a failing write,
    a second snapshot, and a read that no snapshot has seen yet. *)
Definition calls : list metrics.Call :=
  [metrics.CallRecordRead (t0 + 1) 250000 None;
   metrics.CallRecordRead (t0 + 2) 250000 (Some "timeout");
   metrics.CallRecordRead (t0 + 3) 250000 None;
   metrics.CallRecordWrite (t0 + 4) 900000 None;
   metrics.CallSnapshot (t0 + 100 * time.Millisecond) (100 * time.Millisecond);
   metrics.CallRecordWrite (t0 + 150 * time.Millisecond) 900000 (Some "deadlock detected");
   metrics.CallSnapshot (t0 + 200 * time.Millisecond) (100 * time.Millisecond);
   metrics.CallRecordRead (t0 + 250 * time.Millisecond) 250000 None].

(** Two failing reads exactly ten seconds apart. *)
Definition afterFirstError : @metrics.Collector listHistogram :=
  metrics.RecordRead t0 0 (Some "connection refused") (metrics.NewCollector t0 None).

Definition afterSecondError : @metrics.Collector listHistogram :=
  metrics.RecordRead (t0 + 10 * time.Second) 0 (Some "connection refused") afterFirstError.

(** [test.widgets(id serial pk, label text)] holding five rows. *)
Definition widgets : Conn := {|
  scanPair := fun q =>
    if (sql q =? primaryKeySQL)%string then inr ("id", "integer") else inl "no rows in result set";
  queryColumns := fun _ =>
    inr [inr (mkColumnInfo "id" "integer" false true true);
         inr (mkColumnInfo "label" "text" true false false)];
  scanMax := fun _ => inr (Some 5);
  queryIDs := fun _ => inr [];
  scanRow := fun _ => None;
  scanID := fun _ => inr "6"
|}.

(** [test.counters(id serial pk)]: every column is serial. *)
Definition counters : Conn := {|
  scanPair := fun q =>
    if (sql q =? primaryKeySQL)%string then inr ("id", "integer") else inl "no rows in result set";
  queryColumns := fun _ => inr [inr (mkColumnInfo "id" "integer" false true true)];
  scanMax := fun _ => inr None;
  queryIDs := fun _ => inr [];
  scanRow := fun _ => Some "no rows in result set";
  scanID := fun _ => inl "syntax error"
|}.

(** [test.items(id uuid pk default gen_random_uuid(), label text)] with no
    rows: reads find nothing, an insert returns the new key. *)
Definition items : Conn := {|
  scanPair := fun q =>
    if (sql q =? primaryKeySQL)%string then inr ("id", "uuid") else inl "no rows in result set";
  queryColumns := fun _ =>
    inr [inr (mkColumnInfo "id" "uuid" false true false);
         inr (mkColumnInfo "label" "text" true false false)];
  scanMax := fun _ => inr None;
  queryIDs := fun _ => inr [];
  scanRow := fun _ => Some "no rows in result set";
  scanID := fun _ => inr "7f9c24e8-3b12-4fef-91e0-5a3c2d1b0a77"
|}.

(** [test.gadgets(id uuid pk default gen_random_uuid(), label text)]:
    the id query answers three rows, the second of which fails to scan,
    so that the first key only is cached; an insert returns the new
    key. *)
Definition gadgets : Conn := {|
  scanPair := fun q =>
    if (sql q =? primaryKeySQL)%string then inr ("id", "uuid") else inl "no rows in result set";
  queryColumns := fun _ =>
    inr [inr (mkColumnInfo "id" "uuid" false true false);
         inr (mkColumnInfo "label" "text" true false false)];
  scanMax := fun _ => inr None;
  queryIDs := fun _ =>
    inr [inr "0b6f1d2e-58a4-4c0b-9d3e-6f0a1b2c3d4e";
         inl "cannot scan NULL into *string";
         inr "5e1c7a90-2d4f-4b8a-8c6d-7e9f0a1b2c3d"];
  scanRow := fun _ => None;
  scanID := fun _ => inr "9a8b7c6d-5e4f-4a3b-8c2d-1e0f9a8b7c6d"
|}.

(** A database without the table asked for: the catalog has no rows
    about it. *)
Definition missing : Conn := {|
  scanPair := fun _ => inl "no rows in result set";
  queryColumns := fun _ => inr [];
  scanMax := fun _ => inr None;
  queryIDs := fun _ => inr [];
  scanRow := fun _ => Some "no rows in result set";
  scanID := fun _ => inl "relation does not exist"
|}.

(** The runs of [Initialize] on a new scenario for these tables. *)
Definition widgetsRun : (error + unit) * CustomScenario * list Stmt :=
  Initialize widgets (NewCustomScenario "test.widgets").

Definition countersRun : (error + unit) * CustomScenario * list Stmt :=
  Initialize counters (NewCustomScenario "test.counters").

Definition itemsRun : (error + unit) * CustomScenario * list Stmt :=
  Initialize items (NewCustomScenario "test.items").

(** A controller running the jsonb scenario with ten connections, and
    configurations to update it with. *)
Definition jsonbConfig : load.Config := load.mkConfig 10 100 10 0 "jsonb" EmptyString.

Definition jsonbController : load.Controller :=
  load.Start (load.SetConfig jsonbConfig
                (load.SetScenario "jsonb" EmptyString load.NewController)).

Definition fasterConfig : load.Config := load.mkConfig 10 500 50 0 "jsonb" EmptyString.
Definition widerConfig : load.Config := load.mkConfig 100 500 50 0 "jsonb" EmptyString.
Definition unknownConfig : load.Config := load.mkConfig 10 100 10 0 "nosuch" EmptyString.
Definition customConfig : load.Config := load.mkConfig 10 100 10 0 "custom" "test.widgets".

Definition widgetsInitialized : CustomScenario := snd (fst widgetsRun).
Definition countersInitialized : CustomScenario := snd (fst countersRun).
Definition itemsInitialized : CustomScenario := snd (fst itemsRun).

(** The rounds of a worker: a refused connect, a connection on which the
    initialization fails, a connection that serves two queries, and the
    cancellation. *)
Definition rounds : list worker.Round :=
  [worker.DialError t0 "connection refused" false;
   worker.Dialed (t0 + 1 * time.Second) (Some "table public.missing not found or has no columns") [];
   worker.Dialed (t0 + 2 * time.Second) None
     [worker.mkQuery (t0 + 3 * time.Second) 250000 None false;
      worker.mkQuery (t0 + 4 * time.Second) 900000 (Some "deadlock detected") false];
   worker.Cancelled].

Definition gadgetsInitialized : CustomScenario :=
  snd (fst (Initialize gadgets (NewCustomScenario "test.gadgets"))).

End Examples.

(** * Properties *)

(** ** Strings *)




(** ** The dynamic scenario: creation *)

Example NewCustomScenario_widgets :
  schema.schemaName (schema.NewCustomScenario "test.widgets") = "test" /\
  schema.tableName (schema.NewCustomScenario "test.widgets") = "widgets".
Proof. split; reflexivity. Qed.

Example NewCustomScenario_two_dots :
  schema.schemaName (schema.NewCustomScenario "a.b.c") = "a" /\
  schema.tableName (schema.NewCustomScenario "a.b.c") = "b.c".
Proof. split; reflexivity. Qed.

Example NewCustomScenario_users :
  schema.schemaName (schema.NewCustomScenario "users") = "public" /\
  schema.tableName (schema.NewCustomScenario "users") = "users".
Proof. split; reflexivity. Qed.



(** ** The dynamic scenario: the steps of Initialize *)

Section initialize.
Import schema.

Lemma bind_ok {A B : Type} (m : M A) (f : A -> M B) s b s' log :
  bind m f s = (inr b, s', log) ->
  exists a s1 l1 l2,
    m s = (inr a, s1, l1) /\ f a s1 = (inr b, s', l2) /\ log = (l1 ++ l2)%list.
Proof.
  unfold bind. destruct (m s) as [[[e|a] s1] l1]; [discriminate|].
  destruct (f a s1) as [[r s2] l2] eqn:Hf. intros [= -> -> <-].
  exists a, s1, l1, l2. auto.
Qed.

Lemma set_maxID_same s : set_maxID (maxID s) s = s.
Proof. now destruct s. Qed.

Lemma set_ids_same s : set_ids (ids s) s = s.
Proof. now destruct s. Qed.

Lemma scanColumns_ok rows : forall u s s' log,
  scanColumns rows s = (inr u, s', log) ->
  exists cols,
    rows = map inr cols /\
    s' = set_columns (columns s ++ cols)%list
                     (insertColumns s ++ List.filter insertable cols)%list s.
Proof.
  induction rows as [|[e|col] rows IH]; intros u s s' log H.
  - cbn in H. injection H as _ <- <-. exists []. split; [reflexivity|].
    cbn. rewrite !app_nil_r. now destruct s.
  - discriminate.
  - cbn [scanColumns] in H. apply bind_ok in H as (u0 & s1 & l1 & l2 & Hm & Hk & ->).
    unfold modify in Hm. injection Hm as _ <- <-.
    apply IH in Hk as (cols & -> & ->). exists (col :: cols). split; [reflexivity|].
    unfold set_columns, insertable. cbn.
    destruct (IsSerial col); cbn; rewrite <- ?app_assoc; reflexivity.
Qed.

Lemma discoverTable_ok conn s s' log :
  discoverTable conn s = (inr tt, s', log) ->
  (negb (tableName s =? EmptyString)%string = true /\ s' = s) \/
  (exists sch tbl, (tableName s =? EmptyString)%string = true /\ s' = set_table sch tbl s).
Proof.
  unfold discoverTable, bind, get, send, modify, ret, fail.
  destruct (tableName s =? EmptyString)%string eqn:E.
  - destruct (scanPair conn _) as [e|[sch tbl]]; [discriminate|].
    intros [= <- <-]. right. eauto.
  - intros [= <- <-]. left. auto.
Qed.

Lemma loadColumns_ok conn s s' log :
  loadColumns conn s = (inr tt, s', log) ->
  exists cols,
    queryColumns conn (mkStmt columnsSQL [VString (schemaName s); VString (tableName s)])
      = inr (map inr cols) /\
    cols <> [] /\
    s' = set_columns cols (List.filter insertable cols) s.
Proof.
  unfold loadColumns. intros H.
  apply bind_ok in H as (s0 & s1 & l1 & l2 & Hg & H & ->). injection Hg as <- <- <-.
  apply bind_ok in H as (rows & s1 & l1 & l3 & Hq & H & ->).
  unfold send in Hq. injection Hq as <- <- <-.
  destruct (queryColumns conn _) as [e|rows] eqn:Hrows; [discriminate|].
  apply bind_ok in H as (u & s1 & l1 & l4 & Hm & H & ->). injection Hm as _ <- <-.
  apply bind_ok in H as (u' & s2 & l1 & l5 & Hs & H & ->).
  apply scanColumns_ok in Hs as (cols & -> & ->).
  apply bind_ok in H as (s3 & s4 & l6 & l7 & Hg & H & ->). injection Hg as <- <- <-.
  exists cols. cbn in H |- *.
  destruct cols as [|col cols]; [discriminate|].
  cbn in H. injection H as <- <-.
  split; [reflexivity|]. split; [congruence|]. now destruct s.
Qed.

Lemma resolvePrimaryKey_ok conn s s' log :
  resolvePrimaryKey conn s = (inr tt, s', log) ->
  exists pk pkType, s' = set_primaryKey pk pkType s.
Proof.
  unfold resolvePrimaryKey, bind, get, send, modify.
  destruct (scanPair conn _) as [e|[pk ty]]; intros [= <- <-]; eauto.
Qed.

Lemma seedIDs_ok conn s s' log :
  seedIDs conn s = (inr tt, s', log) ->
  (isIntegerPK (primaryKeyType s) = true /\ exists m, 1 <= m /\ s' = set_maxID m s) \/
  (isIntegerPK (primaryKeyType s) = false /\
   s' = set_ids
          match queryIDs conn
                  (mkStmt ("SELECT " ++ primaryKey s ++ "::text FROM " ++
                           schemaName s ++ "." ++ tableName s ++ " LIMIT 10000") []) with
          | inr idRows => scanIDs idRows (ids s)
          | inl _ => ids s
          end s).
Proof.
  unfold seedIDs, bind, get, send, modify, ret.
  destruct (isIntegerPK (primaryKeyType s)) eqn:E.
  - intros H. left. split; [reflexivity|].
    destruct (scanMax conn _) as [e|[v|]]; cbn in H.
    + destruct (maxID s <? 1) eqn:L; injection H as <- <-.
      * exists 1. split; [lia|reflexivity].
      * exists (maxID s). split; [lia|]. now rewrite set_maxID_same.
    + destruct (v <? 1) eqn:L; injection H as <- <-.
      * exists 1. split; [lia|]. now destruct s.
      * exists v. split; [lia|reflexivity].
    + destruct (maxID s <? 1) eqn:L; injection H as <- <-.
      * exists 1. split; [lia|reflexivity].
      * exists (maxID s). split; [lia|]. now rewrite set_maxID_same.
  - intros H. right. split; [reflexivity|].
    destruct (queryIDs conn _) as [e|rows]; injection H as <- <-.
    + now rewrite set_ids_same.
    + reflexivity.
Qed.

(** The state a successful [Initialize] leaves, step by step. *)
Lemma Initialize_ok conn s s' log :
  initialized s = false ->
  Initialize conn s = (inr tt, s', log) ->
  exists s1 cols pk pkType s4,
    ((negb (tableName s =? EmptyString)%string = true /\ s1 = s) \/
     (exists sch tbl, (tableName s =? EmptyString)%string = true /\ s1 = set_table sch tbl s)) /\
    queryColumns conn (mkStmt columnsSQL [VString (schemaName s1); VString (tableName s1)])
      = inr (map inr cols) /\
    cols <> [] /\
    ((isIntegerPK pkType = true /\
      exists m, 1 <= m /\
        s4 = set_maxID m (set_primaryKey pk pkType
                            (set_columns cols (List.filter insertable cols) s1))) \/
     (isIntegerPK pkType = false /\
      s4 = set_ids
             match queryIDs conn
                     (mkStmt ("SELECT " ++ pk ++ "::text FROM " ++
                              schemaName s1 ++ "." ++ tableName s1 ++ " LIMIT 10000") []) with
             | inr idRows => scanIDs idRows (ids s1)
             | inl _ => ids s1
             end
             (set_primaryKey pk pkType
                (set_columns cols (List.filter insertable cols) s1)))) /\
    s' = set_initialized true
           (set_selectQuery (buildSelectQuery s4)
              (if 0 <? Z.of_nat (length (insertColumns s4))
               then set_insertQuery (buildInsertQuery s4) s4 else s4)).
Proof.
  intros Hinit H. unfold Initialize in H.
  apply bind_ok in H as (s0 & sa & l1 & l2 & Hg & H & ->). injection Hg as <- <- <-.
  rewrite Hinit in H.
  apply bind_ok in H as ([] & s1 & l1 & l3 & Hd & H & ->).
  apply bind_ok in H as ([] & s2 & l4 & l5 & Hl & H & ->).
  apply bind_ok in H as ([] & s3 & l6 & l7 & Hp & H & ->).
  apply bind_ok in H as ([] & s4 & l8 & l9 & Hs & H & ->).
  apply bind_ok in H as ([] & s5 & l10 & l11 & Hb & H & ->).
  apply discoverTable_ok in Hd.
  apply loadColumns_ok in Hl as (cols & Hq & Hne & ->).
  apply resolvePrimaryKey_ok in Hp as (pk & pkType & ->).
  apply seedIDs_ok in Hs.
  exists s1, cols, pk, pkType, s4.
  split; [exact Hd|]. split; [exact Hq|]. split; [exact Hne|].
  split; [exact Hs|].
  unfold buildQueries, bind, modify in Hb. injection Hb as <- <-.
  unfold modify in H. injection H as <- <-.
  destruct (0 <? Z.of_nat (length (insertColumns s4))); reflexivity.
Qed.

End initialize.

(** ** The dynamic scenario: the statements Initialize builds *)

Section statements.
Import schema.

Lemma imap_Name (l : list ColumnInfo) :
  imap (fun (_ : nat) col => Name col) l = map Name l.
Proof.
  induction l as [|c l IH]; [reflexivity|].
  rewrite imap_cons. cbn. f_equal. exact IH.
Qed.

Lemma imap_placeholders (l : list ColumnInfo) : forall k : nat,
  imap (fun (i : nat) (_ : ColumnInfo) => "$" ++ sprint_d (Z.of_nat (k + i) + 1)) l
  = map (fun i : nat => "$" ++ sprint_d (Z.of_nat i)) (seq (S k) (length l)).
Proof.
  induction l as [|c l IH]; intros k; [reflexivity|].
  rewrite imap_cons. cbn [length seq map]. f_equal.
  - rewrite Nat.add_0_r. do 2 f_equal. lia.
  - rewrite <- IH. apply imap_ext. intros i x _. cbn.
    do 3 f_equal. lia.
Qed.

Lemma buildInsertQuery_spec (s : CustomScenario) (cols : list ColumnInfo) :
  insertColumns s = List.filter insertable cols ->
  buildInsertQuery s
  = Spec.insertStatement (schemaName s) (tableName s) cols (primaryKey s).
Proof.
  intros H. unfold buildInsertQuery, Spec.insertStatement, Spec.placeholders.
  rewrite imap_Name, H. fold insertable.
  change (fun col => negb (IsSerial col)) with insertable.
  rewrite <- (imap_placeholders (List.filter insertable cols) 0).
  reflexivity.
Qed.

Lemma buildSelectQuery_spec (s : CustomScenario) :
  buildSelectQuery s
  = Spec.selectStatement (schemaName s) (tableName s) (columns s) (primaryKey s).
Proof.
  unfold buildSelectQuery, Spec.selectStatement. now rewrite imap_Name.
Qed.

End statements.

(** ** The dynamic scenario: what a successful Initialize establishes *)

Section initialized.
Import schema.

Lemma Initialize_summary conn s s' log :
  initialized s = false ->
  Initialize conn s = (inr tt, s', log) ->
  initialized s' = true /\
  queryColumns conn (mkStmt columnsSQL [VString (schemaName s'); VString (tableName s')])
    = inr (map inr (columns s')) /\
  columns s' <> [] /\
  insertColumns s' = List.filter insertable (columns s') /\
  insertQuery s' = (if 0 <? Z.of_nat (length (insertColumns s'))
                    then buildInsertQuery s' else insertQuery s) /\
  selectQuery s' = buildSelectQuery s' /\
  ((tableName s =? EmptyString)%string = false ->
   schemaName s' = schemaName s /\ tableName s' = tableName s) /\
  (1 <= maxID s -> 1 <= maxID s') /\
  (isIntegerPK (primaryKeyType s') = true -> ids s' = ids s) /\
  (isIntegerPK (primaryKeyType s') = false ->
   maxID s' = maxID s /\
   ids s' = match queryIDs conn
                    (mkStmt ("SELECT " ++ primaryKey s' ++ "::text FROM " ++
                             schemaName s' ++ "." ++ tableName s' ++ " LIMIT 10000") []) with
            | inr idRows => scanIDs idRows (ids s)
            | inl _ => ids s
            end).
Proof.
  intros Hinit H.
  destruct (Initialize_ok conn s s' log Hinit H)
    as (s1 & cols & pk & pkType & s4 & Hd & Hq & Hne & Hs & ->).
  assert (Hids1 : ids s1 = ids s /\ maxID s1 = maxID s /\ insertQuery s1 = insertQuery s).
  { destruct Hd as [[_ ->]|(sch & tbl & _ & ->)]; auto. }
  destruct Hids1 as (Hi1 & Hm1 & Hq1).
  assert (Hnames : (tableName s =? EmptyString)%string = false ->
                   schemaName s1 = schemaName s /\ tableName s1 = tableName s).
  { intros E. destruct Hd as [[_ ->]|(sch & tbl & E' & _)]; [auto | congruence]. }
  destruct Hs as [[Hint (m & Hm & ->)] | [Hint ->]];
    cbn [set_maxID set_ids set_primaryKey set_columns insertColumns length];
    destruct (0 <? Z.of_nat (length (List.filter insertable cols))) eqn:Hlen;
    cbn; rewrite ?Hlen, ?Hint;
    (split; [reflexivity|]); (split; [exact Hq|]); (split; [exact Hne|]);
    (split; [reflexivity|]); (split; [first [reflexivity | exact Hq1]|]);
    (split; [reflexivity|]); (split; [exact Hnames|]);
    (split; [try lia|]); (split; [first [intros _; exact Hi1 | discriminate]|]);
    try (intros; discriminate);
    try (intros _; split; [exact Hm1 | now rewrite Hi1]).
Qed.






End initialized.

Section statement_claims.
Import schema.

Lemma length_nonempty {A : Type} (l : list A) :
  (0 <? Z.of_nat (length l)) = true <-> l <> [].
Proof.
  destruct l as [|a l].
  - split; [discriminate | congruence].
  - split; [discriminate | reflexivity].
Qed.

Example widgets_statements :
  fst (fst Examples.widgetsRun) = inr tt /\
  insertQuery (snd (fst Examples.widgetsRun))
    = "INSERT INTO test.widgets (label) VALUES ($1) RETURNING id::text" /\
  selectQuery (snd (fst Examples.widgetsRun))
    = "SELECT id, label FROM test.widgets WHERE id = $1".
Proof. repeat split; vm_compute; reflexivity. Qed.

(** C8, as the specification states it, fails for a table whose columns
    are all serial: [Initialize] succeeds on [test.counters(id serial pk)]
    and leaves the insert statement empty, where the specification's
    statement would be an INSERT with no columns ending in RETURNING
    id::text. *)
Lemma insert_statement_not_built_when_all_serial :
  Examples.countersRun = (inr tt, Examples.countersInitialized, snd Examples.countersRun) /\
  initialized Examples.countersInitialized = true /\
  insertQuery Examples.countersInitialized = EmptyString /\
  Spec.insertStatement (schemaName Examples.countersInitialized)
    (tableName Examples.countersInitialized) (columns Examples.countersInitialized)
    (primaryKey Examples.countersInitialized)
    = "INSERT INTO test.counters () VALUES () RETURNING id::text" /\
  insertQuery Examples.countersInitialized
    <> Spec.insertStatement (schemaName Examples.countersInitialized)
         (tableName Examples.countersInitialized) (columns Examples.countersInitialized)
         (primaryKey Examples.countersInitialized) /\
  ~ (forall conn s s' log,
       initialized s = false ->
       Initialize conn s = (inr tt, s', log) ->
       insertQuery s'
       = Spec.insertStatement (schemaName s') (tableName s') (columns s') (primaryKey s')).
Proof.
  assert (Hrun : Examples.countersRun
                 = (inr tt, Examples.countersInitialized, snd Examples.countersRun))
    by (vm_compute; reflexivity).
  split; [exact Hrun|]. do 3 (split; [vm_compute; reflexivity|]).
  split; [vm_compute; discriminate|].
  intros Hall.
  specialize (Hall Examples.counters (NewCustomScenario "test.counters")
                Examples.countersInitialized (snd Examples.countersRun) eq_refl Hrun).
  vm_compute in Hall. discriminate.
Qed.

(** C8 (amended): a successful [Initialize] keeps as insertable columns
    exactly the non-serial discovered columns, in discovery order; when
    there is at least one, the insert statement lists them with the
    placeholders $1..$k and ends with RETURNING pk::text; when every
    column is serial the insert statement is left as it was (empty for a
    new scenario); the select statement lists all columns by name and
    filters by one placeholder on the primary key. *)
Theorem Initialize_builds_statements conn s s' log :
  initialized s = false ->
  Initialize conn s = (inr tt, s', log) ->
  queryColumns conn (mkStmt columnsSQL [VString (schemaName s'); VString (tableName s')])
    = inr (map inr (columns s')) /\
  insertColumns s' = List.filter (fun col => negb (IsSerial col)) (columns s') /\
  (insertColumns s' <> [] ->
   insertQuery s'
   = Spec.insertStatement (schemaName s') (tableName s') (columns s') (primaryKey s')) /\
  (insertColumns s' = [] -> insertQuery s' = insertQuery s) /\
  selectQuery s'
  = Spec.selectStatement (schemaName s') (tableName s') (columns s') (primaryKey s').
Proof.
  intros Hinit H.
  destruct (Initialize_summary conn s s' log Hinit H)
    as (_ & Hq & _ & Hins & Hiq & Hsq & _).
  split; [exact Hq|]. split; [exact Hins|]. repeat split.
  - intros Hne. apply length_nonempty in Hne. rewrite Hiq, Hne.
    now apply buildInsertQuery_spec.
  - intros He. rewrite Hiq, He. reflexivity.
  - rewrite Hsq. apply buildSelectQuery_spec.
Qed.

Lemma Initialize_builds_statements_witness :
  initialized (NewCustomScenario "test.widgets") = false /\
  Examples.widgetsRun
    = (inr tt, snd (fst Examples.widgetsRun), snd Examples.widgetsRun) /\
  insertColumns (snd (fst Examples.widgetsRun)) <> [] /\
  insertQuery (snd (fst Examples.widgetsRun))
  = Spec.insertStatement "test" "widgets"
      [mkColumnInfo "id" "integer" false true true;
       mkColumnInfo "label" "text" true false false] "id".
Proof.
  split; [reflexivity|]. split; [vm_compute; reflexivity|].
  split; [vm_compute; discriminate|].
  refine (proj1 (proj2 (proj2
    (Initialize_builds_statements Examples.widgets (NewCustomScenario "test.widgets")
       (snd (fst Examples.widgetsRun)) (snd Examples.widgetsRun) _ _))) _).
  - reflexivity.
  - vm_compute; reflexivity.
  - vm_compute; discriminate.
Defined.



End statement_claims.

(** ** The dynamic scenario: reads and writes on an empty cache *)

Section empty_cache.
Import schema.

Lemma buildSelectQuery_nonempty s : (buildSelectQuery s =? EmptyString)%string = false.
Proof. reflexivity. Qed.

(** With no cached id and a non-zero [maxID], a write changes nothing in
    the scenario, whatever the database answers. *)
Lemma ExecuteWrite_keeps_state conn rnd s :
  initialized s = true ->
  ids s = [] ->
  maxID s <> 0 ->
  snd (fst (ExecuteWrite conn rnd s)) = s.
Proof.
  intros Hinit Hids Hmax.
  unfold ExecuteWrite, bind, get, ret, fail, send, modify. rewrite Hinit. cbn.
  destruct ((insertQuery s =? EmptyString)%string || _); [reflexivity|].
  destruct (scanID conn _) as [e|newID]; [reflexivity|].
  destruct (negb (newID =? EmptyString)%string); [|reflexivity].
  cbn. unfold cacheID. rewrite Hids. cbn.
  apply Z.eqb_neq in Hmax. rewrite Hmax. reflexivity.
Qed.

(** C3 on the code: after a successful [Initialize] of a new dynamic
    scenario that chose the sampled cache (primary key not of the integer
    family) and found no key, [maxID] still holds the constructor's
    100000.  So [ExecuteRead] does send a statement, SELECT with a random
    integer id in 1..100000, and returns the driver's answer; and
    [ExecuteWrite] leaves the scenario as it is, the cache stays empty
    whatever id the insert returns. *)
Theorem empty_cache_read_sends_query_and_write_caches_nothing conn name s log rnd :
  Initialize conn (NewCustomScenario name) = (inr tt, s, log) ->
  isIntegerPK (primaryKeyType s) = false ->
  ids s = [] ->
  ExecuteRead conn rnd s
  = (match scanRow conn (mkStmt (selectQuery s) [VInt64 (Intn rnd 100000 + 1)]) with
     | Some e => inl e
     | None => inr tt
     end, s, [mkStmt (selectQuery s) [VInt64 (Intn rnd 100000 + 1)]]) /\
  (forall rnd', snd (fst (ExecuteWrite conn rnd' s)) = s /\
                ids (snd (fst (ExecuteWrite conn rnd' s))) = []).
Proof.
  intros H Hpk Hids.
  assert (Hinit0 : initialized (NewCustomScenario name) = false) by reflexivity.
  destruct (Initialize_summary conn _ s log Hinit0 H)
    as (Hinit & _ & _ & _ & _ & Hsq & _ & _ & _ & Hcache).
  destruct (Hcache Hpk) as [Hmax _]. cbn in Hmax.
  split.
  - assert (Hne : (selectQuery s =? EmptyString)%string = false)
      by (rewrite Hsq; apply buildSelectQuery_nonempty).
    unfold ExecuteRead, bind, get, ret, fail, send. cbn beta iota.
    rewrite Hinit. cbn beta iota. rewrite Hne.
    unfold pickID. rewrite Hids, Hmax.
    change (0 <? Z.of_nat (length (@nil string))) with false.
    change (0 <? 100000) with true. cbn beta iota.
    destruct (scanRow conn (mkStmt (selectQuery s) [VInt64 (Intn rnd 100000 + 1)]));
      reflexivity.
  - intros rnd'.
    assert (E : snd (fst (ExecuteWrite conn rnd' s)) = s).
    { apply ExecuteWrite_keeps_state; [exact Hinit | exact Hids | rewrite Hmax; discriminate]. }
    split; [exact E | rewrite E; exact Hids].
Qed.

Lemma empty_cache_read_sends_query_and_write_caches_nothing_witness :
  Examples.itemsRun = (inr tt, Examples.itemsInitialized, snd Examples.itemsRun) /\
  isIntegerPK (primaryKeyType Examples.itemsInitialized) = false /\
  ids Examples.itemsInitialized = [] /\
  ExecuteRead Examples.items 41 Examples.itemsInitialized
  = (match scanRow Examples.items
             (mkStmt (selectQuery Examples.itemsInitialized) [VInt64 (Intn 41 100000 + 1)]) with
     | Some e => inl e
     | None => inr tt
     end, Examples.itemsInitialized,
     [mkStmt (selectQuery Examples.itemsInitialized) [VInt64 (Intn 41 100000 + 1)]]).
Proof.
  split; [vm_compute; reflexivity|]. split; [vm_compute; reflexivity|].
  split; [vm_compute; reflexivity|].
  apply (proj1 (empty_cache_read_sends_query_and_write_caches_nothing
                  Examples.items "test.items" Examples.itemsInitialized
                  (snd Examples.itemsRun) 41
                  ltac:(vm_compute; reflexivity) ltac:(vm_compute; reflexivity)
                  ltac:(vm_compute; reflexivity))).
Defined.

Example items_read_sends_query :
  ExecuteRead Examples.items 41 Examples.itemsInitialized
  = (inl "no rows in result set", Examples.itemsInitialized,
     [mkStmt "SELECT id, label FROM test.items WHERE id = $1" [VInt64 42]]).
Proof. vm_compute. reflexivity. Qed.

Example items_write_not_cached :
  fst (fst (ExecuteWrite Examples.items 41 Examples.itemsInitialized)) = inr tt /\
  ids (snd (fst (ExecuteWrite Examples.items 41 Examples.itemsInitialized))) = [].
Proof. vm_compute. split; reflexivity. Qed.

End empty_cache.

(** ** The value generator *)

Section generator.
Import schema.

Lemma HasPrefix_cons (s : string) (p : ascii) (prefix : string) :
  strings.HasPrefix s (String p prefix) = true ->
  exists s', s = String p s' /\ strings.HasPrefix s' prefix = true.
Proof.
  destruct s as [|c s']; [discriminate|]. cbn [strings.HasPrefix].
  intros H. apply andb_true_iff in H as [Hc Hp].
  apply Ascii.eqb_eq in Hc. subst c. eauto.
Qed.

Lemma GenerateValue_byType colType colName :
  Spec.matchesNoNamePattern colName = true ->
  GenerateValue colType colName = byType (strings.ToLower colType).
Proof.
  unfold Spec.matchesNoNamePattern, GenerateValue.
  destruct (nameHint (strings.ToLower colName)); [discriminate | reflexivity].
Qed.

Lemma byType_numeric t :
  strings.HasPrefix t "numeric" = true ->
  byType t = Fake (gofakeit.Float64Range 0 100000).
Proof.
  intros H.
  repeat (apply HasPrefix_cons in H as (? & -> & H)).
  reflexivity.
Qed.

Lemma byType_decimal t :
  strings.HasPrefix t "decimal" = true ->
  byType t = Fake (gofakeit.Float64Range 0 100000).
Proof.
  intros H.
  repeat (apply HasPrefix_cons in H as (? & -> & H)).
  reflexivity.
Qed.

Example GenerateValue_numeric_amount :
  GenerateValue "NUMERIC(10,2)" "amount" = Fake (gofakeit.Float64Range 0 100000).
Proof. reflexivity. Qed.

Example GenerateValue_real_ratio :
  GenerateValue "real" "ratio" = Float32Of (gofakeit.Float64Range 0 1000).
Proof. reflexivity. Qed.

Example GenerateValue_double_ratio :
  GenerateValue "double precision" "ratio" = Fake (gofakeit.Float64Range 0 10000).
Proof. reflexivity. Qed.

Example GenerateValue_name_first :
  GenerateValue "numeric" "zip_code" = Fake gofakeit.Zip.
Proof. reflexivity. Qed.

(** C9, as the specification states it, fails: a numeric column whose
    name matches no pattern gets a number drawn from 0..100,000, and a
    real column one drawn from 0..1,000. *)
Lemma numeric_and_real_columns_not_drawn_from_0_10000 :
  Spec.isFloatOrNumericType "numeric" = true /\
  Spec.isFloatOrNumericType "real" = true /\
  Spec.matchesNoNamePattern "amount" = true /\
  floatRange (GenerateValue "numeric" "amount") = Some (0, 100000) /\
  floatRange (GenerateValue "real" "amount") = Some (0, 1000) /\
  floatRange (GenerateValue "numeric" "amount") <> Some (0, 10000) /\
  floatRange (GenerateValue "real" "amount") <> Some (0, 10000) /\
  ~ (forall colType colName,
       Spec.isFloatOrNumericType colType = true ->
       Spec.matchesNoNamePattern colName = true ->
       floatRange (GenerateValue colType colName) = Some (0, 10000)).
Proof.
  do 5 (split; [reflexivity|]). do 2 (split; [discriminate|]).
  intros Hall. specialize (Hall "numeric" "amount" eq_refl eq_refl). discriminate.
Qed.

(** C9 (amended): for a column whose type name and column name are
    ASCII and whose name matches no name pattern, the generator draws a
    float32 from 0..1,000 for real/float4, a float64 from 0..10,000 for
    double precision/float8, and a float64 from 0..100,000 for a type
    that starts with numeric or decimal. *)
Theorem GenerateValue_float_ranges colType colName :
  strings.isASCII colType = true ->
  strings.isASCII colName = true ->
  Spec.matchesNoNamePattern colName = true ->
  (strings.ToLower colType = "real" \/ strings.ToLower colType = "float4" ->
   GenerateValue colType colName = Float32Of (gofakeit.Float64Range 0 1000)) /\
  (strings.ToLower colType = "double precision" \/ strings.ToLower colType = "float8" ->
   GenerateValue colType colName = Fake (gofakeit.Float64Range 0 10000)) /\
  (strings.HasPrefix (strings.ToLower colType) "numeric" = true \/
   strings.HasPrefix (strings.ToLower colType) "decimal" = true ->
   GenerateValue colType colName = Fake (gofakeit.Float64Range 0 100000)) /\
  (Spec.isFloatOrNumericType colType = true ->
   exists lo hi, floatRange (GenerateValue colType colName) = Some (lo, hi) /\
                 lo = 0 /\ (hi = 1000 \/ hi = 10000 \/ hi = 100000)).
Proof.
  intros _ _ Hname. rewrite (GenerateValue_byType colType colName Hname).
  assert (Hreal : strings.ToLower colType = "real" \/ strings.ToLower colType = "float4" ->
                  byType (strings.ToLower colType) = Float32Of (gofakeit.Float64Range 0 1000)).
  { intros [-> | ->]; reflexivity. }
  assert (Hdouble : strings.ToLower colType = "double precision" \/
                    strings.ToLower colType = "float8" ->
                    byType (strings.ToLower colType) = Fake (gofakeit.Float64Range 0 10000)).
  { intros [-> | ->]; reflexivity. }
  assert (Hnum : strings.HasPrefix (strings.ToLower colType) "numeric" = true \/
                 strings.HasPrefix (strings.ToLower colType) "decimal" = true ->
                 byType (strings.ToLower colType) = Fake (gofakeit.Float64Range 0 100000)).
  { intros [H | H]; [now apply byType_numeric | now apply byType_decimal]. }
  repeat split; try assumption.
  unfold Spec.isFloatOrNumericType. intros H.
  repeat (apply orb_true_iff in H as [H | H]).
  - apply String.eqb_eq in H. rewrite Hreal by auto. exists 0, 1000. cbn. auto.
  - apply String.eqb_eq in H. rewrite Hreal by auto. exists 0, 1000. cbn. auto.
  - apply String.eqb_eq in H. rewrite Hdouble by auto. exists 0, 10000. cbn. auto.
  - apply String.eqb_eq in H. rewrite Hdouble by auto. exists 0, 10000. cbn. auto.
  - rewrite Hnum by auto. exists 0, 100000. cbn. auto.
  - rewrite Hnum by auto. exists 0, 100000. cbn. auto.
Qed.

Lemma GenerateValue_float_ranges_witness :
  strings.isASCII "NUMERIC(10,2)" = true /\
  strings.isASCII "amount" = true /\
  Spec.matchesNoNamePattern "amount" = true /\
  strings.HasPrefix (strings.ToLower "NUMERIC(10,2)") "numeric" = true /\
  GenerateValue "NUMERIC(10,2)" "amount" = Fake (gofakeit.Float64Range 0 100000).
Proof.
  split; [reflexivity|]. split; [reflexivity|].
  split; [reflexivity|]. split; [reflexivity|].
  apply (proj1 (proj2 (proj2
    (GenerateValue_float_ranges "NUMERIC(10,2)" "amount" eq_refl eq_refl eq_refl)))).
  left. reflexivity.
Defined.

End generator.

(** ** The metric collector *)

Section collector_facts.
Import metrics.
Context `{HistogramImpl}.

Lemma wrap64_small (z : Z) : - 2 ^ 63 <= z < 2 ^ 63 -> wrap64 z = z.
Proof.
  intros Hz. unfold wrap64. rewrite Z.mod_small; lia.
Qed.

(** [addError] touches the ring and its time stamp only. *)
Lemma addError_counters now msg (c : Collector) :
  readCount (addError now msg c) = readCount c /\
  writeCount (addError now msg c) = writeCount c /\
  readErrors (addError now msg c) = readErrors c /\
  writeErrors (addError now msg c) = writeErrors c /\
  totalQueries (addError now msg c) = totalQueries c /\
  totalErrors (addError now msg c) = totalErrors c /\
  maxRecentErrors (addError now msg c) = maxRecentErrors c.
Proof.
  unfold addError. destruct (time.Since now (lastErrorTime c) <? _); cbn; auto 10.
Qed.

Lemma RecordRead_counters now latency err (c : Collector) :
  readCount (RecordRead now latency err c) = wrap64 (readCount c + 1) /\
  writeCount (RecordRead now latency err c) = writeCount c /\
  totalQueries (RecordRead now latency err c) = wrap64 (totalQueries c + 1).
Proof.
  unfold RecordRead. destruct err as [e|]; cbn; [|auto].
  match goal with |- context [addError ?n ?m ?x] =>
    destruct (addError_counters n m x) as (-> & -> & _ & _ & -> & _) end.
  cbn. auto.
Qed.

Lemma RecordWrite_counters now latency err (c : Collector) :
  readCount (RecordWrite now latency err c) = readCount c /\
  writeCount (RecordWrite now latency err c) = wrap64 (writeCount c + 1) /\
  totalQueries (RecordWrite now latency err c) = wrap64 (totalQueries c + 1).
Proof.
  unfold RecordWrite. destruct err as [e|]; cbn; [|auto].
  match goal with |- context [addError ?n ?m ?x] =>
    destruct (addError_counters n m x) as (-> & -> & _ & _ & -> & _) end.
  cbn. auto.
Qed.

Lemma Snapshot_counters now interval (c : Collector) :
  readCount (snd (Snapshot now interval c)) = 0 /\
  writeCount (snd (Snapshot now interval c)) = 0 /\
  totalQueries (snd (Snapshot now interval c)) = totalQueries c /\
  TotalStats.Queries (Totals (fst (Snapshot now interval c))) = totalQueries c /\
  TotalStats.Errors (Totals (fst (Snapshot now interval c))) = totalErrors c.
Proof.
  unfold Snapshot.
  destruct (SnapshotAndReset (readLatencies c)) as [rh rl].
  destruct (SnapshotAndReset (writeLatencies c)) as [wh wl].
  cbn. auto.
Qed.

Lemma windowTotal_app (out1 out2 : list Emitted) :
  windowTotal (out1 ++ out2) = windowTotal out1 + windowTotal out2.
Proof.
  induction out1 as [|e out1 IH]; cbn; [reflexivity|]. rewrite IH. lia.
Qed.

(** The counters along a run without Reset, as long as they stay below
    2^63: every record call adds one to its window counter and to the
    total; every snapshot moves the window counters into its output. *)
Lemma run_counters (calls : list Call) : forall (c c' : Collector) out,
  noReset calls = true ->
  run calls c = (c', out) ->
  0 <= readCount c -> 0 <= writeCount c ->
  readCount c + writeCount c <= totalQueries c ->
  totalQueries c + Z.of_nat (length calls) < 2 ^ 63 ->
  totalQueries c' = totalQueries c + recorded calls /\
  0 <= readCount c' /\ 0 <= writeCount c' /\
  windowTotal out + readCount c' + writeCount c'
    = readCount c + writeCount c + recorded calls /\
  (forall e, last out = Some e ->
     TotalStats.Queries (Totals (snapshot e))
     = totalQueries c - readCount c - writeCount c + windowTotal out).
Proof.
  induction calls as [|call calls IH]; intros c c' out Hnr Hrun Hr Hw Hle Hbound.
  - cbn in Hrun. injection Hrun as <- <-. unfold recorded. cbn.
    do 4 (split; [lia|]). intros e He. discriminate.
  - cbn [run] in Hrun.
    destruct (step call c) as [c1 out1] eqn:Hstep.
    destruct (run calls c1) as [c2 out2] eqn:Hrest.
    injection Hrun as <- <-.
    cbn [noReset forallb] in Hnr. apply andb_true_iff in Hnr as [Hcall Hnr].
    cbn [length] in Hbound. rewrite Nat2Z.inj_succ in Hbound.
    assert (Hrec : recorded (call :: calls)
                   = (if isRecord call then 1 else 0) + recorded calls).
    { unfold recorded. cbn [List.filter]. destruct (isRecord call); cbn [length]; lia. }
    rewrite Hrec. clear Hrec.
    destruct call as [now latency err|now latency err|now interval|now];
      cbn [step isRecord] in Hstep; [| | |discriminate].
    + injection Hstep as <- <-.
      destruct (RecordRead_counters now latency err c) as (Hrc & Hwc & Htq).
      rewrite wrap64_small in Hrc by lia. rewrite wrap64_small in Htq by lia.
      destruct (IH _ _ _ Hnr Hrest) as (Ht & Hr' & Hw' & Hsum & Hlast); try lia.
      cbn [isRecord app].
      do 4 (split; [lia|]).
      intros e He. cbn in He. rewrite (Hlast e He). lia.
    + injection Hstep as <- <-.
      destruct (RecordWrite_counters now latency err c) as (Hrc & Hwc & Htq).
      rewrite wrap64_small in Hwc by lia. rewrite wrap64_small in Htq by lia.
      destruct (IH _ _ _ Hnr Hrest) as (Ht & Hr' & Hw' & Hsum & Hlast); try lia.
      cbn [isRecord app].
      do 4 (split; [lia|]).
      intros e He. cbn in He. rewrite (Hlast e He). lia.
    + destruct (Snapshot_counters now interval c) as (Hrc & Hwc & Htq & Hq & _).
      destruct (Snapshot now interval c) as [snap c1'] eqn:Hsnap.
      injection Hstep as <- <-. cbn [fst snd] in *.
      destruct (IH _ _ _ Hnr Hrest) as (Ht & Hr' & Hw' & Hsum & Hlast); try lia.
      rewrite windowTotal_app. cbn [windowTotal windowReads windowWrites isRecord].
      do 4 (split; [lia|]).
      intros e He. rewrite last_app in He.
      destruct (last out2) as [e2|] eqn:Hl2.
      * injection He as <-. rewrite (Hlast e2 eq_refl). lia.
      * apply last_None in Hl2. subst out2. cbn in He. injection He as <-.
        cbn. lia.
Qed.

End collector_facts.

Section collector_claims.
Import metrics.

Example calls_run :
  map (fun e => (windowReads e, windowWrites e, TotalStats.Queries (Totals (snapshot e))))
      (snd (run (H := Examples.listHistogram) Examples.calls
              (NewCollector Examples.t0 None)))
  = [(3, 1, 4); (0, 1, 5)].
Proof. vm_compute. reflexivity. Qed.

(** C1: in a run of RecordRead, RecordWrite and Snapshot calls on a new
    collector, with no Reset (and fewer than 2^63 calls, so that no
    counter wraps), the read and write window counts of all emitted
    snapshots add up to the totals.queries of the last snapshot; and at
    the end the emitted window counts plus the two pending window counters
    equal the number of record calls, which is also the monotonic total:
    every recorded operation counts once in a window and once in the
    total. *)
Theorem totals_queries_is_sum_of_windows `{HistogramImpl}
  (calls : list Call) (now0 : time.Time) (poolStats : option (unit -> PoolStats.t))
  (c : Collector) (out : list Emitted) :
  noReset calls = true ->
  Z.of_nat (length calls) < 2 ^ 63 ->
  run calls (NewCollector now0 poolStats) = (c, out) ->
  (forall e, last out = Some e ->
     windowTotal out = TotalStats.Queries (Totals (snapshot e))) /\
  windowTotal out + readCount c + writeCount c = recorded calls /\
  totalQueries c = recorded calls.
Proof.
  intros Hnr Hlen Hrun.
  destruct (run_counters calls (NewCollector now0 poolStats) c out Hnr Hrun)
    as (Ht & _ & _ & Hsum & Hlast); cbn; try lia.
  cbn in Ht, Hsum, Hlast. split; [|split; lia].
  intros e He. rewrite (Hlast e He). lia.
Qed.

Lemma totals_queries_is_sum_of_windows_witness :
  noReset Examples.calls = true /\
  Z.of_nat (length Examples.calls) < 2 ^ 63 /\
  totalQueries (fst (run (H := Examples.listHistogram) Examples.calls
                       (NewCollector Examples.t0 None)))
  = recorded Examples.calls.
Proof.
  split; [reflexivity|]. split; [reflexivity|].
  refine (proj2 (proj2
    (totals_queries_is_sum_of_windows (H := Examples.listHistogram)
       Examples.calls Examples.t0 None
       (fst (run (H := Examples.listHistogram) Examples.calls (NewCollector Examples.t0 None)))
       (snd (run (H := Examples.listHistogram) Examples.calls (NewCollector Examples.t0 None)))
       _ _ _))).
  - reflexivity.
  - reflexivity.
  - vm_compute. reflexivity.
Defined.

Example error_rate_one_in_four :
  float64_div (float64_of_int 1) (float64_of_int 4) = S754_finite false 4503599627370496 (-54).
Proof. reflexivity. Qed.

(** C2: the error rate of a snapshot is the float64 quotient of its
    totals.errors by its totals.queries when totals.queries is positive,
    and 0.0 when totals.queries is zero; the two totals are the
    collector's monotonic counters. *)
Theorem Snapshot_error_rate `{HistogramImpl}
  (now : time.Time) (interval : time.Duration) (c : Collector) :
  TotalStats.Queries (Totals (fst (Snapshot now interval c))) = totalQueries c /\
  TotalStats.Errors (Totals (fst (Snapshot now interval c))) = totalErrors c /\
  (0 < TotalStats.Queries (Totals (fst (Snapshot now interval c))) ->
   TotalStats.ErrorRate (Totals (fst (Snapshot now interval c)))
   = float64_div
       (float64_of_int (TotalStats.Errors (Totals (fst (Snapshot now interval c)))))
       (float64_of_int (TotalStats.Queries (Totals (fst (Snapshot now interval c)))))) /\
  (TotalStats.Queries (Totals (fst (Snapshot now interval c))) = 0 ->
   TotalStats.ErrorRate (Totals (fst (Snapshot now interval c))) = S754_zero false).
Proof.
  unfold Snapshot.
  destruct (SnapshotAndReset (readLatencies c)) as [rh rl].
  destruct (SnapshotAndReset (writeLatencies c)) as [wh wl].
  cbn. split; [reflexivity|]. split; [reflexivity|]. split.
  - intros Hpos. apply Z.ltb_lt in Hpos. now rewrite Hpos.
  - intros ->. reflexivity.
Qed.

Lemma Snapshot_error_rate_witness :
  0 < TotalStats.Queries (Totals (fst (Snapshot (H := Examples.listHistogram)
        (Examples.t0 + 1) time.Second Examples.afterSecondError))) /\
  TotalStats.ErrorRate (Totals (fst (Snapshot (H := Examples.listHistogram)
        (Examples.t0 + 1) time.Second Examples.afterSecondError)))
  = float64_div
      (float64_of_int (TotalStats.Errors (Totals (fst (Snapshot (H := Examples.listHistogram)
        (Examples.t0 + 1) time.Second Examples.afterSecondError)))))
      (float64_of_int (TotalStats.Queries (Totals (fst (Snapshot (H := Examples.listHistogram)
        (Examples.t0 + 1) time.Second Examples.afterSecondError))))).
Proof.
  split; [reflexivity|].
  apply (proj1 (proj2 (proj2
    (Snapshot_error_rate (H := Examples.listHistogram)
       (Examples.t0 + 1) time.Second Examples.afterSecondError)))).
  reflexivity.
Defined.

End collector_claims.

(** ** The recent-errors ring *)

Section ring.
Import metrics.
Context `{HistogramImpl}.

Lemma addError_dropped now msg (c : Collector) :
  time.Since now (lastErrorTime c) < 10 * time.Second ->
  addError now msg c = c.
Proof.
  intros Hlt. unfold addError. apply Z.ltb_lt in Hlt. now rewrite Hlt.
Qed.

Lemma addError_changes now msg (c : Collector) :
  addError now msg c <> c ->
  10 * time.Second <= time.Since now (lastErrorTime c).
Proof.
  intros Hne. destruct (Z.lt_ge_cases (time.Since now (lastErrorTime c)) (10 * time.Second))
    as [Hlt|Hge]; [|exact Hge].
  exfalso. apply Hne. now apply addError_dropped.
Qed.

Lemma addError_accepted now msg (c : Collector) :
  10 * time.Second <= time.Since now (lastErrorTime c) ->
  maxRecentErrors c = 10 ->
  last (recentErrors (addError now msg c))
    = Some (ErrorEntry.mk (time.UnixMilli now) msg) /\
  lastErrorTime (addError now msg c) = now /\
  (length (recentErrors (addError now msg c)) <= 10)%nat.
Proof.
  intros Hge Hmax. unfold addError.
  apply Z.ltb_ge in Hge. rewrite Hge. cbn. rewrite Hmax.
  destruct (10 <? Z.of_nat (length (recentErrors c ++ [_]))) eqn:Hlen.
  - apply Z.ltb_lt in Hlen. rewrite length_app in Hlen. cbn in Hlen.
    unfold lastN. rewrite length_app. cbn [length].
    rewrite drop_app_le by lia. rewrite last_snoc.
    split; [reflexivity|]. split; [reflexivity|].
    rewrite length_app, length_drop. cbn. lia.
  - apply Z.ltb_ge in Hlen. rewrite last_snoc.
    split; [reflexivity|]. split; [reflexivity|]. lia.
Qed.

Lemma addError_ring_bound now msg (c : Collector) :
  maxRecentErrors c = 10 ->
  (length (recentErrors c) <= 10)%nat ->
  maxRecentErrors (addError now msg c) = 10 /\
  (length (recentErrors (addError now msg c)) <= 10)%nat.
Proof.
  intros Hmax Hlen.
  destruct (addError_counters now msg c) as (_ & _ & _ & _ & _ & _ & ->).
  split; [exact Hmax|].
  destruct (Z.lt_ge_cases (time.Since now (lastErrorTime c)) (10 * time.Second))
    as [Hlt|Hge].
  - now rewrite addError_dropped.
  - now apply addError_accepted.
Qed.

Lemma step_ring_bound call (c : Collector) :
  maxRecentErrors c = 10 ->
  (length (recentErrors c) <= 10)%nat ->
  maxRecentErrors (fst (step call c)) = 10 /\
  (length (recentErrors (fst (step call c))) <= 10)%nat.
Proof.
  intros Hmax Hlen.
  destruct call as [now latency [e|]|now latency [e|]|now interval|now]; cbn [step fst].
  - unfold RecordRead. now apply addError_ring_bound.
  - cbn. auto.
  - unfold RecordWrite. now apply addError_ring_bound.
  - cbn. auto.
  - unfold Snapshot.
    destruct (SnapshotAndReset (readLatencies c)) as [rh rl].
    destruct (SnapshotAndReset (writeLatencies c)) as [wh wl].
    cbn. auto.
  - cbn. split; [exact Hmax | lia].
Qed.

Lemma run_ring_bound calls : forall c : Collector,
  maxRecentErrors c = 10 ->
  (length (recentErrors c) <= 10)%nat ->
  (length (recentErrors (fst (run calls c))) <= 10)%nat.
Proof.
  induction calls as [|call calls IH]; intros c Hmax Hlen; [exact Hlen|].
  cbn [run]. destruct (step_ring_bound call c Hmax Hlen) as [Hmax1 Hlen1].
  destruct (step call c) as [c1 out1]. cbn [fst] in Hmax1, Hlen1.
  specialize (IH c1 Hmax1 Hlen1).
  destruct (run calls c1) as [c2 out2]. exact IH.
Qed.

(** A failed operation is counted whether or not its message enters the
    ring. *)
Lemma RecordRead_error_counted now latency e (c : Collector) :
  readErrors (RecordRead now latency (Some e) c) = wrap64 (readErrors c + 1) /\
  totalErrors (RecordRead now latency (Some e) c) = wrap64 (totalErrors c + 1).
Proof.
  unfold RecordRead.
  match goal with |- context [addError ?n ?m ?x] =>
    destruct (addError_counters n m x) as (_ & _ & -> & _ & _ & -> & _) end.
  cbn. auto.
Qed.

Lemma RecordWrite_error_counted now latency e (c : Collector) :
  writeErrors (RecordWrite now latency (Some e) c) = wrap64 (writeErrors c + 1) /\
  totalErrors (RecordWrite now latency (Some e) c) = wrap64 (totalErrors c + 1).
Proof.
  unfold RecordWrite.
  match goal with |- context [addError ?n ?m ?x] =>
    destruct (addError_counters n m x) as (_ & _ & _ & -> & _ & -> & _) end.
  cbn. auto.
Qed.

End ring.

Section ring_claims.
Import metrics.

(** C7, as the specification states it, fails on the boundary: a failure
    recorded exactly ten seconds after the one that last entered the ring
    enters it too, although that one is not older than ten seconds. *)
Lemma error_enters_ring_when_previous_is_exactly_ten_seconds_old :
  recentErrors Examples.afterFirstError
    = [ErrorEntry.mk 1767225600000 "read: connection refused"] /\
  lastErrorTime Examples.afterFirstError = Examples.t0 /\
  time.Since (Examples.t0 + 10 * time.Second) (lastErrorTime Examples.afterFirstError)
    = 10 * time.Second /\
  ~ (10 * time.Second
     < time.Since (Examples.t0 + 10 * time.Second) (lastErrorTime Examples.afterFirstError)) /\
  recentErrors Examples.afterSecondError
    = [ErrorEntry.mk 1767225600000 "read: connection refused";
       ErrorEntry.mk 1767225610000 "read: connection refused"] /\
  ~ (forall now msg (c : Collector (H := Examples.listHistogram)),
       recentErrors (addError now msg c) <> recentErrors c ->
       10 * time.Second < time.Since now (lastErrorTime c)).
Proof.
  split; [vm_compute; reflexivity|]. split; [vm_compute; reflexivity|].
  split; [vm_compute; reflexivity|]. split; [vm_compute; discriminate|].
  split; [vm_compute; reflexivity|].
  intros Hall.
  specialize (Hall (Examples.t0 + 10 * time.Second) "read: connection refused"
                Examples.afterFirstError).
  assert (Hlt : 10 * time.Second
                < time.Since (Examples.t0 + 10 * time.Second)
                    (lastErrorTime Examples.afterFirstError)).
  { apply Hall. vm_compute. discriminate. }
  vm_compute in Hlt. discriminate.
Qed.

(** C7 (amended): along every run on a new collector the recent-errors
    ring holds at most 10 entries.  An error changes the ring only if at
    least ten seconds have passed since the error that last entered it
    (exactly ten seconds is enough); one that arrives sooner
    leaves the collector's ring and time stamp as they are; one that
    arrives ten seconds or more later becomes the last entry of the ring
    and the new time stamp.  A failed read or write adds one to its error
    counter and to the total errors in each case. *)
Theorem recent_errors_bounded_and_rate_limited `{HistogramImpl}
  (calls : list Call) (now0 : time.Time) (poolStats : option (unit -> PoolStats.t))
  (now : time.Time) (latency : time.Duration) (msg : string) (c : Collector) :
  (length (recentErrors (fst (run calls (NewCollector now0 poolStats)))) <= 10)%nat /\
  (recentErrors (addError now msg c) <> recentErrors c ->
   10 * time.Second <= time.Since now (lastErrorTime c)) /\
  (time.Since now (lastErrorTime c) < 10 * time.Second ->
   addError now msg c = c) /\
  (10 * time.Second <= time.Since now (lastErrorTime c) ->
   maxRecentErrors c = 10 ->
   last (recentErrors (addError now msg c)) = Some (ErrorEntry.mk (time.UnixMilli now) msg) /\
   lastErrorTime (addError now msg c) = now) /\
  (readErrors (RecordRead now latency (Some msg) c) = wrap64 (readErrors c + 1) /\
   totalErrors (RecordRead now latency (Some msg) c) = wrap64 (totalErrors c + 1)) /\
  (writeErrors (RecordWrite now latency (Some msg) c) = wrap64 (writeErrors c + 1) /\
   totalErrors (RecordWrite now latency (Some msg) c) = wrap64 (totalErrors c + 1)).
Proof.
  split; [apply run_ring_bound; [reflexivity | cbn; lia]|].
  split; [intros Hne; apply (addError_changes now msg c); congruence|].
  split; [apply addError_dropped|].
  split.
  - intros Hge Hmax. destruct (addError_accepted now msg c Hge Hmax) as (Hl & Ht & _).
    auto.
  - split; [apply RecordRead_error_counted | apply RecordWrite_error_counted].
Qed.

Lemma recent_errors_bounded_and_rate_limited_witness :
  time.Since (Examples.t0 + 3 * time.Second) (lastErrorTime Examples.afterFirstError)
    < 10 * time.Second /\
  addError (H := Examples.listHistogram) (Examples.t0 + 3 * time.Second)
    "read: connection refused" Examples.afterFirstError
  = Examples.afterFirstError.
Proof.
  split; [reflexivity|].
  apply (proj1 (proj2 (proj2
    (recent_errors_bounded_and_rate_limited (H := Examples.listHistogram)
       Examples.calls Examples.t0 None (Examples.t0 + 3 * time.Second) 0
       "read: connection refused" Examples.afterFirstError)))).
  reflexivity.
Defined.

End ring_claims.

(** ** The load controller *)

Section controller.
Import load.

Lemma go_max_is_max (a b : Z) : go_max a b = Z.max a b.
Proof. unfold go_max. destruct (a <? b) eqn:E; [apply Z.ltb_lt in E | apply Z.ltb_ge in E]; lia. Qed.

Lemma numReaders_spec (cfg : Config) :
  0 <= Connections cfg <= maxInt64 / 80 ->
  numReaders cfg = Spec.readers (Connections cfg).
Proof.
  intros Hn. unfold numReaders, Spec.readers.
  change (maxInt64 / 80) with 115292150460684697 in Hn.
  assert (Hb : Connections cfg <= 115292150460684697) by lia.
  rewrite wrap64_small by lia.
  rewrite Z.quot_div_nonneg by lia.
  replace (Connections cfg * 80) with (Connections cfg * 8 * 10) by lia.
  change 100 with (10 * 10). rewrite Z.div_mul_cancel_r by lia.
  set (r := Connections cfg * 8 / 10).
  assert (Hr : 0 <= r) by (apply Z.div_pos; lia).
  destruct (0 <? Connections cfg) eqn:Hpos.
  - destruct (r <? 1) eqn:Hr1; cbn;
      [apply Z.ltb_lt in Hr1 | apply Z.ltb_ge in Hr1]; lia.
  - rewrite andb_false_r. reflexivity.
Qed.

Lemma readers_bounds (n : Z) :
  0 <= n -> 0 <= Spec.readers n <= n /\ (0 < n -> 1 <= Spec.readers n).
Proof.
  intros Hn. unfold Spec.readers.
  assert (Hr : 0 <= n * 8 / 10 <= n).
  { split; [apply Z.div_pos; lia|]. apply Z.div_le_upper_bound; lia. }
  destruct (0 <? n) eqn:Hpos; [apply Z.ltb_lt in Hpos | apply Z.ltb_ge in Hpos]; lia.
Qed.

Lemma numWriters_spec (cfg : Config) :
  0 <= Connections cfg <= maxInt64 / 80 ->
  numWriters cfg = Spec.writers (Connections cfg) /\ 0 <= Spec.writers (Connections cfg).
Proof.
  intros Hn. unfold numWriters, Spec.writers. rewrite (numReaders_spec cfg Hn).
  destruct (readers_bounds (Connections cfg)) as [Hb _]; [lia|].
  change (maxInt64 / 80) with 115292150460684697 in Hn.
  rewrite wrap64_small by lia.
  destruct (_ <? 0) eqn:E; [apply Z.ltb_lt in E | apply Z.ltb_ge in E]; lia.
Qed.

(** [Stop] and [Start] leave the configuration, the limiters, the
    registry, the scenario and the store as they are. *)
Lemma Stop_frame (c : Controller) :
  config (Stop c) = config c /\ readLimiter (Stop c) = readLimiter c /\
  writeLimiter (Stop c) = writeLimiter c /\ registry (Stop c) = registry c /\
  scenario (Stop c) = scenario c /\ store (Stop c) = store c.
Proof. unfold Stop. destruct (running c); cbn; auto 10. Qed.

Lemma Start_frame (c : Controller) :
  config (Start c) = config c /\ readLimiter (Start c) = readLimiter c /\
  writeLimiter (Start c) = writeLimiter c /\ registry (Start c) = registry c /\
  scenario (Start c) = scenario c /\ store (Start c) = store c.
Proof. unfold Start. destruct (running c); cbn; auto 10. Qed.

Lemma UpdateConfig_frame (cfg : Config) (c : Controller) :
  config (UpdateConfig cfg c) = cfg /\
  readLimiter (UpdateConfig cfg c) = readLimiter (updateLocked cfg c) /\
  writeLimiter (UpdateConfig cfg c) = writeLimiter (updateLocked cfg c) /\
  registry (UpdateConfig cfg c) = registry c /\
  scenario (UpdateConfig cfg c) = scenario (updateLocked cfg c) /\
  store (UpdateConfig cfg c) = store (updateLocked cfg c).
Proof.
  assert (Hl : config (updateLocked cfg c) = cfg /\ registry (updateLocked cfg c) = registry c).
  { unfold updateLocked. destruct (if scenarioChanged _ _ then _ else _). cbn. auto. }
  destruct Hl as [Hc Hr].
  unfold UpdateConfig. destruct (needsRestart _ _ _); [|auto 10].
  destruct (Start_frame (Stop (updateLocked cfg c))) as (-> & -> & -> & -> & -> & ->).
  destruct (Stop_frame (updateLocked cfg c)) as (-> & -> & -> & -> & -> & ->).
  auto 10.
Qed.

Lemma needsRestart_spec (running : bool) (old new : Config) :
  needsRestart running old new = true <-> Spec.needsRestart running old new.
Proof.
  unfold needsRestart, scenarioChanged, Spec.needsRestart.
  rewrite andb_true_iff, !orb_true_iff, !negb_true_iff.
  rewrite !Z.eqb_neq, !String.eqb_neq. tauto.
Qed.

Lemma scenarioChanged_spec (old new : Config) :
  scenarioChanged old new = true <-> Spec.identityChanged old new.
Proof.
  unfold scenarioChanged, Spec.identityChanged.
  rewrite orb_true_iff, !negb_true_iff, !String.eqb_neq. tauto.
Qed.

End controller.

Section controller_claims.
Import load.

Lemma updateLocked_fields (cfg : Config) (c : Controller) :
  running (updateLocked cfg c) = running c /\
  config (updateLocked cfg c) = cfg /\
  workers (updateLocked cfg c) = workers c /\
  events (updateLocked cfg c) = events c /\
  readLimiter (updateLocked cfg c)
    = rate.mkLimiter (float64_of_int (ReadQPS cfg)) (go_max (ReadQPS cfg) 1) /\
  writeLimiter (updateLocked cfg c)
    = rate.mkLimiter (float64_of_int (WriteQPS cfg)) (go_max (WriteQPS cfg) 1).
Proof.
  unfold updateLocked. destruct (if scenarioChanged _ _ then _ else _). cbn. auto 10.
Qed.

Example live_retune_keeps_fleet :
  events (UpdateConfig Examples.fasterConfig Examples.jsonbController)
    = [Started 8 2] /\
  rate.burst (readLimiter (UpdateConfig Examples.fasterConfig Examples.jsonbController)) = 500.
Proof. split; vm_compute; reflexivity. Qed.

Example shape_change_restarts :
  events (UpdateConfig Examples.widerConfig Examples.jsonbController)
    = [Started 8 2; Stopped; Started 80 20].
Proof. vm_compute. reflexivity. Qed.

(** C4: update-config installs the new configuration and sets each
    limiter to the new QPS with burst max(qps, 1).  When the controller is
    running and the connection count, the churn rate, the scenario name or
    the custom table differs from the old configuration, the fleet is
    stopped and started once, with the new configuration's workers;
    otherwise no fleet transition happens and the workers are the same.
    In particular a change of read or write QPS alone leaves the fleet as
    it is. *)
Theorem UpdateConfig_retunes_and_restarts (cfg : Config) (c : Controller) :
  config (UpdateConfig cfg c) = cfg /\
  readLimiter (UpdateConfig cfg c)
    = rate.mkLimiter (float64_of_int (ReadQPS cfg)) (Z.max (ReadQPS cfg) 1) /\
  writeLimiter (UpdateConfig cfg c)
    = rate.mkLimiter (float64_of_int (WriteQPS cfg)) (Z.max (WriteQPS cfg) 1) /\
  (Spec.needsRestart (running c) (config c) cfg ->
   running (UpdateConfig cfg c) = true /\
   events (UpdateConfig cfg c)
     = (events c ++ [Stopped; Started (Z.to_nat (numReaders cfg)) (Z.to_nat (numWriters cfg))])%list /\
   workers (UpdateConfig cfg c)
     = (replicate (Z.to_nat (numReaders cfg))
          (mkWorker ReadWorker (scenario (UpdateConfig cfg c)) (perConnectionChurn cfg)) ++
        replicate (Z.to_nat (numWriters cfg))
          (mkWorker WriteWorker (scenario (UpdateConfig cfg c)) (perConnectionChurn cfg)))%list) /\
  (~ Spec.needsRestart (running c) (config c) cfg ->
   running (UpdateConfig cfg c) = running c /\
   events (UpdateConfig cfg c) = events c /\
   workers (UpdateConfig cfg c) = workers c) /\
  (Connections (config c) = Connections cfg ->
   ChurnRate (config c) = ChurnRate cfg ->
   Scenario (config c) = Scenario cfg ->
   CustomTable (config c) = CustomTable cfg ->
   events (UpdateConfig cfg c) = events c /\
   workers (UpdateConfig cfg c) = workers c).
Proof.
  destruct (UpdateConfig_frame cfg c) as (Hcfg & Hrl & Hwl & _ & Hsc & _).
  destruct (updateLocked_fields cfg c) as (Hrun & Hcfg1 & Hwk & Hev & Hrl1 & Hwl1).
  rewrite Hrl, Hwl, Hrl1, Hwl1, !go_max_is_max.
  split; [exact Hcfg|]. split; [reflexivity|]. split; [reflexivity|].
  assert (Hno : ~ Spec.needsRestart (running c) (config c) cfg ->
                running (UpdateConfig cfg c) = running c /\
                events (UpdateConfig cfg c) = events c /\
                workers (UpdateConfig cfg c) = workers c).
  { intros Hn. unfold UpdateConfig.
    destruct (needsRestart (running c) (config c) cfg) eqn:E.
    - exfalso. apply Hn. now apply needsRestart_spec.
    - auto. }
  split; [|split; [exact Hno|]].
  - intros Hneed. rewrite Hsc.
    assert (Hr : running c = true) by (destruct Hneed; assumption).
    apply needsRestart_spec in Hneed.
    unfold UpdateConfig. rewrite Hneed.
    unfold Stop. rewrite Hrun, Hr. cbn [negb].
    unfold Start. cbn. rewrite Hcfg1, Hev.
    split; [reflexivity|]. split; [|reflexivity].
    rewrite <- app_assoc. reflexivity.
  - intros H1 H2 H3 H4. apply Hno. intros [_ Hd]. tauto.
Qed.

Lemma UpdateConfig_retunes_and_restarts_witness :
  Spec.needsRestart (running Examples.jsonbController) (config Examples.jsonbController)
    Examples.widerConfig /\
  events (UpdateConfig Examples.widerConfig Examples.jsonbController)
  = (events Examples.jsonbController ++
     [Stopped; Started (Z.to_nat (numReaders Examples.widerConfig))
                       (Z.to_nat (numWriters Examples.widerConfig))])%list.
Proof.
  assert (Hneed : Spec.needsRestart (running Examples.jsonbController)
                    (config Examples.jsonbController) Examples.widerConfig).
  { split; [reflexivity|]. left. vm_compute. discriminate. }
  split; [exact Hneed|].
  exact (proj1 (proj2 (proj1 (proj2 (proj2 (proj2
    (UpdateConfig_retunes_and_restarts Examples.widerConfig Examples.jsonbController))))
    Hneed))).
Defined.

Example bootstrap_split :
  numReaders Examples.jsonbConfig = 8 /\ numWriters Examples.jsonbConfig = 2 /\
  numReaders (mkConfig 5 0 10 0 "simple" EmptyString) = 4 /\
  numWriters (mkConfig 5 0 10 0 "simple" EmptyString) = 1 /\
  numReaders (mkConfig 1 0 10 0 "simple" EmptyString) = 1 /\
  numWriters (mkConfig 1 0 10 0 "simple" EmptyString) = 0 /\
  numReaders zeroConfig = 0 /\ numWriters zeroConfig = 0.
Proof. repeat split; reflexivity. Qed.

(** C5: a start of a stopped controller whose configuration declares n
    connections (0 <= n, and n * 80 within the range of an int) and churn
    rate c spawns floor(n * 0.8) readers, raised to 1 when n > 0, and
    n - readers writers, which is never negative; each worker gets the
    current scenario and the per-connection churn rate c / n when n > 0
    and c > 0, and 0 otherwise; with n = 0 no worker is spawned and the
    rate is 0 without a division. *)
Theorem Start_spawns_fleet (c : Controller) :
  running c = false ->
  0 <= Connections (config c) <= maxInt64 / 80 ->
  running (Start c) = true /\
  workers (Start c)
    = (workers c ++
       replicate (Z.to_nat (Spec.readers (Connections (config c))))
         (mkWorker ReadWorker (scenario c)
            (Spec.perConnectionChurn (ChurnRate (config c)) (Connections (config c)))) ++
       replicate (Z.to_nat (Spec.writers (Connections (config c))))
         (mkWorker WriteWorker (scenario c)
            (Spec.perConnectionChurn (ChurnRate (config c)) (Connections (config c)))))%list /\
  0 <= Spec.writers (Connections (config c)) /\
  Spec.readers (Connections (config c)) + Spec.writers (Connections (config c))
    = Connections (config c) /\
  (0 < Connections (config c) -> 1 <= Spec.readers (Connections (config c))) /\
  (Connections (config c) = 0 ->
   workers (Start c) = workers c /\
   Spec.perConnectionChurn (ChurnRate (config c)) (Connections (config c)) = S754_zero false).
Proof.
  intros Hrun Hn.
  destruct (numWriters_spec (config c) Hn) as [Hw Hw0].
  pose proof (numReaders_spec (config c) Hn) as Hr.
  destruct (readers_bounds (Connections (config c))) as [Hb Hb1]; [lia|].
  assert (Hworkers : workers (Start c)
    = (workers c ++
       replicate (Z.to_nat (Spec.readers (Connections (config c))))
         (mkWorker ReadWorker (scenario c)
            (Spec.perConnectionChurn (ChurnRate (config c)) (Connections (config c)))) ++
       replicate (Z.to_nat (Spec.writers (Connections (config c))))
         (mkWorker WriteWorker (scenario c)
            (Spec.perConnectionChurn (ChurnRate (config c)) (Connections (config c)))))%list).
  { unfold Start. rewrite Hrun. cbn [workers]. rewrite Hr, Hw. reflexivity. }
  split; [unfold Start; rewrite Hrun; reflexivity|].
  split; [exact Hworkers|]. split; [exact Hw0|].
  split; [unfold Spec.writers; lia|]. split; [exact Hb1|].
  intros H0. rewrite Hworkers. unfold Spec.writers, Spec.readers, Spec.perConnectionChurn.
  rewrite H0. cbn. rewrite app_nil_r. auto.
Qed.

Lemma Start_spawns_fleet_witness :
  running (Stop Examples.jsonbController) = false /\
  0 <= Connections (config (Stop Examples.jsonbController)) <= maxInt64 / 80 /\
  running (Start (Stop Examples.jsonbController)) = true /\
  Spec.readers (Connections (config (Stop Examples.jsonbController))) = 8 /\
  Spec.writers (Connections (config (Stop Examples.jsonbController))) = 2.
Proof.
  split; [reflexivity|]. split; [vm_compute; split; discriminate|].
  split; [|split; reflexivity].
  refine (proj1 (Start_spawns_fleet (Stop Examples.jsonbController) _ _)).
  - reflexivity.
  - vm_compute; split; discriminate.
Defined.

Example NewController_scenario :
  scenario NewController = schema.BuiltinScenario schema.Simple /\
  schema.Get "jsonb" (registry NewController) = Some (schema.BuiltinScenario schema.JSONB) /\
  schema.Get "nosuch" (registry NewController) = None.
Proof. repeat split; vm_compute; reflexivity. Qed.

Example custom_scenario_is_created :
  scenario (UpdateConfig Examples.customConfig Examples.jsonbController)
    = schema.CustomScenarioAt 0 /\
  store (UpdateConfig Examples.customConfig Examples.jsonbController)
    = [schema.NewCustomScenario "test.widgets"] /\
  events (UpdateConfig Examples.customConfig Examples.jsonbController)
    = [Started 8 2; Stopped; Started 8 2].
Proof. repeat split; vm_compute; reflexivity. Qed.

(** C6 on the code, at the failing input: an update-config that changes
    the scenario name of a running controller on the jsonb scenario to a
    name the registry does not hold leaves the controller on jsonb; the
    scenario does not become the simple one, as the specification and
    set-scenario have it.  The configuration then declares the unknown
    name, and the fleet is restarted on the jsonb scenario. *)
Lemma UpdateConfig_unknown_scenario_keeps_current :
  scenarioChanged (config Examples.jsonbController) Examples.unknownConfig = true /\
  (Scenario Examples.unknownConfig =? "custom")%string = false /\
  schema.Get (Scenario Examples.unknownConfig) (registry Examples.jsonbController) = None /\
  scenario Examples.jsonbController = schema.BuiltinScenario schema.JSONB /\
  scenario (UpdateConfig Examples.unknownConfig Examples.jsonbController)
    = schema.BuiltinScenario schema.JSONB /\
  scenario (UpdateConfig Examples.unknownConfig Examples.jsonbController)
    <> schema.BuiltinScenario schema.Simple /\
  scenario (SetScenario "nosuch" EmptyString Examples.jsonbController)
    = schema.BuiltinScenario schema.Simple /\
  Scenario (config (UpdateConfig Examples.unknownConfig Examples.jsonbController)) = "nosuch" /\
  events (UpdateConfig Examples.unknownConfig Examples.jsonbController)
    = [Started 8 2; Stopped; Started 8 2] /\
  Forall (fun w => worker_scenario w = schema.BuiltinScenario schema.JSONB)
         (workers (UpdateConfig Examples.unknownConfig Examples.jsonbController)) /\
  ~ (forall cfg c,
       scenarioChanged (config c) cfg = true ->
       (Scenario cfg =? "custom")%string = false ->
       schema.Get (Scenario cfg) (registry c) = None ->
       scenario (UpdateConfig cfg c) = schema.BuiltinScenario schema.Simple).
Proof.
  assert (Hn : schema.Get (Scenario Examples.unknownConfig)
                 (registry Examples.jsonbController) = None) by (vm_compute; reflexivity).
  split; [reflexivity|]. split; [reflexivity|]. split; [exact Hn|].
  split; [vm_compute; reflexivity|]. split; [vm_compute; reflexivity|].
  split; [vm_compute; discriminate|].
  split; [vm_compute; reflexivity|]. split; [vm_compute; reflexivity|].
  split; [vm_compute; reflexivity|].
  split; [vm_compute; repeat constructor|].
  intros Hall.
  specialize (Hall Examples.unknownConfig Examples.jsonbController eq_refl eq_refl Hn).
  vm_compute in Hall. discriminate.
Qed.

(** C6 on the code: when an update-config changes the scenario identity,
    a custom name makes the controller's scenario a newly created dynamic
    scenario for the configured table, at an address the store did not
    hold; another non-empty name that the registry holds makes it the
    registry's scenario of that name; but an empty name or a name the
    registry does not hold leaves the controller's scenario as it is,
    where the specification asks for the simple scenario.  The fallback
    to the simple scenario is what set-scenario does for a name the
    registry does not hold. *)
Theorem UpdateConfig_scenario_swap (cfg : Config) (c : Controller) :
  Spec.identityChanged (config c) cfg ->
  (Scenario cfg = "custom" ->
   scenario (UpdateConfig cfg c) = schema.CustomScenarioAt (length (store c)) /\
   store c !! length (store c) = None /\
   store (UpdateConfig cfg c) !! length (store c)
     = Some (schema.NewCustomScenario (CustomTable cfg)) /\
   store (UpdateConfig cfg c)
     = (store c ++ [schema.NewCustomScenario (CustomTable cfg)])%list) /\
  (Scenario cfg <> "custom" -> Scenario cfg <> EmptyString ->
   forall s, schema.Get (Scenario cfg) (registry c) = Some s ->
   scenario (UpdateConfig cfg c) = s /\ store (UpdateConfig cfg c) = store c) /\
  (Scenario cfg <> "custom" ->
   Scenario cfg = EmptyString \/ schema.Get (Scenario cfg) (registry c) = None ->
   scenario (UpdateConfig cfg c) = scenario c /\ store (UpdateConfig cfg c) = store c) /\
  (forall name customTable,
     name <> "custom" -> schema.Get name (registry c) = None ->
     scenario (SetScenario name customTable c) = getOrNil "simple" (registry c)) /\
  getOrNil "simple" schema.NewRegistry = schema.BuiltinScenario schema.Simple.
Proof.
  intros Hch. apply scenarioChanged_spec in Hch.
  destruct (UpdateConfig_frame cfg c) as (_ & _ & _ & _ & -> & ->).
  unfold updateLocked. rewrite Hch.
  split; [|split; [|split; [|split]]].
  - intros Hc. rewrite Hc. cbn.
    split; [reflexivity|]. split; [apply lookup_ge_None_2; lia|].
    split; [|reflexivity].
    apply (list_lookup_middle (store c) []). reflexivity.
  - intros Hc He s Hs. apply String.eqb_neq in Hc, He. rewrite Hc, He, Hs. cbn. auto.
  - intros Hc Hor. apply String.eqb_neq in Hc. rewrite Hc.
    destruct Hor as [He | Hn].
    + rewrite He. cbn. auto.
    + rewrite Hn. destruct (negb _); cbn; auto.
  - intros name customTable Hc Hn. unfold SetScenario.
    apply String.eqb_neq in Hc. rewrite Hc, Hn. reflexivity.
  - vm_compute. reflexivity.
Qed.

Lemma UpdateConfig_scenario_swap_witness :
  Spec.identityChanged (config Examples.jsonbController) Examples.unknownConfig /\
  Scenario Examples.unknownConfig <> "custom" /\
  schema.Get (Scenario Examples.unknownConfig) (registry Examples.jsonbController) = None /\
  scenario (UpdateConfig Examples.unknownConfig Examples.jsonbController)
  = scenario Examples.jsonbController.
Proof.
  assert (Hch : Spec.identityChanged (config Examples.jsonbController) Examples.unknownConfig).
  { left. vm_compute. discriminate. }
  assert (Hc : Scenario Examples.unknownConfig <> "custom") by (vm_compute; discriminate).
  assert (Hn : schema.Get (Scenario Examples.unknownConfig)
                 (registry Examples.jsonbController) = None) by (vm_compute; reflexivity).
  split; [exact Hch|]. split; [exact Hc|]. split; [exact Hn|].
  exact (proj1 (proj1 (proj2 (proj2
    (UpdateConfig_scenario_swap Examples.unknownConfig Examples.jsonbController Hch)))
    Hc (or_intror Hn))).
Defined.

End controller_claims.

(** * Further properties *)

(** ** The metric collector: error counters *)

Section collector_errors.
Import metrics.
Context `{HistogramImpl}.

Lemma RecordRead_errors now latency err (c : Collector) :
  readErrors (RecordRead now latency err c)
    = match err with Some _ => wrap64 (readErrors c + 1) | None => readErrors c end /\
  writeErrors (RecordRead now latency err c) = writeErrors c /\
  totalErrors (RecordRead now latency err c)
    = match err with Some _ => wrap64 (totalErrors c + 1) | None => totalErrors c end.
Proof.
  unfold RecordRead. destruct err as [e|]; cbn; [|auto].
  match goal with |- context [addError ?n ?m ?x] =>
    destruct (addError_counters n m x) as (_ & _ & -> & -> & _ & -> & _) end.
  cbn. auto.
Qed.

Lemma RecordWrite_errors now latency err (c : Collector) :
  readErrors (RecordWrite now latency err c) = readErrors c /\
  writeErrors (RecordWrite now latency err c)
    = match err with Some _ => wrap64 (writeErrors c + 1) | None => writeErrors c end /\
  totalErrors (RecordWrite now latency err c)
    = match err with Some _ => wrap64 (totalErrors c + 1) | None => totalErrors c end.
Proof.
  unfold RecordWrite. destruct err as [e|]; cbn; [|auto].
  match goal with |- context [addError ?n ?m ?x] =>
    destruct (addError_counters n m x) as (_ & _ & -> & -> & _ & -> & _) end.
  cbn. auto.
Qed.

Lemma Snapshot_errors now interval (c : Collector) :
  readErrors (snd (Snapshot now interval c)) = 0 /\
  writeErrors (snd (Snapshot now interval c)) = 0 /\
  totalErrors (snd (Snapshot now interval c)) = totalErrors c /\
  OperationStats.Errors (Reads (fst (Snapshot now interval c))) = readErrors c /\
  OperationStats.Errors (Writes (fst (Snapshot now interval c))) = writeErrors c /\
  TotalStats.Errors (Totals (fst (Snapshot now interval c))) = totalErrors c.
Proof.
  unfold Snapshot.
  destruct (SnapshotAndReset (readLatencies c)) as [rh rl].
  destruct (SnapshotAndReset (writeLatencies c)) as [wh wl].
  cbn. auto 10.
Qed.

Lemma errorTotal_app (out1 out2 : list Emitted) :
  errorTotal (out1 ++ out2) = errorTotal out1 + errorTotal out2.
Proof.
  induction out1 as [|e out1 IH]; cbn; [reflexivity|]. rewrite IH. lia.
Qed.

Lemma run_errors (calls : list Call) : forall (c c' : Collector) out,
  noReset calls = true ->
  run calls c = (c', out) ->
  0 <= readErrors c -> 0 <= writeErrors c ->
  readErrors c + writeErrors c <= totalErrors c ->
  totalErrors c + Z.of_nat (length calls) < 2 ^ 63 ->
  totalErrors c' = totalErrors c + failed calls /\
  0 <= readErrors c' /\ 0 <= writeErrors c' /\
  errorTotal out + readErrors c' + writeErrors c'
    = readErrors c + writeErrors c + failed calls /\
  (forall e, last out = Some e ->
     TotalStats.Errors (Totals (snapshot e))
     = totalErrors c - readErrors c - writeErrors c + errorTotal out).
Proof.
  induction calls as [|call calls IH]; intros c c' out Hnr Hrun Hr Hw Hle Hbound.
  - cbn in Hrun. injection Hrun as <- <-. unfold failed. cbn.
    do 4 (split; [lia|]). intros e He. discriminate.
  - cbn [run] in Hrun.
    destruct (step call c) as [c1 out1] eqn:Hstep.
    destruct (run calls c1) as [c2 out2] eqn:Hrest.
    injection Hrun as <- <-.
    cbn [noReset forallb] in Hnr. apply andb_true_iff in Hnr as [Hcall Hnr].
    cbn [length] in Hbound. rewrite Nat2Z.inj_succ in Hbound.
    assert (Hrec : failed (call :: calls)
                   = (if isFailure call then 1 else 0) + failed calls).
    { unfold failed. cbn [List.filter]. destruct (isFailure call); cbn [length]; lia. }
    rewrite Hrec. clear Hrec.
    destruct call as [now latency err|now latency err|now interval|now];
      cbn [step] in Hstep; [| | |discriminate].
    + injection Hstep as <- <-.
      destruct (RecordRead_errors now latency err c) as (Hre & Hwe & Hte).
      destruct err as [e0|]; cbn [isFailure app].
      * rewrite wrap64_small in Hre by lia. rewrite wrap64_small in Hte by lia.
        destruct (IH _ _ _ Hnr Hrest) as (Ht & Hr' & Hw' & Hsum & Hlast); try lia.
        do 4 (split; [lia|]).
        intros e He. rewrite (Hlast e He). lia.
      * destruct (IH _ _ _ Hnr Hrest) as (Ht & Hr' & Hw' & Hsum & Hlast); try lia.
        do 4 (split; [lia|]).
        intros e He. rewrite (Hlast e He). lia.
    + injection Hstep as <- <-.
      destruct (RecordWrite_errors now latency err c) as (Hre & Hwe & Hte).
      destruct err as [e0|]; cbn [isFailure app].
      * rewrite wrap64_small in Hwe by lia. rewrite wrap64_small in Hte by lia.
        destruct (IH _ _ _ Hnr Hrest) as (Ht & Hr' & Hw' & Hsum & Hlast); try lia.
        do 4 (split; [lia|]).
        intros e He. rewrite (Hlast e He). lia.
      * destruct (IH _ _ _ Hnr Hrest) as (Ht & Hr' & Hw' & Hsum & Hlast); try lia.
        do 4 (split; [lia|]).
        intros e He. rewrite (Hlast e He). lia.
    + destruct (Snapshot_errors now interval c) as (Hre & Hwe & Hte & Hsr & Hsw & _).
      destruct (Snapshot_counters now interval c) as (_ & _ & _ & _ & Hse).
      destruct (Snapshot now interval c) as [snap c1'] eqn:Hsnap.
      injection Hstep as <- <-. cbn [fst snd] in *.
      destruct (IH _ _ _ Hnr Hrest) as (Ht & Hr' & Hw' & Hsum & Hlast); try lia.
      rewrite errorTotal_app. cbn [errorTotal snapshot isFailure].
      do 4 (split; [lia|]).
      intros e He. rewrite last_app in He.
      destruct (last out2) as [e2|] eqn:Hl2.
      * injection He as <-. rewrite (Hlast e2 eq_refl). lia.
      * apply last_None in Hl2. subst out2. cbn in He. injection He as <-.
        cbn. lia.
Qed.

(** X1: in a run of record and snapshot calls on a new collector with no
    Reset (fewer than 2^63 calls), the read and write error counts of all
    emitted snapshots add up to the totals.errors of the last snapshot;
    at the end, the emitted error counts plus the two pending error
    counters equal the number of failed record calls, which is also the
    monotonic error total. *)
Theorem totals_errors_is_sum_of_window_errors
  (calls : list Call) (now0 : time.Time) (poolStats : option (unit -> PoolStats.t))
  (c : Collector) (out : list Emitted) :
  noReset calls = true ->
  Z.of_nat (length calls) < 2 ^ 63 ->
  run calls (NewCollector now0 poolStats) = (c, out) ->
  (forall e, last out = Some e ->
     errorTotal out = TotalStats.Errors (Totals (snapshot e))) /\
  errorTotal out + readErrors c + writeErrors c = failed calls /\
  totalErrors c = failed calls.
Proof.
  intros Hnr Hlen Hrun.
  destruct (run_errors calls (NewCollector now0 poolStats) c out Hnr Hrun)
    as (Ht & _ & _ & Hsum & Hlast); cbn; try lia.
  cbn in Ht, Hsum, Hlast. split; [|split; lia].
  intros e He. rewrite (Hlast e He). lia.
Qed.

End collector_errors.

Lemma totals_errors_is_sum_of_window_errors_witness :
  metrics.noReset Examples.calls = true /\
  Z.of_nat (length Examples.calls) < 2 ^ 63 /\
  metrics.totalErrors
    (fst (metrics.run (H := Examples.listHistogram) Examples.calls
            (metrics.NewCollector Examples.t0 None)))
  = metrics.failed Examples.calls.
Proof.
  split; [reflexivity|]. split; [reflexivity|].
  refine (proj2 (proj2
    (totals_errors_is_sum_of_window_errors (H := Examples.listHistogram)
       Examples.calls Examples.t0 None
       (fst (metrics.run (H := Examples.listHistogram) Examples.calls
               (metrics.NewCollector Examples.t0 None)))
       (snd (metrics.run (H := Examples.listHistogram) Examples.calls
               (metrics.NewCollector Examples.t0 None)))
       _ _ _))).
  - reflexivity.
  - reflexivity.
  - vm_compute. reflexivity.
Defined.

(** ** The metric collector: consistency of what a snapshot reports *)

Section collector_consistency.
Import metrics.
Context `{HistogramImpl}.

Lemma step_consistent call (c : Collector) :
  consistent c ->
  totalQueries c < 2 ^ 63 - 1 ->
  consistent (fst (step call c)) /\
  totalQueries (fst (step call c)) <= totalQueries c + 1 /\
  Forall consistentEmitted (snd (step call c)).
Proof.
  intros (Hr & Hw & Hq & He & Hte) Hb. unfold consistent.
  destruct call as [now latency err|now latency err|now interval|now]; cbn [step fst snd].
  - destruct (RecordRead_counters now latency err c) as (-> & -> & ->).
    destruct (RecordRead_errors now latency err c) as (-> & -> & ->).
    rewrite !(wrap64_small (readCount c + 1)), !(wrap64_small (totalQueries c + 1)) by lia.
    split; [|split; [lia | constructor]].
    destruct err; rewrite ?wrap64_small by lia; lia.
  - destruct (RecordWrite_counters now latency err c) as (-> & -> & ->).
    destruct (RecordWrite_errors now latency err c) as (-> & -> & ->).
    rewrite !(wrap64_small (writeCount c + 1)), !(wrap64_small (totalQueries c + 1)) by lia.
    split; [|split; [lia | constructor]].
    destruct err; rewrite ?wrap64_small by lia; lia.
  - destruct (Snapshot_counters now interval c) as (Hrc & Hwc & Htq & Hsq & Hse).
    destruct (Snapshot_errors now interval c) as (Hre & Hwe & Hte' & Hsr & Hsw & _).
    destruct (Snapshot now interval c) as [snap c1]. cbn [fst snd] in *.
    rewrite Hrc, Hwc, Htq, Hre, Hwe, Hte'.
    split; [lia|]. split; [lia|].
    constructor; [|constructor]. unfold consistentEmitted. cbn.
    rewrite Hsq, Hse, Hsr, Hsw. lia.
  - cbn. split; [lia|]. split; [lia | constructor].
Qed.

Lemma run_consistent (calls : list Call) : forall c : Collector,
  consistent c ->
  totalQueries c + Z.of_nat (length calls) < 2 ^ 63 ->
  consistent (fst (run calls c)) /\ Forall consistentEmitted (snd (run calls c)).
Proof.
  induction calls as [|call calls IH]; intros c Hc Hb.
  - cbn. split; [exact Hc | constructor].
  - cbn [length] in Hb. rewrite Nat2Z.inj_succ in Hb.
    assert (Hq : 0 <= totalQueries c) by (destruct Hc as (? & ? & ? & ? & ?); lia).
    destruct (step_consistent call c Hc) as (Hc1 & Hq1 & Ho1); [lia|].
    cbn [run]. destruct (step call c) as [c1 out1]. cbn [fst snd] in *.
    destruct (IH c1 Hc1) as [Hc2 Ho2]; [lia|].
    destruct (run calls c1) as [c2 out2]. cbn [fst snd] in *.
    split; [exact Hc2|]. apply Forall_app. auto.
Qed.

(** X2: along any run on a new collector, Reset included (fewer than
    2^63 calls), every emitted snapshot reports window error counts
    between 0 and the window counts, window counts within totals.queries,
    and totals.errors between 0 and totals.queries. *)
Theorem snapshots_are_consistent
  (calls : list Call) (now0 : time.Time) (poolStats : option (unit -> PoolStats.t)) :
  Z.of_nat (length calls) < 2 ^ 63 ->
  Forall consistentEmitted (snd (run calls (NewCollector now0 poolStats))).
Proof.
  intros Hb. apply run_consistent; [|exact Hb].
  unfold consistent. cbn. lia.
Qed.

End collector_consistency.

Lemma snapshots_are_consistent_witness :
  Z.of_nat (length Examples.calls) < 2 ^ 63 /\
  Forall metrics.consistentEmitted
    (snd (metrics.run (H := Examples.listHistogram) Examples.calls
            (metrics.NewCollector Examples.t0 None))).
Proof.
  split; [reflexivity|].
  apply (snapshots_are_consistent (H := Examples.listHistogram)). reflexivity.
Defined.

(** ** The metric collector: Reset *)

Section collector_reset.
Import metrics.
Context `{HistogramImpl}.

Ltac same_counters H :=
  match type of H with
  | sameCounters ?c1 ?c2 =>
      destruct c1, c2; unfold sameCounters in H; cbn in H;
      destruct H as (? & ? & ? & ? & ? & ? & ? & ? & ? & ?); subst
  end.

Lemma addError_same now msg (c1 c2 : Collector) :
  sameCounters c1 c2 -> sameCounters (addError now msg c1) (addError now msg c2).
Proof.
  intros Hs. same_counters Hs. unfold addError, sameCounters. cbn.
  destruct (time.Since now _ <? _); cbn; auto 15.
Qed.

Lemma step_same call (c1 c2 : Collector) :
  sameCounters c1 c2 ->
  sameCounters (fst (step call c1)) (fst (step call c2)) /\
  map emittedCounters (snd (step call c1)) = map emittedCounters (snd (step call c2)).
Proof.
  intros Hs.
  destruct call as [now latency [e|]|now latency [e|]|now interval|now]; cbn [step fst snd].
  - split; [|reflexivity]. unfold RecordRead. apply addError_same.
    same_counters Hs. unfold sameCounters. cbn. auto 15.
  - split; [|reflexivity]. same_counters Hs. unfold sameCounters. cbn. auto 15.
  - split; [|reflexivity]. unfold RecordWrite. apply addError_same.
    same_counters Hs. unfold sameCounters. cbn. auto 15.
  - split; [|reflexivity]. same_counters Hs. unfold sameCounters. cbn. auto 15.
  - same_counters Hs. unfold Snapshot. cbn.
    destruct (SnapshotAndReset readLatencies0) as [rh1 rl1].
    destruct (SnapshotAndReset writeLatencies0) as [wh1 wl1].
    destruct (SnapshotAndReset readLatencies1) as [rh2 rl2].
    destruct (SnapshotAndReset writeLatencies1) as [wh2 wl2].
    cbn. split; [unfold sameCounters; cbn; auto 15 | reflexivity].
  - split; [|reflexivity]. same_counters Hs. unfold sameCounters. cbn. auto 15.
Qed.

Lemma run_same (calls : list Call) : forall c1 c2 : Collector,
  sameCounters c1 c2 ->
  sameCounters (fst (run calls c1)) (fst (run calls c2)) /\
  map emittedCounters (snd (run calls c1)) = map emittedCounters (snd (run calls c2)).
Proof.
  induction calls as [|call calls IH]; intros c1 c2 Hs; [cbn; auto|].
  cbn [run]. destruct (step_same call c1 c2 Hs) as [Hs1 Ho1].
  destruct (step call c1) as [c1' o1]. destruct (step call c2) as [c2' o2].
  cbn [fst snd] in *. destruct (IH c1' c2' Hs1) as [Hs2 Ho2].
  destruct (run calls c1') as [c1'' o1']. destruct (run calls c2') as [c2'' o2'].
  cbn [fst snd] in *. split; [exact Hs2|].
  rewrite !map_app. congruence.
Qed.

(** X3: Reset forgets the history.  After a Reset at [now], whatever the
    collector had counted, any further run of calls leaves the same
    counters, totals and ring, and emits snapshots with the same window
    counts, QPS, error counts, totals, error rate, pool stats and recent
    errors, as the same run on a collector newly created at [now] with
    the same pool stats function. *)
Theorem Reset_behaves_as_new (now : time.Time) (c : Collector) (calls : list Call) :
  maxRecentErrors c = 10 ->
  sameCounters (fst (run calls (Reset now c)))
               (fst (run calls (NewCollector now (poolStatsFunc c)))) /\
  map emittedCounters (snd (run calls (Reset now c)))
  = map emittedCounters (snd (run calls (NewCollector now (poolStatsFunc c)))) /\
  Uptime now (Reset now c) = 0.
Proof.
  intros Hmax.
  assert (Hs : sameCounters (Reset now c) (NewCollector now (poolStatsFunc c))).
  { unfold sameCounters. cbn. auto 15. }
  destruct (run_same calls _ _ Hs) as [H1 H2].
  split; [exact H1|]. split; [exact H2|].
  unfold Uptime, time.Since, time.Sub. cbn [Reset startTime].
  rewrite Z.sub_diag. reflexivity.
Qed.

End collector_reset.

Lemma Reset_behaves_as_new_witness :
  metrics.maxRecentErrors Examples.afterSecondError = 10 /\
  map metrics.emittedCounters
    (snd (metrics.run (H := Examples.listHistogram) Examples.calls
            (metrics.Reset Examples.t0 Examples.afterSecondError)))
  = map metrics.emittedCounters
      (snd (metrics.run (H := Examples.listHistogram) Examples.calls
              (metrics.NewCollector Examples.t0
                 (metrics.poolStatsFunc Examples.afterSecondError)))).
Proof.
  split; [reflexivity|].
  apply (proj1 (proj2
    (Reset_behaves_as_new (H := Examples.listHistogram) Examples.t0
       Examples.afterSecondError Examples.calls eq_refl))).
Defined.

(** ** The recent-errors ring: what it holds *)

Section ring_contents.
Import metrics.
Context `{HistogramImpl}.

(** Whether the rate limit lets the error in or not, and whatever the
    clock reads, [addError] leaves in the ring a part of the ring it
    found followed by at most the new message. *)
Lemma addError_messages now msg (c : Collector) (before : list string) :
  map ErrorEntry.Message (recentErrors c) `sublist_of` before ->
  Forall prefixed (recentErrors c) ->
  strings.HasPrefix msg "read: " = true \/ strings.HasPrefix msg "write: " = true ->
  map ErrorEntry.Message (recentErrors (addError now msg c)) `sublist_of` (before ++ [msg])%list /\
  Forall prefixed (recentErrors (addError now msg c)).
Proof.
  intros Hsub Hpre Hmsg. unfold addError.
  destruct (time.Since now (lastErrorTime c) <? 10 * time.Second).
  - split; [now apply sublist_inserts_r | exact Hpre].
  - cbn [recentErrors].
    set (entry := ErrorEntry.mk (time.UnixMilli now) msg).
    assert (Hall : map ErrorEntry.Message (recentErrors c ++ [entry])
                     `sublist_of` (before ++ [msg])%list).
    { rewrite map_app. cbn [map ErrorEntry.Message entry]. now apply sublist_app. }
    assert (Hpre' : Forall prefixed (recentErrors c ++ [entry])).
    { apply Forall_app. split; [exact Hpre|]. constructor; [exact Hmsg | constructor]. }
    destruct (maxRecentErrors c <? Z.of_nat (length (recentErrors c ++ [entry]))).
    + unfold lastN. split; [|now apply Forall_drop].
      etransitivity; [|exact Hall].
      change (map ErrorEntry.Message) with (fmap (M := list) ErrorEntry.Message).
      rewrite fmap_drop. apply sublist_drop.
    + split; assumption.
Qed.

Lemma step_messages call (c : Collector) (before : list string) :
  map ErrorEntry.Message (recentErrors c) `sublist_of` before ->
  Forall prefixed (recentErrors c) ->
  (map ErrorEntry.Message (recentErrors (fst (step call c)))
     `sublist_of` (before ++ failureMessages [call])%list /\
   Forall prefixed (recentErrors (fst (step call c)))) /\
  Forall (fun e => map ErrorEntry.Message (RecentErrors (snapshot e)) `sublist_of` before /\
                   Forall prefixed (RecentErrors (snapshot e)))
         (snd (step call c)).
Proof.
  intros Hsub Hpre.
  destruct call as [now latency [e|]|now latency [e|]|now interval|now];
    cbn [step fst snd failureMessages].
  - split; [|constructor]. unfold RecordRead. apply addError_messages; cbn; auto.
  - split; [|constructor]. cbn. rewrite app_nil_r. auto.
  - split; [|constructor]. unfold RecordWrite. apply addError_messages; cbn; auto.
  - split; [|constructor]. cbn. rewrite app_nil_r. auto.
  - unfold Snapshot.
    destruct (SnapshotAndReset (readLatencies c)) as [rh rl].
    destruct (SnapshotAndReset (writeLatencies c)) as [wh wl].
    cbn. rewrite app_nil_r. split; [auto|]. constructor; [auto | constructor].
  - split; [|constructor]. cbn. split; [apply sublist_nil_l | constructor].
Qed.

Lemma failureMessages_cons call calls :
  failureMessages (call :: calls) = (failureMessages [call] ++ failureMessages calls)%list.
Proof. destruct call as [now latency [e|]|now latency [e|]|now interval|now]; reflexivity. Qed.

Lemma run_messages (calls : list Call) : forall (c : Collector) (before : list string),
  map ErrorEntry.Message (recentErrors c) `sublist_of` before ->
  Forall prefixed (recentErrors c) ->
  (map ErrorEntry.Message (recentErrors (fst (run calls c)))
     `sublist_of` (before ++ failureMessages calls)%list /\
   Forall prefixed (recentErrors (fst (run calls c)))) /\
  Forall (fun e => map ErrorEntry.Message (RecentErrors (snapshot e))
                     `sublist_of` (before ++ failureMessages calls)%list /\
                   Forall prefixed (RecentErrors (snapshot e)))
         (snd (run calls c)).
Proof.
  induction calls as [|call calls IH]; intros c before Hsub Hpre.
  - cbn. rewrite app_nil_r. split; [auto | constructor].
  - cbn [run]. destruct (step_messages call c before Hsub Hpre) as [[Hs1 Hp1] Ho1].
    destruct (step call c) as [c1 o1]. cbn [fst snd] in *.
    destruct (IH c1 _ Hs1 Hp1) as [[Hs2 Hp2] Ho2].
    destruct (run calls c1) as [c2 o2]. cbn [fst snd] in *.
    rewrite failureMessages_cons, app_assoc.
    split; [auto|]. apply Forall_app. split; [|exact Ho2].
    eapply Forall_impl; [exact Ho1|]. intros e [He1 He2]. split; [|exact He2].
    rewrite <- app_assoc. now apply sublist_inserts_r.
Qed.

(** X4: the ring holds recorded failures only, in the order they were
    recorded.  Along any run on a new collector, Reset included, and
    whatever the clock reads at each call, the messages of the recent
    errors of the collector, and of every emitted snapshot, form a
    sub-list of the messages of the failed reads and writes of the run:
    each is the error of a failed call with the prefix of its operation
    ("read: " or "write: "), and they come in the order of the calls. *)
Theorem recent_errors_are_recorded_failures
  (calls : list Call) (now0 : time.Time) (poolStats : option (unit -> PoolStats.t)) :
  map ErrorEntry.Message (recentErrors (fst (run calls (NewCollector now0 poolStats))))
    `sublist_of` failureMessages calls /\
  Forall prefixed (recentErrors (fst (run calls (NewCollector now0 poolStats)))) /\
  Forall (fun e => map ErrorEntry.Message (RecentErrors (snapshot e))
                     `sublist_of` failureMessages calls /\
                   Forall prefixed (RecentErrors (snapshot e)))
         (snd (run calls (NewCollector now0 poolStats))).
Proof.
  destruct (run_messages calls (NewCollector now0 poolStats) [])
    as [[Hs Hp] Ho].
  - cbn. apply sublist_nil_l.
  - cbn. constructor.
  - cbn [app] in Hs, Ho. split; [exact Hs|]. split; [exact Hp | exact Ho].
Qed.

(** X5: the first failure after a collector is created or reset enters
    the ring, at any clock reading that is at least ten seconds after the
    zero time (year 1): the ring then holds exactly that error, with the
    time in milliseconds and the message prefixed by its operation. *)
Theorem first_error_is_kept
  (now t : time.Time) (latency : time.Duration) (e : error)
  (poolStats : option (unit -> PoolStats.t)) (c : Collector) :
  time.zero + 10 * time.Second <= now ->
  maxRecentErrors c = 10 ->
  recentErrors (RecordRead now latency (Some e) (NewCollector t poolStats))
    = [ErrorEntry.mk (time.UnixMilli now) ("read: " ++ e)] /\
  recentErrors (RecordWrite now latency (Some e) (NewCollector t poolStats))
    = [ErrorEntry.mk (time.UnixMilli now) ("write: " ++ e)] /\
  recentErrors (RecordRead now latency (Some e) (Reset t c))
    = [ErrorEntry.mk (time.UnixMilli now) ("read: " ++ e)] /\
  recentErrors (RecordWrite now latency (Some e) (Reset t c))
    = [ErrorEntry.mk (time.UnixMilli now) ("write: " ++ e)].
Proof.
  intros Hnow Hmax.
  assert (Hge : (time.Since now time.zero <? 10 * time.Second) = false).
  { apply Z.ltb_ge. unfold time.Since, time.Sub, minInt64, maxInt64.
    unfold time.zero, time.Second in *.
    destruct (_ <? - 2 ^ 63) eqn:E1; [apply Z.ltb_lt in E1; lia|].
    destruct (2 ^ 63 - 1 <? _) eqn:E2; lia. }
  unfold RecordRead, RecordWrite, addError. cbn. rewrite Hge, Hmax. cbn.
  auto.
Qed.

End ring_contents.

Lemma first_error_is_kept_witness :
  time.zero + 10 * time.Second <= Examples.t0 /\
  metrics.maxRecentErrors Examples.afterSecondError = 10 /\
  metrics.recentErrors
    (metrics.RecordRead (H := Examples.listHistogram) Examples.t0 0 (Some "timeout")
       (metrics.Reset Examples.t0 Examples.afterSecondError))
  = [metrics.ErrorEntry.mk (time.UnixMilli Examples.t0) "read: timeout"].
Proof.
  split; [vm_compute; discriminate|]. split; [reflexivity|].
  apply (proj1 (proj2 (proj2
    (first_error_is_kept (H := Examples.listHistogram) Examples.t0 Examples.t0 0
       "timeout" None Examples.afterSecondError
       ltac:(vm_compute; discriminate) eq_refl)))).
Defined.

(** ** The load controller: what every sequence of calls keeps *)

Section controller_invariants.
Import load.

Lemma NewRegistry_lookup (name : string) :
  schema.NewRegistry !! name
  = if decide ("fk" = name) then Some (schema.BuiltinScenario schema.FK)
    else if decide ("wide" = name) then Some (schema.BuiltinScenario schema.Wide)
    else if decide ("jsonb" = name) then Some (schema.BuiltinScenario schema.JSONB)
    else if decide ("simple" = name) then Some (schema.BuiltinScenario schema.Simple)
    else None.
Proof.
  unfold schema.NewRegistry, schema.Register. cbn [schema.Scenario_Name].
  unfold schema.Registry. rewrite !lookup_insert.
  repeat case_decide; reflexivity.
Qed.

Lemma NewRegistry_builtin (name : string) (s : schema.Scenario) :
  schema.Get name schema.NewRegistry = Some s ->
  exists b, s = schema.BuiltinScenario b /\ schema.Scenario_Name [] s = name.
Proof.
  unfold schema.Get. rewrite NewRegistry_lookup.
  repeat case_decide; intros [= <-]; subst; eauto.
Qed.

Lemma getOrNil_simple :
  getOrNil "simple" schema.NewRegistry = schema.BuiltinScenario schema.Simple.
Proof. unfold getOrNil, schema.Get. now rewrite NewRegistry_lookup. Qed.

Lemma validScenario_grows (store more : schema.Store) (s : schema.Scenario) :
  validScenario store s -> validScenario (store ++ more)%list s.
Proof.
  destruct s; cbn; auto. rewrite length_app. lia.
Qed.

Lemma replay_app (events more : list Event) : forall up,
  replay up (events ++ more)
  = match replay up events with
    | Some up' => replay up' more
    | None => None
    end.
Proof.
  induction events as [|[r w|] events IH]; intros up; cbn; [reflexivity| |];
    destruct up; auto.
Qed.

Lemma Start_wellFormed (c : Controller) : wellFormed c -> wellFormed (Start c).
Proof.
  intros (Hreg & Hsc & Hw & Hoff & Hev). unfold Start.
  destruct (running c) eqn:Hrun; [unfold wellFormed; rewrite Hrun; auto|].
  unfold wellFormed. cbn. rewrite (Hoff eq_refl). cbn.
  split; [exact Hreg|]. split; [exact Hsc|]. split.
  - apply Forall_app. split; apply Forall_replicate; exact Hsc.
  - split; [discriminate|]. rewrite replay_app, Hev. reflexivity.
Qed.

Lemma Stop_wellFormed (c : Controller) : wellFormed c -> wellFormed (Stop c).
Proof.
  intros (Hreg & Hsc & Hw & Hoff & Hev). unfold Stop.
  destruct (running c) eqn:Hrun; cbn [negb]; [|unfold wellFormed; rewrite Hrun; auto].
  unfold wellFormed. cbn.
  split; [exact Hreg|]. split; [exact Hsc|]. split; [constructor|].
  split; [reflexivity|]. rewrite replay_app, Hev. reflexivity.
Qed.

Lemma SetConfig_wellFormed cfg (c : Controller) : wellFormed c -> wellFormed (SetConfig cfg c).
Proof. intros H. exact H. Qed.

Lemma SetScenario_wellFormed name customTable (c : Controller) :
  wellFormed c -> wellFormed (SetScenario name customTable c).
Proof.
  intros (Hreg & Hsc & Hw & Hoff & Hev). unfold SetScenario, wellFormed.
  destruct (name =? "custom")%string.
  - cbn. split; [exact Hreg|]. split; [rewrite length_app; cbn; lia|].
    split; [|auto].
    eapply Forall_impl; [exact Hw|]. intros w. apply validScenario_grows.
  - destruct (schema.Get name (registry c)) as [s|] eqn:Hget; cbn.
    + rewrite Hreg in Hget. destruct (NewRegistry_builtin name s Hget) as (b & -> & _).
      cbn. auto.
    + rewrite Hreg, getOrNil_simple. cbn. auto.
Qed.

Lemma updateLocked_wellFormed cfg (c : Controller) :
  wellFormed c -> wellFormed (updateLocked cfg c).
Proof.
  intros (Hreg & Hsc & Hw & Hoff & Hev). unfold updateLocked, wellFormed.
  destruct (scenarioChanged (config c) cfg); [|cbn; auto].
  destruct (Scenario cfg =? "custom")%string.
  - cbn. split; [exact Hreg|]. split; [rewrite length_app; cbn; lia|].
    split; [|auto].
    eapply Forall_impl; [exact Hw|]. intros w. apply validScenario_grows.
  - destruct (negb (Scenario cfg =? EmptyString)%string); [|cbn; auto].
    destruct (schema.Get (Scenario cfg) (registry c)) as [s|] eqn:Hget; cbn; [|auto].
    rewrite Hreg in Hget. destruct (NewRegistry_builtin _ s Hget) as (b & -> & _).
    cbn. auto.
Qed.

Lemma apply_wellFormed op (c : Controller) : wellFormed c -> wellFormed (apply op c).
Proof.
  intros Hwf. destruct op as [name customTable|cfg|cfg| |]; cbn [apply].
  - now apply SetScenario_wellFormed.
  - now apply SetConfig_wellFormed.
  - unfold UpdateConfig. destruct (needsRestart _ _ _).
    + apply Start_wellFormed, Stop_wellFormed. now apply updateLocked_wellFormed.
    + now apply updateLocked_wellFormed.
  - now apply Start_wellFormed.
  - now apply Stop_wellFormed.
Qed.

Lemma NewController_wellFormed : wellFormed NewController.
Proof.
  unfold wellFormed, NewController. cbn [registry scenario store workers running events].
  rewrite getOrNil_simple.
  split; [reflexivity|]. split; [exact I|]. split; [constructor|]. auto.
Qed.

(** X6: however a new controller is driven by set-scenario, set-config,
    update-config, start and stop, its registry stays the one of the four
    built-in scenarios; its scenario and the scenario of every worker is
    never nil and, when dynamic, is held by the store; a controller that
    is not running has no workers; and its fleet transitions alternate
    Started, Stopped, Started, ..., the last one telling whether it is
    running. *)
Theorem controller_stays_well_formed (ops : list Op) :
  wellFormed (applyAll ops NewController).
Proof.
  assert (Hgen : forall c, wellFormed c -> wellFormed (applyAll ops c)).
  { induction ops as [|op ops IH]; intros c Hc; [exact Hc|].
    cbn [applyAll]. apply IH. now apply apply_wellFormed. }
  apply Hgen, NewController_wellFormed.
Qed.

Lemma fleet_depends (cfg cfg' : Config) (s : schema.Scenario) :
  Connections cfg = Connections cfg' ->
  ChurnRate cfg = ChurnRate cfg' ->
  fleet cfg s = fleet cfg' s.
Proof.
  intros Hc Hr. unfold fleet, numWriters, numReaders, perConnectionChurn.
  now rewrite Hc, Hr.
Qed.

Lemma apply_fleetMatches op (c : Controller) :
  reconciles op = true -> fleetMatches c -> fleetMatches (apply op c).
Proof.
  unfold fleetMatches. intros Hop Hm.
  destruct op as [name customTable|cfg|cfg| |]; try discriminate; cbn [apply].
  - destruct (updateLocked_fields cfg c) as (Hrun & Hcfg & Hwk & _).
    unfold UpdateConfig. destruct (needsRestart (running c) (config c) cfg) eqn:Hneed.
    + unfold needsRestart in Hneed. apply andb_true_iff in Hneed as [Hr _].
      unfold Stop. rewrite Hrun, Hr. cbn [negb]. unfold Start. cbn.
      rewrite Hcfg. reflexivity.
    + rewrite Hrun, Hwk, Hcfg, Hm.
      destruct (running c) eqn:Hr; [|reflexivity].
      unfold needsRestart in Hneed. cbn in Hneed.
      apply orb_false_iff in Hneed as [Hneed Hsc].
      apply orb_false_iff in Hneed as [Hn Hch].
      apply negb_false_iff, Z.eqb_eq in Hn, Hch.
      unfold updateLocked. rewrite Hsc. cbn.
      now apply fleet_depends.
  - unfold Start. destruct (running c) eqn:Hr; [now rewrite Hr|].
    cbn. rewrite Hm. reflexivity.
  - unfold Stop. destruct (running c) eqn:Hr; cbn [negb]; [reflexivity | now rewrite Hr].
Qed.

(** X7: when a controller that is not running and has no workers is
    driven by start, stop and update-config only, then at every point its
    workers are exactly the fleet of its current configuration and current
    scenario while it runs (readers and writers by the 80/20 split, each
    with the current scenario and the per-connection churn), and none
    while it does not. *)
Theorem fleet_matches_configuration (ops : list Op) (c : Controller) :
  forallb reconciles ops = true ->
  running c = false ->
  workers c = [] ->
  fleetMatches (applyAll ops c).
Proof.
  intros Hops Hrun Hw.
  assert (Hm : fleetMatches c) by (unfold fleetMatches; now rewrite Hrun).
  clear Hrun Hw. revert c Hm.
  induction ops as [|op ops IH]; intros c Hm; [exact Hm|].
  cbn [forallb] in Hops. apply andb_true_iff in Hops as [Hop Hops].
  cbn [applyAll]. apply IH; [exact Hops|]. now apply apply_fleetMatches.
Qed.

Lemma Limiter_eta (l : rate.Limiter) : rate.mkLimiter (rate.limit l) (rate.burst l) = l.
Proof. now destruct l. Qed.

(** X8: repeating a call changes nothing: update-config with the
    configuration just installed, start on a started controller and stop
    on a stopped one each return the controller as it is (no further
    fleet transition, same limiters, same scenario, same store). *)
Theorem repeated_calls_change_nothing (cfg : Config) (c : Controller) :
  UpdateConfig cfg (UpdateConfig cfg c) = UpdateConfig cfg c /\
  Start (Start c) = Start c /\
  Stop (Stop c) = Stop c.
Proof.
  split; [|split].
  - destruct (UpdateConfig_frame cfg c) as (Hcfg & Hrl & Hwl & _).
    destruct (updateLocked_fields cfg c) as (_ & _ & _ & _ & Hrl1 & Hwl1).
    rewrite Hrl1 in Hrl. rewrite Hwl1 in Hwl.
    destruct (UpdateConfig cfg c) as [r cf rl wl rg sc st wk ev].
    cbn in Hcfg, Hrl, Hwl. subst cf rl wl.
    unfold UpdateConfig, needsRestart, updateLocked, scenarioChanged. cbn.
    rewrite !Z.eqb_refl, !String.eqb_refl. cbn. rewrite andb_false_r. reflexivity.
  - unfold Start at 1. destruct (running (Start c)) eqn:E; [reflexivity|].
    unfold Start in E. destruct (running c) eqn:Hr; cbn in E; congruence.
  - unfold Stop at 1. destruct (running (Stop c)) eqn:E; [|reflexivity].
    unfold Stop in E. destruct (running c) eqn:Hr; cbn in E; congruence.
Qed.

End controller_invariants.

Lemma fleet_matches_configuration_witness :
  forallb load.reconciles
    [load.OpStart; load.OpUpdateConfig Examples.widerConfig; load.OpStop; load.OpStart] = true /\
  load.running (load.SetConfig Examples.jsonbConfig load.NewController) = false /\
  load.workers (load.SetConfig Examples.jsonbConfig load.NewController) = [] /\
  load.fleetMatches
    (load.applyAll
       [load.OpStart; load.OpUpdateConfig Examples.widerConfig; load.OpStop; load.OpStart]
       (load.SetConfig Examples.jsonbConfig load.NewController)).
Proof.
  split; [reflexivity|]. split; [reflexivity|]. split; [reflexivity|].
  apply fleet_matches_configuration; reflexivity.
Defined.

(** ** The configuration handler *)

Section handler.
Import load.

(** X9: a config request that provides neither scenario nor custom table
    keeps the scenario identity: the configuration keeps the current name
    and table, the controller keeps its scenario and its store, and when
    the request's connections and churn rate are the current ones too,
    there is no fleet transition and the workers stay (only the limiters
    follow the request).  A request that names another scenario does not
    take over the current custom table: its own table is installed, empty
    or not.  The response carries the configuration that was installed. *)
Theorem HandleConfig_scenario_defaults (req : api.ConfigRequest) (c : Controller) :
  (api.Scenario req = EmptyString -> api.CustomTable req = EmptyString ->
   Scenario (config (fst (api.HandleConfig req c))) = Scenario (config c) /\
   CustomTable (config (fst (api.HandleConfig req c))) = CustomTable (config c) /\
   scenario (fst (api.HandleConfig req c)) = scenario c /\
   store (fst (api.HandleConfig req c)) = store c /\
   rate.burst (readLimiter (fst (api.HandleConfig req c))) = Z.max (api.ReadQPS req) 1 /\
   rate.burst (writeLimiter (fst (api.HandleConfig req c))) = Z.max (api.WriteQPS req) 1 /\
   (api.Connections req = Connections (config c) ->
    api.ChurnRate req = ChurnRate (config c) ->
    workers (fst (api.HandleConfig req c)) = workers c /\
    events (fst (api.HandleConfig req c)) = events c)) /\
  (api.Scenario req <> EmptyString -> api.Scenario req <> Scenario (config c) ->
   Scenario (config (fst (api.HandleConfig req c))) = api.Scenario req /\
   CustomTable (config (fst (api.HandleConfig req c))) = api.CustomTable req) /\
  api.OK (snd (api.HandleConfig req c)) = true /\
  api.Config (snd (api.HandleConfig req c)) = config (fst (api.HandleConfig req c)).
Proof.
  unfold api.HandleConfig, GetConfig. cbn [fst snd api.OK api.Config].
  split; [|split; [|split; reflexivity]].
  - intros Hs Ht.
    assert (Hcfg : api.requestedConfig req (config c)
                   = mkConfig (api.Connections req) (api.ReadQPS req) (api.WriteQPS req)
                       (api.ChurnRate req) (Scenario (config c)) (CustomTable (config c))).
    { unfold api.requestedConfig. rewrite Hs, Ht. cbn.
      now rewrite String.eqb_refl. }
    rewrite Hcfg. set (cfg := mkConfig _ _ _ _ _ _).
    destruct (UpdateConfig_frame cfg c) as (-> & -> & -> & _ & -> & ->).
    destruct (updateLocked_fields cfg c) as (Hrun & _ & Hwk & Hev & -> & ->).
    assert (Hsame : scenarioChanged (config c) cfg = false).
    { unfold scenarioChanged, cfg. cbn. now rewrite !String.eqb_refl. }
    cbn [rate.burst]. rewrite !go_max_is_max.
    split; [reflexivity|]. split; [reflexivity|].
    split; [unfold updateLocked; rewrite Hsame; reflexivity|].
    split; [unfold updateLocked; rewrite Hsame; reflexivity|].
    split; [reflexivity|]. split; [reflexivity|].
    intros Hn Hc. unfold UpdateConfig.
    assert (Hneed : needsRestart (running c) (config c) cfg = false).
    { unfold needsRestart. rewrite Hsame. unfold cfg. cbn.
      rewrite <- Hn, <- Hc, !Z.eqb_refl. cbn. apply andb_false_r. }
    rewrite Hneed. auto.
  - intros Hs Hne. apply String.eqb_neq in Hs, Hne.
    destruct (UpdateConfig_frame (api.requestedConfig req (config c)) c) as (-> & _).
    unfold api.requestedConfig. rewrite Hs, Hne, andb_false_r. cbn. auto.
Qed.

End handler.

Lemma HandleConfig_scenario_defaults_witness :
  api.Scenario (api.mkConfigRequest 10 500 50 0 EmptyString EmptyString) = EmptyString /\
  api.CustomTable (api.mkConfigRequest 10 500 50 0 EmptyString EmptyString) = EmptyString /\
  load.scenario
    (fst (api.HandleConfig (api.mkConfigRequest 10 500 50 0 EmptyString EmptyString)
            Examples.jsonbController))
  = load.scenario Examples.jsonbController.
Proof.
  split; [reflexivity|]. split; [reflexivity|].
  apply (proj1 (proj2 (proj2
    (proj1 (HandleConfig_scenario_defaults
              (api.mkConfigRequest 10 500 50 0 EmptyString EmptyString)
              Examples.jsonbController) eq_refl eq_refl)))).
Defined.

(** ** The dynamic scenario: failures of Initialize *)

Section initialize_failures.
Import schema.

Lemma keeps_bind {A B : Type} (m : M A) (f : A -> M B) :
  keepsInitialized m -> (forall a, keepsInitialized (f a)) -> keepsInitialized (bind m f).
Proof.
  intros Hm Hf s. unfold bind. specialize (Hm s).
  destruct (m s) as [[[e|a] s1] l1]; cbn in *; [exact Hm|].
  specialize (Hf a s1). destruct (f a s1) as [[r s2] l2]. cbn in *. congruence.
Qed.

Lemma keeps_ret {A : Type} (a : A) : keepsInitialized (ret a).
Proof. intros s. reflexivity. Qed.

Lemma keeps_fail {A : Type} (e : error) : keepsInitialized (fail (A := A) e).
Proof. intros s. reflexivity. Qed.

Lemma keeps_get : keepsInitialized get.
Proof. intros s. reflexivity. Qed.

Lemma keeps_send {A : Type} (answer : Stmt -> A) (q : Stmt) : keepsInitialized (send answer q).
Proof. intros s. reflexivity. Qed.

Lemma keeps_modify (f : CustomScenario -> CustomScenario) :
  (forall s, initialized (f s) = initialized s) -> keepsInitialized (modify f).
Proof. intros Hf s. apply Hf. Qed.

Lemma keeps_scanColumns rows : keepsInitialized (scanColumns rows).
Proof.
  induction rows as [|[e|col] rows IH]; cbn [scanColumns].
  - apply keeps_ret.
  - apply keeps_fail.
  - apply keeps_bind; [apply keeps_modify; reflexivity | intros _; exact IH].
Qed.

Ltac keeps :=
  repeat match goal with
  | |- keepsInitialized (if ?b then _ else _) => destruct b
  | |- keepsInitialized (match ?x with _ => _ end) => destruct x
  | |- keepsInitialized (bind _ _) => apply keeps_bind; [|intros ?]
  | |- keepsInitialized (ret _) => apply keeps_ret
  | |- keepsInitialized (fail _) => apply keeps_fail
  | |- keepsInitialized get => apply keeps_get
  | |- keepsInitialized (send _ _) => apply keeps_send
  | |- keepsInitialized (scanColumns _) => apply keeps_scanColumns
  | |- keepsInitialized (modify _) => apply keeps_modify; intros ?; try reflexivity
  end.

Lemma keeps_discoverTable conn : keepsInitialized (discoverTable conn).
Proof. unfold discoverTable. keeps. Qed.

Lemma keeps_loadColumns conn : keepsInitialized (loadColumns conn).
Proof. unfold loadColumns. keeps. Qed.

Lemma keeps_resolvePrimaryKey conn : keepsInitialized (resolvePrimaryKey conn).
Proof. unfold resolvePrimaryKey. keeps. Qed.

Lemma keeps_seedIDs conn : keepsInitialized (seedIDs conn).
Proof.
  unfold seedIDs. keeps.
  match goal with |- context [if ?b then _ else _] => destruct b end; reflexivity.
Qed.

Lemma keeps_buildQueries : keepsInitialized buildQueries.
Proof.
  unfold buildQueries. keeps.
  match goal with |- context [if ?b then _ else _] => destruct b end; reflexivity.
Qed.

(** The steps of [Initialize] before the flag is set. *)
Lemma Initialize_unfold conn s :
  initialized s = false ->
  Initialize conn s
  = bind (bind (discoverTable conn) (fun _ =>
            bind (loadColumns conn) (fun _ =>
              bind (resolvePrimaryKey conn) (fun _ =>
                bind (seedIDs conn) (fun _ => buildQueries)))))
         (fun _ => modify (set_initialized true)) s.
Proof.
  intros Hinit. unfold Initialize. unfold bind at 1. unfold get. rewrite Hinit.
  unfold bind.
  destruct (discoverTable conn s) as [[[e|[]] s1] l1]; [reflexivity|].
  destruct (loadColumns conn s1) as [[[e|[]] s2] l2]; [reflexivity|].
  destruct (resolvePrimaryKey conn s2) as [[[e|[]] s3] l3]; [reflexivity|].
  destruct (seedIDs conn s3) as [[[e|[]] s4] l4]; [reflexivity|].
  destruct (buildQueries s4) as [[[e|[]] s5] l5]; [reflexivity|].
  cbn. rewrite !app_nil_r. reflexivity.
Qed.

(** X10: [Initialize] sets the flag exactly when it returns nil.  On a
    scenario that is not initialized it either returns nil and leaves the
    flag set, or returns an error and leaves the flag unset, so that the
    next call tries again; on an initialized scenario it returns nil,
    sends nothing and changes nothing, with any database. *)
Theorem Initialize_sets_flag_iff_nil conn (s : CustomScenario) :
  (initialized s = true -> Initialize conn s = (inr tt, s, [])) /\
  (initialized s = false ->
   match fst (fst (Initialize conn s)) with
   | inr _ => initialized (snd (fst (Initialize conn s))) = true
   | inl _ => initialized (snd (fst (Initialize conn s))) = false
   end) /\
  (forall conn', fst (fst (Initialize conn s)) = inr tt ->
     Initialize conn' (snd (fst (Initialize conn s)))
     = (inr tt, snd (fst (Initialize conn s)), [])).
Proof.
  assert (H1 : forall c0 s0, initialized s0 = true -> Initialize c0 s0 = (inr tt, s0, [])).
  { intros c0 s0 Hinit. unfold Initialize, bind, get. now rewrite Hinit. }
  assert (H2 : initialized s = false ->
               match fst (fst (Initialize conn s)) with
               | inr _ => initialized (snd (fst (Initialize conn s))) = true
               | inl _ => initialized (snd (fst (Initialize conn s))) = false
               end).
  { intros Hinit. rewrite (Initialize_unfold conn s Hinit).
    assert (Hk : keepsInitialized
              (bind (discoverTable conn) (fun _ =>
                 bind (loadColumns conn) (fun _ =>
                   bind (resolvePrimaryKey conn) (fun _ =>
                     bind (seedIDs conn) (fun _ => buildQueries)))))).
    { apply keeps_bind; [apply keeps_discoverTable | intros ?].
      apply keeps_bind; [apply keeps_loadColumns | intros ?].
      apply keeps_bind; [apply keeps_resolvePrimaryKey | intros ?].
      apply keeps_bind; [apply keeps_seedIDs | intros ?].
      apply keeps_buildQueries. }
    specialize (Hk s).
    set (inner := bind (discoverTable conn) _) in *. unfold bind.
    destruct (inner s) as [[[e|[]] s1] l1]; cbn [fst snd modify] in *.
    - congruence.
    - reflexivity. }
  split; [apply H1|]. split; [exact H2|].
  intros conn' Hok. apply H1.
  destruct (initialized s) eqn:Hinit.
  - now rewrite (H1 conn s Hinit).
  - specialize (H2 eq_refl). rewrite Hok in H2. exact H2.
Qed.

End initialize_failures.

Lemma Initialize_sets_flag_iff_nil_witness :
  fst (fst (schema.Initialize Examples.widgets (schema.NewCustomScenario "test.widgets")))
    = inr tt /\
  schema.Initialize Examples.counters
    (snd (fst (schema.Initialize Examples.widgets (schema.NewCustomScenario "test.widgets"))))
  = (inr tt,
     snd (fst (schema.Initialize Examples.widgets (schema.NewCustomScenario "test.widgets"))),
     []).
Proof.
  split; [vm_compute; reflexivity|].
  apply (proj2 (proj2 (Initialize_sets_flag_iff_nil Examples.widgets
                         (schema.NewCustomScenario "test.widgets")))).
  vm_compute. reflexivity.
Defined.

Section initialize_errors.
Import schema.

Lemma failed_Initialize_first {A : Type} conn (k : M A) s e s1 l :
  initialized s = false ->
  Initialize conn s = (inl e, s1, l) ->
  bind get (fun s0 => bind (if initialized s0 then ret tt else Initialize conn) (fun _ => k)) s
  = (inl e, s1, l).
Proof.
  intros Hinit H. unfold bind at 1. unfold get. rewrite Hinit.
  unfold bind. rewrite H. reflexivity.
Qed.

(** X11: on a scenario that is not initialized, a failure of [Initialize]
    is what [ExecuteRead] and [ExecuteWrite] return: the same error, the
    same state and only the introspection statements sent, no SELECT and
    no INSERT.  For a declared table the catalog answers nothing about,
    [Initialize] fails with "table <schema>.<table> not found or has no
    columns" after the catalog query alone; a failing catalog query and a
    failing auto-discovery are reported with their own prefix. *)
Theorem Initialize_failure_is_returned conn (rnd : Z) (s : CustomScenario) :
  initialized s = false ->
  (forall e s1 l, Initialize conn s = (inl e, s1, l) ->
     ExecuteRead conn rnd s = (inl e, s1, l) /\
     ExecuteWrite conn rnd s = (inl e, s1, l)) /\
  ((tableName s =? EmptyString)%string = false ->
   queryColumns conn (mkStmt columnsSQL [VString (schemaName s); VString (tableName s)])
     = inr [] ->
   Initialize conn s
   = (inl ("table " ++ schemaName s ++ "." ++ tableName s ++ " not found or has no columns"),
      set_columns [] [] s,
      [mkStmt columnsSQL [VString (schemaName s); VString (tableName s)]])) /\
  (forall e, (tableName s =? EmptyString)%string = false ->
   queryColumns conn (mkStmt columnsSQL [VString (schemaName s); VString (tableName s)])
     = inl e ->
   Initialize conn s
   = (inl ("failed to query columns: " ++ e), s,
      [mkStmt columnsSQL [VString (schemaName s); VString (tableName s)]])) /\
  (forall e, (tableName s =? EmptyString)%string = true ->
   scanPair conn (mkStmt discoverSQL []) = inl e ->
   Initialize conn s
   = (inl ("failed to auto-discover table: " ++ e), s, [mkStmt discoverSQL []])).
Proof.
  intros Hinit. split; [|split; [|split]].
  - intros e s1 l H. split.
    + unfold ExecuteRead. now apply failed_Initialize_first.
    + unfold ExecuteWrite. now apply failed_Initialize_first.
  - intros Hname Hq. unfold Initialize, bind, get. rewrite Hinit.
    unfold discoverTable, bind, get, ret. rewrite Hname.
    unfold loadColumns, bind, get, send, modify, fail, ret. cbn. rewrite Hq. reflexivity.
  - intros e Hname Hq. unfold Initialize, bind, get. rewrite Hinit.
    unfold discoverTable, bind, get, ret. rewrite Hname.
    unfold loadColumns, bind, get, send, modify, fail, ret. cbn. rewrite Hq. reflexivity.
  - intros e Hname Hq. unfold Initialize, bind, get. rewrite Hinit.
    unfold discoverTable, bind, get, send, fail, ret. rewrite Hname, Hq. reflexivity.
Qed.

End initialize_errors.

Lemma Initialize_failure_is_returned_witness :
  schema.initialized (schema.NewCustomScenario "test.missing") = false /\
  schema.ExecuteRead Examples.missing 0 (schema.NewCustomScenario "test.missing")
  = (inl "table test.missing not found or has no columns",
     schema.NewCustomScenario "test.missing",
     [schema.mkStmt schema.columnsSQL [schema.VString "test"; schema.VString "missing"]]).
Proof.
  split; [reflexivity|].
  apply (proj1 (proj1 (Initialize_failure_is_returned Examples.missing 0
                         (schema.NewCustomScenario "test.missing") eq_refl) _ _ _
                 ltac:(vm_compute; reflexivity))).
Defined.

(** ** The dynamic scenario: reads and writes once initialized *)

Section custom_operations.
Import schema.

Lemma Intn_range rnd n : 0 < n -> 0 <= Intn rnd n < n.
Proof. intros Hn. unfold Intn. apply Z.mod_pos_bound. exact Hn. Qed.

Lemma set_ids_eta s : set_ids (ids s) s = s.
Proof. destruct s. reflexivity. Qed.

Lemma initialized_first {A : Type} conn (k : M A) s :
  initialized s = true ->
  bind get (fun s0 => bind (if initialized s0 then ret tt else Initialize conn) (fun _ => k)) s
  = k s.
Proof.
  intros Hinit. unfold bind at 1. unfold get. rewrite Hinit.
  unfold bind, ret. destruct (k s) as [[r s2] l2]. reflexivity.
Qed.

(** An initialized read, by the id it settles on. *)
Lemma ExecuteRead_initialized conn rnd s :
  initialized s = true ->
  (selectQuery s =? EmptyString)%string = false ->
  ExecuteRead conn rnd s
  = match pickID rnd (Z.of_nat (length (ids s))) (maxID s) s with
    | None => (inr tt, s, [])
    | Some id =>
        (match scanRow conn (mkStmt (selectQuery s) [id]) with
         | Some e => inl e
         | None => inr tt
         end, s, [mkStmt (selectQuery s) [id]])
    end.
Proof.
  intros Hinit Hq. unfold ExecuteRead. rewrite (initialized_first conn _ s Hinit).
  unfold bind at 1. unfold get. cbn beta iota. rewrite Hq.
  destruct (pickID _ _ _ _) as [id|]; [|reflexivity].
  unfold bind, send, fail, ret. destruct (scanRow conn _); reflexivity.
Qed.

(** X12: on an initialized scenario with a SELECT statement, [ExecuteRead]
    leaves the scenario as it is and returns what the row scan returns.
    With cached ids it sends one SELECT for one of the cached ids; with no
    cached id and a positive maxID it sends one SELECT for an integer key
    between 1 and maxID; with neither it sends nothing and returns nil. *)
Theorem ExecuteRead_reads_a_known_id conn (rnd : Z) (s : CustomScenario) :
  initialized s = true ->
  (selectQuery s =? EmptyString)%string = false ->
  snd (fst (ExecuteRead conn rnd s)) = s /\
  (ids s <> [] ->
   exists id, In id (ids s) /\
     ExecuteRead conn rnd s
     = (match scanRow conn (mkStmt (selectQuery s) [VString id]) with
        | Some e => inl e
        | None => inr tt
        end, s, [mkStmt (selectQuery s) [VString id]])) /\
  (ids s = [] -> 0 < maxID s ->
   exists id, 1 <= id <= maxID s /\
     ExecuteRead conn rnd s
     = (match scanRow conn (mkStmt (selectQuery s) [VInt64 id]) with
        | Some e => inl e
        | None => inr tt
        end, s, [mkStmt (selectQuery s) [VInt64 id]])) /\
  (ids s = [] -> maxID s <= 0 -> ExecuteRead conn rnd s = (inr tt, s, [])).
Proof.
  intros Hinit Hq. rewrite (ExecuteRead_initialized conn rnd s Hinit Hq).
  unfold pickID. split; [|split; [|split]].
  - destruct (0 <? Z.of_nat (length (ids s))); [destruct (0 <? Z.of_nat (length (ids s)))|];
      [| |destruct (0 <? maxID s)]; reflexivity.
  - intros Hne.
    assert (Hlen : 0 < Z.of_nat (length (ids s))).
    { destruct (ids s); [congruence | cbn [length]; lia]. }
    pose proof (Intn_range rnd _ Hlen) as Hr.
    apply Z.ltb_lt in Hlen. rewrite Hlen.
    eexists. split; [|reflexivity]. apply nth_In. lia.
  - intros Hnil Hm. rewrite Hnil.
    change (0 <? Z.of_nat (length (@nil string))) with false. cbn beta iota.
    pose proof (Intn_range rnd _ Hm) as Hr.
    apply Z.ltb_lt in Hm. rewrite Hm.
    eexists. split; [|reflexivity]. lia.
  - intros Hnil Hm. rewrite Hnil.
    change (0 <? Z.of_nat (length (@nil string))) with false. cbn beta iota.
    apply Z.ltb_ge in Hm. now rewrite Hm.
Qed.

(** An initialized write, by the driver's answer. *)
Lemma ExecuteWrite_initialized conn rnd s :
  initialized s = true ->
  ExecuteWrite conn rnd s
  = if (insertQuery s =? EmptyString)%string || (Z.of_nat (length (insertColumns s)) =? 0)
    then (inl "custom scenario not initialized or no insertable columns", s, [])
    else
      let q := mkStmt (insertQuery s)
                 (imap (fun (_ : nat) col => VGenerated (GenerateValue (DataType col) (Name col)))
                       (insertColumns s)) in
      match scanID conn q with
      | inr newID =>
          (inr tt, if negb (newID =? EmptyString)%string then cacheID rnd newID s else s, [q])
      | inl e => (inl e, s, [q])
      end.
Proof.
  intros Hinit. unfold ExecuteWrite. rewrite (initialized_first conn _ s Hinit).
  unfold bind at 1. unfold get. cbn beta iota zeta.
  destruct (_ || _); [reflexivity|].
  unfold bind, send, fail, ret, modify.
  destruct (scanID conn _) as [e|newID]; [reflexivity|].
  destruct (negb _); reflexivity.
Qed.

Lemma cacheID_ids rnd newID s :
  cacheID rnd newID s = set_ids (ids (cacheID rnd newID s)) s /\
  Z.of_nat (length (ids s)) <= Z.of_nat (length (ids (cacheID rnd newID s)))
    <= Z.max (Z.of_nat (length (ids s))) 10000.
Proof.
  unfold cacheID.
  destruct (_ || _); [|split; [symmetry; apply set_ids_eta | lia]].
  destruct (Z.of_nat (length (ids s)) <? 10000) eqn:Hlen; cbn [ids set_ids].
  - apply Z.ltb_lt in Hlen. split; [reflexivity|]. rewrite length_app. cbn [length]. lia.
  - split; [reflexivity|]. rewrite length_insert. lia.
Qed.

Lemma length_imap_const {A B : Type} (f : nat -> A -> B) (l : list A) :
  length (imap f l) = length l.
Proof. revert f. induction l as [|a l IH]; intros f; [reflexivity|]. cbn. now rewrite IH. Qed.

(** X13: on an initialized scenario, [ExecuteWrite] changes nothing but the
    id cache, and the cache only after an insert that returned nil: it
    never shrinks, and it never grows past 10000 ids (a full cache has
    one id replaced).  It sends either nothing, returning the
    "no insertable columns" error, or one INSERT with as many arguments as
    there are insert columns. *)
Theorem ExecuteWrite_keeps_cache_bounded conn (rnd : Z) (s : CustomScenario) r s' log :
  initialized s = true ->
  ExecuteWrite conn rnd s = (r, s', log) ->
  s' = set_ids (ids s') s /\
  Z.of_nat (length (ids s)) <= Z.of_nat (length (ids s'))
    <= Z.max (Z.of_nat (length (ids s))) 10000 /\
  (forall e, r = inl e -> s' = s) /\
  ((log = [] /\ r = inl "custom scenario not initialized or no insertable columns") \/
   (exists args, log = [mkStmt (insertQuery s) args] /\
      length args = length (insertColumns s) /\ insertColumns s <> [] /\
      match scanID conn (mkStmt (insertQuery s) args) with
      | inr _ => r = inr tt
      | inl e => r = inl e
      end)).
Proof.
  intros Hinit H. rewrite (ExecuteWrite_initialized conn rnd s Hinit) in H.
  destruct (_ || _) eqn:Hguard.
  - injection H as <- <- <-.
    split; [symmetry; apply set_ids_eta|]. split; [lia|]. split; [reflexivity|].
    left. split; reflexivity.
  - apply orb_false_iff in Hguard as [_ Hcols]. apply Z.eqb_neq in Hcols.
    cbn zeta in H.
    set (q := mkStmt _ _) in H.
    assert (Hsent : exists args, [q] = [mkStmt (insertQuery s) args] /\
              length args = length (insertColumns s) /\ insertColumns s <> [] /\
              q = mkStmt (insertQuery s) args).
    { eexists. split; [reflexivity|]. split; [apply length_imap_const|].
      split; [|reflexivity]. intros E. rewrite E in Hcols. now apply Hcols. }
    destruct Hsent as (args & Hlog & Hlen & Hne & Hq).
    destruct (scanID conn q) as [e|newID] eqn:Hscan.
    + injection H as <- <- <-.
      split; [symmetry; apply set_ids_eta|]. split; [lia|]. split; [reflexivity|].
      right. exists args. rewrite <- Hq, Hscan. auto.
    + injection H as <- <- <-.
      destruct (negb (newID =? EmptyString)%string).
      * destruct (cacheID_ids rnd newID s) as [He Hb].
        split; [exact He|]. split; [exact Hb|]. split; [discriminate|].
        right. exists args. rewrite <- Hq, Hscan. auto.
      * split; [symmetry; apply set_ids_eta|]. split; [lia|]. split; [discriminate|].
        right. exists args. rewrite <- Hq, Hscan. auto.
Qed.

(** X14: a table whose columns are all serial can be initialized, but has
    no INSERT statement, and every write on it returns the
    "no insertable columns" error without sending anything and without
    changing the scenario, whatever the database answers. *)
Theorem ExecuteWrite_fails_when_all_serial conn (t : string) s' log :
  Initialize conn (NewCustomScenario t) = (inr tt, s', log) ->
  Forall (fun col => IsSerial col = true) (columns s') ->
  insertQuery s' = EmptyString /\
  forall conn' rnd,
    ExecuteWrite conn' rnd s'
    = (inl "custom scenario not initialized or no insertable columns", s', []).
Proof.
  intros H Hserial.
  destruct (Initialize_summary conn (NewCustomScenario t) s' log eq_refl H)
    as (Hinit & _ & _ & Hins & Hq & _).
  assert (Hnil : insertColumns s' = []).
  { rewrite Hins. clear -Hserial. induction Hserial as [|col cols Hc _ IH]; [reflexivity|].
    cbn [List.filter]. unfold insertable at 1. rewrite Hc. exact IH. }
  rewrite Hnil in Hq. split; [exact Hq|].
  intros conn' rnd. rewrite (ExecuteWrite_initialized conn' rnd s' Hinit).
  rewrite Hnil. cbn [length]. now rewrite orb_true_r.
Qed.

End custom_operations.

Lemma ExecuteRead_reads_a_known_id_witness :
  exists id, 1 <= id <= schema.maxID Examples.widgetsInitialized /\
    schema.ExecuteRead Examples.widgets 7 Examples.widgetsInitialized
    = (match schema.scanRow Examples.widgets
               (schema.mkStmt (schema.selectQuery Examples.widgetsInitialized)
                  [schema.VInt64 id]) with
       | Some e => inl e
       | None => inr tt
       end, Examples.widgetsInitialized,
       [schema.mkStmt (schema.selectQuery Examples.widgetsInitialized) [schema.VInt64 id]]).
Proof.
  apply (proj1 (proj2 (proj2
    (ExecuteRead_reads_a_known_id Examples.widgets 7 Examples.widgetsInitialized
       ltac:(vm_compute; reflexivity) ltac:(vm_compute; reflexivity)))));
    vm_compute; reflexivity.
Defined.

Lemma ExecuteWrite_keeps_cache_bounded_witness :
  schema.ids Examples.gadgetsInitialized = ["0b6f1d2e-58a4-4c0b-9d3e-6f0a1b2c3d4e"] /\
  schema.ids (snd (fst (schema.ExecuteWrite Examples.gadgets 3 Examples.gadgetsInitialized)))
  = ["0b6f1d2e-58a4-4c0b-9d3e-6f0a1b2c3d4e"; "9a8b7c6d-5e4f-4a3b-8c2d-1e0f9a8b7c6d"] /\
  snd (fst (schema.ExecuteWrite Examples.gadgets 3 Examples.gadgetsInitialized))
  = schema.set_ids
      (schema.ids (snd (fst (schema.ExecuteWrite Examples.gadgets 3 Examples.gadgetsInitialized))))
      Examples.gadgetsInitialized.
Proof.
  split; [vm_compute; reflexivity|]. split; [vm_compute; reflexivity|].
  apply (proj1 (ExecuteWrite_keeps_cache_bounded Examples.gadgets 3 Examples.gadgetsInitialized
                  (fst (fst (schema.ExecuteWrite Examples.gadgets 3 Examples.gadgetsInitialized)))
                  (snd (fst (schema.ExecuteWrite Examples.gadgets 3 Examples.gadgetsInitialized)))
                  (snd (schema.ExecuteWrite Examples.gadgets 3 Examples.gadgetsInitialized))
                  ltac:(vm_compute; reflexivity) ltac:(vm_compute; reflexivity))).
Defined.

Lemma ExecuteWrite_fails_when_all_serial_witness :
  schema.ExecuteWrite Examples.widgets 3 Examples.countersInitialized
  = (inl "custom scenario not initialized or no insertable columns",
     Examples.countersInitialized, []).
Proof.
  apply (proj2 (ExecuteWrite_fails_when_all_serial Examples.counters "test.counters"
                  Examples.countersInitialized (snd Examples.countersRun)
                  ltac:(vm_compute; reflexivity)
                  ltac:(vm_compute; repeat constructor))).
Defined.

(** ** The value generator: integers and name hints *)

Section generator_facts.
Import schema.

Ltac branches :=
  repeat match goal with
         | |- context [if ?b then _ else _] => destruct b
         end.

Lemma nameHint_text colName g : nameHint colName = Some g -> isText g = true.
Proof.
  unfold nameHint. cbn zeta. branches; intros E; try discriminate;
    injection E as <-; reflexivity.
Qed.

Lemma byType_intConversion colType w c :
  intConversion (byType colType) = Some (w, c) ->
  exists hi, c = gofakeit.Number 0 hi /\ 0 <= hi < 2 ^ (w - 1).
Proof.
  unfold byType. cbn zeta. branches; cbn [intConversion]; intros E; try discriminate;
    injection E as <- <-; eexists; (split; [reflexivity|]); cbn; lia.
Qed.

(** X15: whenever the generator converts a number to int16, int32 or
    int64, the number is drawn from 0..hi with hi below 2^15, 2^31 or
    2^63: the conversion never wraps, whatever the column is called and
    whatever its type. *)
Theorem GenerateValue_integers_fit colType colName w c :
  intConversion (GenerateValue colType colName) = Some (w, c) ->
  exists hi, c = gofakeit.Number 0 hi /\ 0 <= hi < 2 ^ (w - 1).
Proof.
  unfold GenerateValue. cbn zeta.
  destruct (nameHint (strings.ToLower colName)) as [g|] eqn:Hhint.
  - apply nameHint_text in Hhint. destruct g; try discriminate.
  - apply byType_intConversion.
Qed.

(** X16: a name hint wins over the column type.  When the lowered column
    name matches one of the name patterns, the generated value is the
    same for every column type, and it is a string, also for a column of
    an integer, boolean or timestamp type. *)
Theorem GenerateValue_name_hint_wins colName :
  nameHint (strings.ToLower colName) <> None ->
  forall colType,
    isText (GenerateValue colType colName) = true /\
    forall colType', GenerateValue colType' colName = GenerateValue colType colName.
Proof.
  intros Hhint colType. unfold GenerateValue. cbn zeta.
  destruct (nameHint (strings.ToLower colName)) as [g|] eqn:E; [|congruence].
  split; [now apply nameHint_text in E | reflexivity].
Qed.

End generator_facts.

Lemma GenerateValue_integers_fit_witness :
  exists hi, gofakeit.Number 0 32000 = gofakeit.Number 0 hi /\ 0 <= hi < 2 ^ (16 - 1).
Proof.
  apply (GenerateValue_integers_fit "SMALLINT" "quantity" 16 (gofakeit.Number 0 32000)).
  reflexivity.
Defined.

Lemma GenerateValue_name_hint_wins_witness :
  schema.isText (schema.GenerateValue "integer" "Zip_Code") = true /\
  schema.GenerateValue "integer" "Zip_Code" = schema.Fake gofakeit.Zip.
Proof.
  split.
  - apply (GenerateValue_name_hint_wins "Zip_Code" ltac:(vm_compute; discriminate) "integer").
  - reflexivity.
Defined.

(** ** The statically shaped scenarios *)

Section builtin_scenarios.
Import schema.

Example scanIDs_stops_at_failing_row :
  scanIDs [inr "11"; inl "cannot scan NULL into *string"; inr "12"] [] = ["11"].
Proof. reflexivity. Qed.

Lemma scanIDs_scannedIDs rows : forall ids, scanIDs rows ids = (ids ++ scannedIDs rows)%list.
Proof.
  induction rows as [|[e|id] rows IH]; intros ids; cbn [scanIDs scannedIDs].
  - now rewrite app_nil_r.
  - now rewrite app_nil_r.
  - rewrite IH. now rewrite <- app_assoc.
Qed.

Lemma Intn_index rnd (l : list string) :
  l <> [] -> (Z.to_nat (Intn rnd (Z.of_nat (length l))) < length l)%nat.
Proof.
  intros Hne.
  assert (Hlen : 0 < Z.of_nat (length l)) by (destruct l; [congruence | cbn [length]; lia]).
  pose proof (Intn_range rnd _ Hlen). lia.
Qed.

Lemma keepID_bound rnd newID ids :
  Z.of_nat (length ids) <= Z.of_nat (length (keepID rnd newID ids))
    <= Z.max (Z.of_nat (length ids)) 10000.
Proof.
  unfold keepID. destruct (Z.of_nat (length ids) <? 10000) eqn:Hlen.
  - apply Z.ltb_lt in Hlen. rewrite length_app. cbn [length]. lia.
  - rewrite length_insert. lia.
Qed.

Lemma In_insert {A : Type} (x : A) (l : list A) :
  forall i, (i < length l)%nat -> In x (<[i := x]> l).
Proof.
  induction l as [|a l IH]; intros i Hi; [cbn in Hi; lia|].
  destruct i as [|i]; [now left|]. right. apply IH. cbn in Hi. lia.
Qed.

Lemma keepID_In rnd newID ids : In newID (keepID rnd newID ids).
Proof.
  unfold keepID. destruct (Z.of_nat (length ids) <? 10000) eqn:Hlen.
  - apply in_or_app. right. now left.
  - apply Z.ltb_ge in Hlen. apply In_insert. apply Intn_index.
    intros ->. cbn in Hlen. lia.
Qed.

Lemma SimpleScenario_maxID calls :
  forall s, SimpleScenario.maxID (fold_left SimpleScenario.step calls s) = SimpleScenario.maxID s.
Proof.
  induction calls as [|c calls IH]; intros s; [reflexivity|].
  cbn [fold_left]. rewrite IH. destruct c as [conn|conn rnd|conn randNum rnd]; cbn.
  - unfold SimpleScenario.Initialize. cbn zeta. destruct (queryIDs conn _); reflexivity.
  - reflexivity.
  - unfold SimpleScenario.ExecuteWrite. cbn zeta.
    destruct (scanID conn _) as [e|newID]; [reflexivity|].
    destruct (negb _); reflexivity.
Qed.

(** X17: after any calls on the simple scenario of the registry, a read
    does not panic and sends exactly one SELECT with one argument: one of
    the cached ids when there are any, else an integer between 1 and
    100000.  It returns what the row scan returns. *)
Theorem SimpleScenario_reads_cached_or_seeded_id calls conn (rnd : Z) :
  exists q id,
    SimpleScenario.ExecuteRead conn rnd (SimpleScenario.run calls)
    = (Returns (scanRow conn q), [q]) /\
    args q = [id] /\
    match id with
    | VString x => In x (SimpleScenario.ids (SimpleScenario.run calls))
    | VInt64 z => SimpleScenario.ids (SimpleScenario.run calls) = [] /\ 1 <= z <= 100000
    | VGenerated _ => False
    end.
Proof.
  pose proof (SimpleScenario_maxID calls SimpleScenario.New) as Hmax.
  fold (SimpleScenario.run calls) in Hmax. cbn in Hmax.
  unfold SimpleScenario.ExecuteRead. cbn zeta.
  destruct (SimpleScenario.ids (SimpleScenario.run calls)) as [|i0 rest] eqn:Hids.
  - change (0 <? Z.of_nat (length (@nil string))) with false. cbn beta iota.
    rewrite Hmax. unfold Int63n. change (100000 <=? 0) with false. cbn beta iota.
    pose proof (Intn_range rnd 100000 ltac:(lia)) as Hr.
    eexists. eexists. split; [reflexivity|]. split; [reflexivity|].
    split; [reflexivity | lia].
  - assert (Hpos : (0 <? Z.of_nat (length (i0 :: rest))) = true)
      by (apply Z.ltb_lt; cbn [length]; lia).
    rewrite Hpos.
    eexists. eexists. split; [reflexivity|]. split; [reflexivity|].
    apply nth_In. apply Intn_index. discriminate.
Qed.

(** X18: [Initialize] of the simple and of the fk scenario has no
    run-once guard.  Every call returns nil, sends the one id query, and
    appends to the cache the ids of the rows up to the first one that
    fails to scan (all of them when every row scans; a failing query
    adds none); so n calls on the same table leave n copies of these ids
    in the cache. *)
Theorem builtin_Initialize_appends_each_time conn (n : nat) :
  (forall s,
     fst (fst (SimpleScenario.Initialize conn s)) = None /\
     snd (SimpleScenario.Initialize conn s)
       = [mkStmt "SELECT id::text FROM users LIMIT 10000" []] /\
     SimpleScenario.maxID (snd (fst (SimpleScenario.Initialize conn s)))
       = SimpleScenario.maxID s /\
     SimpleScenario.ids (Nat.iter n (fun s => snd (fst (SimpleScenario.Initialize conn s))) s)
       = (SimpleScenario.ids s ++ concat (replicate n (SimpleScenario.loaded conn)))%list) /\
  (forall s,
     fst (fst (FKScenario.Initialize conn s)) = None /\
     snd (FKScenario.Initialize conn s)
       = [mkStmt "SELECT id::text FROM items LIMIT 10000" []] /\
     FKScenario.maxCategoryID (snd (fst (FKScenario.Initialize conn s)))
       = FKScenario.maxCategoryID s /\
     FKScenario.ids (Nat.iter n (fun s => snd (fst (FKScenario.Initialize conn s))) s)
       = (FKScenario.ids s ++ concat (replicate n (FKScenario.loaded conn)))%list).
Proof.
  split; intros s.
  - assert (Hone : forall s0,
              SimpleScenario.ids (snd (fst (SimpleScenario.Initialize conn s0)))
              = (SimpleScenario.ids s0 ++ SimpleScenario.loaded conn)%list).
    { intros s0. unfold SimpleScenario.Initialize, SimpleScenario.loaded. cbn zeta.
      destruct (queryIDs conn _) as [e|rows]; cbn.
      - now rewrite app_nil_r.
      - apply scanIDs_scannedIDs. }
    do 3 (split; [unfold SimpleScenario.Initialize; cbn zeta;
                  destruct (queryIDs conn _); reflexivity|]).
    induction n as [|n IH].
    + cbn. now rewrite app_nil_r.
    + rewrite Nat.iter_succ, Hone, IH. cbn [replicate concat].
      rewrite <- app_assoc. f_equal.
      clear. induction n as [|n IH]; cbn [replicate concat].
      * now rewrite app_nil_r.
      * rewrite <- app_assoc, IH. reflexivity.
  - assert (Hone : forall s0,
              FKScenario.ids (snd (fst (FKScenario.Initialize conn s0)))
              = (FKScenario.ids s0 ++ FKScenario.loaded conn)%list).
    { intros s0. unfold FKScenario.Initialize, FKScenario.loaded. cbn zeta.
      destruct (queryIDs conn _) as [e|rows]; cbn.
      - now rewrite app_nil_r.
      - apply scanIDs_scannedIDs. }
    do 3 (split; [unfold FKScenario.Initialize; cbn zeta;
                  destruct (queryIDs conn _); reflexivity|]).
    induction n as [|n IH].
    + cbn. now rewrite app_nil_r.
    + rewrite Nat.iter_succ, Hone, IH. cbn [replicate concat].
      rewrite <- app_assoc. f_equal.
      clear. induction n as [|n IH]; cbn [replicate concat].
      * now rewrite app_nil_r.
      * rewrite <- app_assoc, IH. reflexivity.
Qed.

(** X19: the fk scenario reads only ids it has cached.  With an empty
    cache a read sends nothing and returns nil; otherwise it either sends
    nothing and returns nil (the id drawn is the empty string) or sends
    one SELECT for a non-empty cached id and returns what the row scan
    returns.  It never panics and never changes the scenario. *)
Theorem FKScenario_reads_only_cached_ids conn (rnd : Z) (s : FKScenario.t) :
  (FKScenario.ids s = [] -> FKScenario.ExecuteRead conn rnd s = (Returns None, [])) /\
  (FKScenario.ExecuteRead conn rnd s = (Returns None, []) \/
   exists q id,
     FKScenario.ExecuteRead conn rnd s = (Returns (scanRow conn q), [q]) /\
     args q = [VString id] /\ In id (FKScenario.ids s) /\ id <> EmptyString).
Proof.
  unfold FKScenario.ExecuteRead. cbn zeta.
  destruct (FKScenario.ids s) as [|i0 rest] eqn:Hids.
  - change (0 <? Z.of_nat (length (@nil string))) with false. cbn beta iota.
    split; [reflexivity | left; reflexivity].
  - split; [discriminate|].
    assert (Hpos : (0 <? Z.of_nat (length (i0 :: rest))) = true)
      by (apply Z.ltb_lt; cbn [length]; lia).
    rewrite Hpos.
    set (id := nth _ (i0 :: rest) EmptyString).
    assert (Hin : In id (i0 :: rest)) by (apply nth_In, Intn_index; discriminate).
    destruct (id =? EmptyString)%string eqn:Hid; [left; reflexivity|].
    right. eexists. exists id. split; [reflexivity|]. split; [reflexivity|].
    split; [exact Hin|]. now apply String.eqb_neq.
Qed.

Lemma FKScenario_maxCategoryID calls :
  forall s, FKScenario.maxCategoryID (fold_left FKScenario.step calls s)
            = FKScenario.maxCategoryID s.
Proof.
  induction calls as [|c calls IH]; intros s; [reflexivity|].
  cbn [fold_left]. rewrite IH. destruct c as [conn|conn rnd|conn rc randNum rnd]; cbn.
  - unfold FKScenario.Initialize. cbn zeta. destruct (queryIDs conn _); reflexivity.
  - reflexivity.
  - unfold FKScenario.ExecuteWrite. cbn zeta.
    destruct (Int63n rc _); [|reflexivity].
    destruct (scanID conn _) as [e|newID]; [reflexivity|].
    destruct (negb _); reflexivity.
Qed.

(** X20: after any calls on the fk scenario of the registry, a write does
    not panic and sends exactly one INSERT, for a category between 1 and
    100 and the name item_<n>.  A failed insert is returned and changes
    nothing; an insert that returns a non-empty id puts that id in the
    cache, which grows by at most one id and never past 10000 ids (a
    full cache has one id replaced); an empty id changes nothing. *)
Theorem FKScenario_write_caches_new_id calls conn (rndCategory randNum rnd : Z) :
  exists categoryID,
    1 <= categoryID <= 100 /\
    let s := FKScenario.run calls in
    let q := mkStmt "INSERT INTO items (category_id, name) VALUES ($1, $2) RETURNING id::text"
               [VInt64 categoryID; VString ("item_" ++ sprint_d randNum)] in
    let s' := snd (fst (FKScenario.ExecuteWrite conn rndCategory randNum rnd s)) in
    snd (FKScenario.ExecuteWrite conn rndCategory randNum rnd s) = [q] /\
    FKScenario.maxCategoryID s' = 100 /\
    Z.of_nat (length (FKScenario.ids s)) <= Z.of_nat (length (FKScenario.ids s'))
      <= Z.max (Z.of_nat (length (FKScenario.ids s))) 10000 /\
    Z.of_nat (length (FKScenario.ids s')) <= Z.of_nat (length (FKScenario.ids s)) + 1 /\
    match scanID conn q with
    | inl e =>
        fst (fst (FKScenario.ExecuteWrite conn rndCategory randNum rnd s)) = Returns (Some e) /\
        s' = s
    | inr newID =>
        fst (fst (FKScenario.ExecuteWrite conn rndCategory randNum rnd s)) = Returns None /\
        if (newID =? EmptyString)%string then s' = s else In newID (FKScenario.ids s')
    end.
Proof.
  pose proof (FKScenario_maxCategoryID calls FKScenario.New) as Hmax.
  fold (FKScenario.run calls) in Hmax. cbn in Hmax.
  pose proof (Intn_range rndCategory 100 ltac:(lia)) as Hr.
  exists (Intn rndCategory 100 + 1). split; [lia|]. cbn zeta.
  unfold FKScenario.ExecuteWrite. rewrite Hmax. unfold Int63n.
  change (100 <=? 0) with false. cbn beta iota zeta.
  destruct (scanID conn _) as [e|newID]; cbn [fst snd].
  - split; [reflexivity|]. split; [exact Hmax|]. split; [lia|]. split; [lia|].
    split; reflexivity.
  - split; [reflexivity|].
    destruct (newID =? EmptyString)%string; cbn [negb FKScenario.maxCategoryID FKScenario.ids].
    + split; [exact Hmax|]. split; [lia|]. split; [lia|]. split; reflexivity.
    + pose proof (keepID_bound rnd newID (FKScenario.ids (FKScenario.run calls))) as Hb.
      split; [reflexivity|]. split; [exact Hb|]. split.
      * unfold keepID. destruct (_ <? 10000).
        -- rewrite length_app. cbn [length]. lia.
        -- rewrite length_insert. lia.
      * split; [reflexivity | apply keepID_In].
Qed.

End builtin_scenarios.

Lemma FKScenario_reads_only_cached_ids_witness :
  schema.FKScenario.ExecuteRead Examples.items 3 schema.FKScenario.New
  = (schema.Returns None, []).
Proof.
  apply (proj1 (FKScenario_reads_only_cached_ids Examples.items 3 schema.FKScenario.New)).
  reflexivity.
Defined.

(** ** The history buffer of the charts *)

Section circular_buffer.
Import CircularBuffer.
Context {A : Type}.
Implicit Types (b : CircularBuffer.t A) (xs : list A).

Lemma nth_error_is_lookup {B : Type} (l : list B) : forall i, nth_error l i = l !! i.
Proof. induction l as [|x l IH]; intros [|i]; cbn; auto. Qed.

Lemma mod_apart (a c m : Z) : 0 < a - c < m -> a mod m <> c mod m.
Proof.
  intros Hac E.
  assert (Hz : (a - c) mod m = 0) by (rewrite Zminus_mod, E, Z.sub_diag; apply Z.mod_0_l; lia).
  rewrite Z.mod_small in Hz; lia.
Qed.

Lemma at_set_same (arr : Array A) i x :
  0 <= i < Z.of_nat (length arr) -> at_ (set arr i x) i = Some x.
Proof.
  intros Hi. unfold at_, set.
  destruct (i <? 0) eqn:E; [apply Z.ltb_lt in E; lia|].
  destruct (i <? Z.of_nat (length arr)) eqn:E'; [|apply Z.ltb_ge in E'; lia].
  unfold Array in *. rewrite list_lookup_insert_eq by lia. reflexivity.
Qed.

Lemma at_set_other (arr : Array A) i j x :
  0 <= i < Z.of_nat (length arr) -> 0 <= j -> i <> j ->
  at_ (set arr i x) j = at_ arr j.
Proof.
  intros Hi Hj Hne. unfold at_, set.
  destruct (j <? 0) eqn:E; [reflexivity|].
  destruct (i <? Z.of_nat (length arr)) eqn:E'; [|apply Z.ltb_ge in E'; lia].
  unfold Array in *. rewrite list_lookup_insert_ne by lia. reflexivity.
Qed.

Lemma length_set (arr : Array A) i x :
  0 <= i < Z.of_nat (length arr) -> length (set arr i x) = length arr.
Proof.
  intros Hi. unfold set.
  destruct (i <? Z.of_nat (length arr)) eqn:E'; [|apply Z.ltb_ge in E'; lia].
  apply length_insert.
Qed.

(** An empty ring holds nothing, whatever is left in its slots. *)
Lemma holds_empty m b :
  0 < m -> maxSize b = m -> Z.of_nat (length (buffer b)) = m -> head b = 0 -> size b = 0 ->
  holds m [] b.
Proof.
  intros Hm Hmax Hlen Hhead Hsize. unfold holds. cbn [length].
  change (Z.of_nat 0) with 0.
  rewrite Hsize, Hhead. split; [exact Hmax|]. split; [exact Hlen|].
  split; [now rewrite Z.mod_0_l by lia|]. split; [lia|].
  intros k Hk. lia.
Qed.

Lemma holds_push m xs b x :
  0 < m -> holds m xs b -> holds m (xs ++ [x]) (push b x).
Proof.
  intros Hm (Hmax & Hlen & Hhead & Hsize & Hat).
  pose proof (Z.mod_pos_bound (Z.of_nat (length xs)) m Hm) as Hbound.
  assert (Hin : 0 <= head b < Z.of_nat (length (buffer b))) by lia.
  unfold holds, push. cbn [maxSize buffer head size].
  rewrite length_app. cbn [length]. rewrite Nat2Z.inj_add. change (Z.of_nat 1) with 1.
  split; [exact Hmax|]. split; [now rewrite length_set|].
  split.
  { rewrite Hmax, Hhead, Z.rem_mod_nonneg by lia. apply Zplus_mod_idemp_l. }
  assert (Hsize' : (if size b <? maxSize b then size b + 1 else size b)
                   = Z.min (Z.of_nat (length xs) + 1) m).
  { rewrite Hmax, Hsize. destruct (_ <? m) eqn:E;
      [apply Z.ltb_lt in E | apply Z.ltb_ge in E]; lia. }
  split; [exact Hsize'|]. rewrite Hsize'.
  intros k Hk.
  destruct (Z.eq_dec k (Z.of_nat (length xs))) as [->|Hne].
  - rewrite <- Hhead, at_set_same by exact Hin.
    rewrite Nat2Z.id. symmetry. apply list_lookup_middle. reflexivity.
  - pose proof (Z.mod_pos_bound k m Hm) as Hkb.
    rewrite at_set_other; [|exact Hin|lia|].
    + rewrite Hat by lia. symmetry. apply lookup_app_l. lia.
    + rewrite Hhead. apply mod_apart. lia.
Qed.

Lemma holds_pushAll m ys : forall xs b,
  0 < m -> holds m xs b -> holds m (xs ++ ys) (pushAll ys b).
Proof.
  induction ys as [|y ys IH]; intros xs b Hm H.
  - now rewrite app_nil_r.
  - cbn [pushAll fold_left]. change (fold_left push ys (push b y)) with (pushAll ys (push b y)).
    replace (xs ++ y :: ys)%list with ((xs ++ [y]) ++ ys)%list by now rewrite <- app_assoc.
    apply IH; [exact Hm|]. now apply holds_push.
Qed.

Lemma holds_getLastN m xs b n :
  0 < m -> 0 <= n -> holds m xs b ->
  getLastN n b = Some (map Some (latest (Z.min n m) xs)).
Proof.
  intros Hm Hn (Hmax & Hlen & Hhead & Hsize & Hat).
  unfold getLastN. cbn zeta.
  set (count := Z.min n (size b)).
  assert (Hcount : 0 <= count <= size b) by (unfold count; lia).
  destruct (count <? 0) eqn:E; [apply Z.ltb_lt in E; lia|]. f_equal.
  assert (Hdrop : (length xs - Z.to_nat (Z.min n m))%nat
                  = Z.to_nat (Z.of_nat (length xs) - count)).
  { unfold count. rewrite Hsize. lia. }
  unfold latest. rewrite Hdrop.
  apply nth_error_ext. intros i.
  rewrite !nth_error_map.
  destruct (lt_dec i (Z.to_nat count)) as [Hi|Hi].
  - rewrite nth_error_seq. destruct (Nat.ltb_spec i (Z.to_nat count)) as [_|?]; [|lia].
    cbn [option_map Nat.add].
    rewrite nth_error_skipn.
    pose proof (Z.mod_pos_bound (Z.of_nat (length xs)) m Hm) as Hbound.
    rewrite Hmax, Hhead, Z.rem_mod_nonneg by lia.
    replace (Z.of_nat (length xs) mod m - count + Z.of_nat i + m)
      with (Z.of_nat (length xs) mod m + (Z.of_nat i + m - count)) by lia.
    rewrite Zplus_mod_idemp_l.
    replace (Z.of_nat (length xs) + (Z.of_nat i + m - count))
      with (Z.of_nat (length xs) - count + Z.of_nat i + 1 * m) by lia.
    rewrite Z_mod_plus_full.
    rewrite Hat by lia.
    replace (Z.to_nat (Z.of_nat (length xs) - count + Z.of_nat i))
      with (Z.to_nat (Z.of_nat (length xs) - count) + i)%nat by lia.
    rewrite nth_error_is_lookup.
    destruct (xs !! _) as [x|] eqn:Hx; [reflexivity|].
    apply lookup_ge_None in Hx. lia.
  - rewrite nth_error_seq. destruct (Nat.ltb_spec i (Z.to_nat count)) as [?|_]; [lia|].
    cbn [option_map]. symmetry.
    rewrite nth_error_skipn.
    assert (Hnone : nth_error xs (Z.to_nat (Z.of_nat (length xs) - count) + i) = None)
      by (apply nth_error_None; lia).
    now rewrite Hnone.
Qed.

(** X21: a ring made for [m] slots returns, after any pushes, the last
    [min n m] items pushed, oldest first and without a hole (all of them
    when fewer were pushed); its size is the number of items it holds. *)
Theorem getLastN_returns_latest (m : Z) xs (n : Z) :
  0 < m < 2 ^ 32 -> 0 <= n ->
  exists b0,
    constructor m = Some b0 /\
    getLastN n (pushAll xs b0) = Some (map Some (latest (Z.min n m) xs)) /\
    getSize (pushAll xs b0) = Z.min (Z.of_nat (length xs)) m.
Proof.
  intros Hm Hn. unfold constructor.
  assert (Hok : (0 <=? m) && (m <? 2 ^ 32) = true).
  { apply andb_true_iff. split; [apply Z.leb_le | apply Z.ltb_lt]; lia. }
  rewrite Hok. eexists. split; [reflexivity|].
  assert (H : holds m ([] ++ xs) (pushAll xs
                {| maxSize := m; buffer := replicate (Z.to_nat m) None; head := 0; size := 0 |})).
  { apply holds_pushAll; [lia|]. apply holds_empty; cbn; try lia.
    rewrite length_replicate. lia. }
  cbn [app] in H. split; [apply (holds_getLastN m); [lia | exact Hn | exact H]|].
  destruct H as (_ & _ & _ & Hsize & _). exact Hsize.
Qed.

(** X22: [clear] forgets the items pushed before it.  After any pushes, a
    clear and further pushes, the ring returns the last [min n m] of the
    items pushed since the clear, and none of the older ones that are
    still in its slots; right after a clear it returns the empty list. *)
Theorem clear_forgets_older_items (m : Z) xs ys (n : Z) :
  0 < m < 2 ^ 32 -> 0 <= n ->
  exists b0,
    constructor m = Some b0 /\
    getLastN n (pushAll ys (clear (pushAll xs b0)))
      = Some (map Some (latest (Z.min n m) ys)) /\
    getSize (pushAll ys (clear (pushAll xs b0))) = Z.min (Z.of_nat (length ys)) m /\
    getLastN n (clear (pushAll xs b0)) = Some [].
Proof.
  intros Hm Hn. unfold constructor.
  assert (Hok : (0 <=? m) && (m <? 2 ^ 32) = true).
  { apply andb_true_iff. split; [apply Z.leb_le | apply Z.ltb_lt]; lia. }
  rewrite Hok. eexists. split; [reflexivity|].
  set (b0 := {| maxSize := m; buffer := replicate (Z.to_nat m) None; head := 0; size := 0 |}).
  assert (H0 : holds m ([] ++ xs) (pushAll xs b0)).
  { apply holds_pushAll; [lia|]. apply holds_empty; cbn; try lia.
    rewrite length_replicate. lia. }
  destruct H0 as (Hmax & Hlen & _).
  assert (Hc : holds m [] (clear (pushAll xs b0))).
  { apply holds_empty; [lia | exact Hmax | exact Hlen | reflexivity | reflexivity]. }
  assert (H : holds m ([] ++ ys) (pushAll ys (clear (pushAll xs b0)))).
  { apply holds_pushAll; [lia | exact Hc]. }
  cbn [app] in H.
  split; [apply (holds_getLastN m); [lia | exact Hn | exact H]|].
  split; [destruct H as (_ & _ & _ & Hsize & _); exact Hsize|].
  rewrite (holds_getLastN m [] _ n ltac:(lia) Hn Hc). unfold latest.
  now rewrite drop_nil.
Qed.

End circular_buffer.

Lemma getLastN_returns_latest_witness :
  exists b0,
    CircularBuffer.constructor 3 = Some b0 /\
    CircularBuffer.getLastN 2 (CircularBuffer.pushAll [10; 20; 30; 40; 50] b0)
      = Some (map Some (CircularBuffer.latest (Z.min 2 3) [10; 20; 30; 40; 50])) /\
    CircularBuffer.getSize (CircularBuffer.pushAll [10; 20; 30; 40; 50] b0)
      = Z.min (Z.of_nat (length [10; 20; 30; 40; 50])) 3.
Proof.
  apply (getLastN_returns_latest 3 [10; 20; 30; 40; 50] 2); lia.
Defined.

Lemma clear_forgets_older_items_witness :
  exists b0,
    CircularBuffer.constructor 3 = Some b0 /\
    CircularBuffer.getLastN 2 (CircularBuffer.pushAll [60]
                                 (CircularBuffer.clear
                                    (CircularBuffer.pushAll [10; 20; 30; 40; 50] b0)))
      = Some (map Some (CircularBuffer.latest (Z.min 2 3) [60])) /\
    CircularBuffer.getSize (CircularBuffer.pushAll [60]
                              (CircularBuffer.clear
                                 (CircularBuffer.pushAll [10; 20; 30; 40; 50] b0)))
      = Z.min (Z.of_nat (length [60])) 3 /\
    CircularBuffer.getLastN 2 (CircularBuffer.clear
                                 (CircularBuffer.pushAll [10; 20; 30; 40; 50] b0))
      = Some [].
Proof.
  apply (clear_forgets_older_items 3 [10; 20; 30; 40; 50] [60] 2); lia.
Defined.

(** ** The scenarios endpoint *)

Section scenarios_endpoint.
Import load.

Lemma applyAll_wellFormed (ops : list Op) :
  forall c, wellFormed c -> wellFormed (applyAll ops c).
Proof.
  induction ops as [|op ops IH]; intros c Hc; [exact Hc|].
  cbn [applyAll]. apply IH. now apply apply_wellFormed.
Qed.

Lemma NewRegistry_others :
  List.filter (fun entry : string * schema.Scenario =>
                 negb (existsb (fun o => (o =? fst entry)%string) schema.order))
              (map_to_list schema.NewRegistry) = [].
Proof.
  rewrite (filter_ext_in _ (fun _ => false)); [apply filter_false|].
  intros [name sc] Hin. apply list_elem_of_In, elem_of_map_to_list in Hin.
  pose proof (NewRegistry_lookup name) as E. unfold schema.Registry in E.
  rewrite E in Hin. cbn [fst].
  repeat case_decide; try discriminate; subst name; reflexivity.
Qed.

Lemma List_NewRegistry (store : schema.Store) :
  schema.List store schema.NewRegistry
  = [schema.ScenarioInfo.mk "simple" "Simple users table (username, email)" "users";
     schema.ScenarioInfo.mk "jsonb" "Table with JSONB payload column" "jsonb_data";
     schema.ScenarioInfo.mk "wide" "Wide table with 20+ columns" "wide_data";
     schema.ScenarioInfo.mk "fk" "Tables with foreign key lookup" "items"].
Proof.
  unfold schema.List. rewrite NewRegistry_others. cbn [map]. rewrite app_nil_r.
  cbv [omap list_omap schema.order schema.Get].
  rewrite !NewRegistry_lookup. reflexivity.
Qed.

(** X23: however a new controller has been driven, the scenarios endpoint
    lists the same five entries in the same order: simple, jsonb, wide
    and fk with their descriptions and tables, then the custom option.
    The dynamic scenarios the controller created are not among them, and
    every listed name but custom is one the registry resolves to the
    scenario of that name. *)
Theorem HandleScenarios_lists_five (ops : list Op) :
  api.HandleScenarios (applyAll ops NewController)
  = [schema.ScenarioInfo.mk "simple" "Simple users table (username, email)" "users";
     schema.ScenarioInfo.mk "jsonb" "Table with JSONB payload column" "jsonb_data";
     schema.ScenarioInfo.mk "wide" "Wide table with 20+ columns" "wide_data";
     schema.ScenarioInfo.mk "fk" "Tables with foreign key lookup" "items";
     schema.ScenarioInfo.mk "custom" "Custom table (optionally specify table name)"
                            EmptyString] /\
  forall info,
    In info (schema.List (store (applyAll ops NewController))
                         (registry (applyAll ops NewController))) ->
    exists s,
      schema.Get (schema.ScenarioInfo.Name info) (registry (applyAll ops NewController))
        = Some s /\
      schema.infoOf (store (applyAll ops NewController)) s = info.
Proof.
  destruct (applyAll_wellFormed ops NewController NewController_wellFormed) as (Hreg & _).
  unfold api.HandleScenarios. rewrite Hreg, List_NewRegistry.
  split; [reflexivity|].
  intros info Hin. unfold schema.Get. cbn [In] in Hin.
  destruct Hin as [<-|[<-|[<-|[<-|[]]]]]; cbn [schema.ScenarioInfo.Name];
    rewrite NewRegistry_lookup; eexists; (split; [reflexivity|]); reflexivity.
Qed.

End scenarios_endpoint.

Lemma HandleScenarios_lists_five_witness :
  exists s,
    schema.Get "wide" (load.registry (load.applyAll [load.OpStart] load.NewController))
      = Some s /\
    schema.infoOf (load.store (load.applyAll [load.OpStart] load.NewController)) s
      = schema.ScenarioInfo.mk "wide" "Wide table with 20+ columns" "wide_data".
Proof.
  apply (proj2 (HandleScenarios_lists_five [load.OpStart])
           (schema.ScenarioInfo.mk "wide" "Wide table with 20+ columns" "wide_data")).
  vm_compute. right. right. left. reflexivity.
Defined.

(** ** The connection manager *)

Section connection_manager.
Import db.

Lemma wrap32_small (z : Z) : - 2 ^ 31 <= z < 2 ^ 31 -> wrap32 z = z.
Proof. intros Hz. unfold wrap32. rewrite Z.mod_small; lia. Qed.

Lemma run_snoc calls c cm : run (calls ++ [c]) cm = step (run calls cm) c.
Proof. unfold run. now rewrite fold_left_app. Qed.

Lemma counts_snoc calls c :
  connected (calls ++ [c])
  = connected calls + (match c with CallConnect None => 1 | _ => 0 end) /\
  failed (calls ++ [c])
  = failed calls + (match c with CallConnect (Some _) => 1 | _ => 0 end) /\
  released (calls ++ [c])
  = released calls + (match c with CallRelease => 1 | _ => 0 end).
Proof.
  unfold connected, failed, released. rewrite !List.filter_app, !length_app.
  destruct c as [[e|]|]; cbn [List.filter length]; lia.
Qed.

Lemma counts_bounds calls :
  0 <= connected calls /\ 0 <= failed calls /\ 0 <= released calls /\
  connected calls + failed calls + released calls = Z.of_nat (length calls).
Proof.
  unfold connected, failed, released.
  induction calls as [|[[e|]|] calls IH]; cbn [List.filter length]; lia.
Qed.

Lemma failure_line (rest : string) :
  isFailureLine ("Connection failed (total failures: " ++ rest) = true.
Proof. reflexivity. Qed.

Lemma summary_line (rest : string) :
  isFailureLine ("Connections: active=" ++ rest) = false.
Proof. reflexivity. Qed.

(** X24: the connection manager counts what happened.  After fewer than
    2^31 connects and releases on a new manager, total_created and
    total_failed are the numbers of connects that succeeded and failed,
    and the active connections are the successful connects less the
    releases.  A failure is logged on the 1st, 101st, 201st, ... failed
    connect only, and the summary line on every 1000th connection. *)
Theorem ConnectionManager_counts (calls : list Call) (connString : string) :
  Z.of_nat (length calls) < 2 ^ 31 ->
  totalCreated (fst (run calls (NewConnectionManager connString))) = connected calls /\
  totalFailed (fst (run calls (NewConnectionManager connString))) = failed calls /\
  ActiveConnections (fst (run calls (NewConnectionManager connString)))
    = connected calls - released calls /\
  Z.of_nat (length (List.filter isFailureLine
                      (snd (run calls (NewConnectionManager connString)))))
    = (failed calls + 99) / 100 /\
  Z.of_nat (length (List.filter (fun line => negb (isFailureLine line))
                      (snd (run calls (NewConnectionManager connString)))))
    = connected calls / 1000.
Proof.
  unfold ActiveConnections.
  induction calls as [|c calls IH] using rev_ind; intros Hlen.
  - cbn. repeat split; reflexivity.
  - rewrite length_app in Hlen. cbn [length] in Hlen.
    destruct IH as (Hc & Hf & Ha & Hfl & Hcl); [lia|].
    destruct (counts_snoc calls c) as (Ec & Ef & Er).
    destruct (counts_bounds calls) as (Bc & Bf & Br & Bsum).
    rewrite run_snoc, Ec, Ef, Er.
    destruct (run calls (NewConnectionManager connString)) as [cm lines].
    cbn [fst snd] in *.
    destruct c as [[e|]|]; cbn [step fst snd Connect Release totalCreated totalFailed
                                  activeConnections].
    + rewrite Hf, wrap64_small by lia.
      split; [lia|]. split; [lia|]. split; [lia|].
      rewrite !List.filter_app, !length_app, !Nat2Z.inj_add, Hfl, Hcl.
      rewrite Z.rem_mod_nonneg by lia.
      destruct (Z.eqb_spec ((failed calls + 1) mod 100) 1) as [E|E];
        cbn [List.filter]; rewrite ?failure_line; cbn [negb length];
        (split; Z.to_euclidean_division_equations; lia).
    + rewrite Hc, Ha, wrap64_small, wrap32_small by lia.
      split; [lia|]. split; [lia|]. split; [lia|].
      rewrite !List.filter_app, !length_app, !Nat2Z.inj_add, Hfl, Hcl.
      rewrite Z.rem_mod_nonneg by lia.
      destruct (Z.eqb_spec ((connected calls + 1) mod 1000) 0) as [E|E];
        cbn [List.filter]; rewrite ?summary_line; cbn [negb length];
        (split; Z.to_euclidean_division_equations; lia).
    + rewrite Ha, wrap32_small by lia.
      split; [lia|]. split; [lia|]. split; [lia|].
      split; [rewrite Hfl | rewrite Hcl]; f_equal; lia.
Qed.

End connection_manager.

Lemma ConnectionManager_counts_witness :
  db.ActiveConnections
    (fst (db.run [db.CallConnect None; db.CallConnect (Some "connection refused");
                  db.CallConnect None; db.CallRelease]
                 (db.NewConnectionManager "postgres://localhost:5432/pooler_demo")))
  = db.connected [db.CallConnect None; db.CallConnect (Some "connection refused");
                  db.CallConnect None; db.CallRelease]
    - db.released [db.CallConnect None; db.CallConnect (Some "connection refused");
                   db.CallConnect None; db.CallRelease].
Proof.
  apply (proj1 (proj2 (proj2
    (ConnectionManager_counts
       [db.CallConnect None; db.CallConnect (Some "connection refused");
        db.CallConnect None; db.CallRelease]
       "postgres://localhost:5432/pooler_demo" ltac:(vm_compute; reflexivity))))).
Defined.

(** ** The workers *)

Section workers.
Import worker.

Lemma held_nil : held [] = 0.
Proof. reflexivity. Qed.

Lemma held_cons a l : held (a :: l) = delta a + held l.
Proof.
  unfold held, db.connected, db.released, managerCalls.
  destruct a as [[e|]| | | | | |]; cbn [omap list_omap List.filter length delta]; lia.
Qed.

Lemma held_app l1 l2 : held (l1 ++ l2) = held l1 + held l2.
Proof.
  induction l1 as [|a l1 IH]; [rewrite held_nil; cbn [app]; lia|].
  cbn [app]. rewrite !held_cons, IH. lia.
Qed.

(** The queries of a connection touch neither the manager nor the
    scenario's initialization. *)
Lemma runWithConnection_neutral kind queries :
  Forall (fun a => delta a = 0 /\ isInitialize a = false) (runWithConnection kind queries).
Proof.
  unfold runWithConnection. induction queries as [|q queries IH]; [constructor|].
  cbn [map concat]. apply Forall_app. split; [|exact IH].
  unfold execute. destruct (err q); [destruct (cancelled q)|]; repeat constructor.
Qed.

Lemma within_nil h : 0 <= h <= 1 -> within h [].
Proof.
  intros Hh done rest E. symmetry in E. apply app_eq_nil in E as [-> _].
  rewrite held_nil. lia.
Qed.

Lemma within_cons h a l : 0 <= h <= 1 -> within (h + delta a) l -> within h (a :: l).
Proof.
  intros Hh Hl done rest E. destruct done as [|a' done].
  - rewrite held_nil. lia.
  - cbn [app] in E. injection E as <- E. rewrite held_cons.
    specialize (Hl done rest E). lia.
Qed.

Lemma within_neutral h m l :
  0 <= h <= 1 ->
  Forall (fun a => delta a = 0 /\ isInitialize a = false) m ->
  within h l -> within h (m ++ l).
Proof.
  intros Hh Hm Hl. induction Hm as [|a m [Ha _] _ IH]; [exact Hl|].
  cbn [app]. apply within_cons; [exact Hh|]. now rewrite Ha, Z.add_0_r.
Qed.

Lemma held_neutral m :
  Forall (fun a => delta a = 0 /\ isInitialize a = false) m -> held m = 0.
Proof.
  induction 1 as [|a m [Ha _] _ IH]; [reflexivity|]. rewrite held_cons. lia.
Qed.

Lemma Run_within kind rounds : forall scenarioInitialized,
  within 0 (Run kind scenarioInitialized rounds) /\
  held (Run kind scenarioInitialized rounds) = 0.
Proof.
  induction rounds as [|round rounds IH]; intros scenarioInitialized.
  - split; [apply within_nil; lia | reflexivity].
  - destruct round as [|now e cancelled|now init queries]; cbn [Run].
    + split; [apply within_nil; lia | reflexivity].
    + destruct cancelled.
      * split; [|reflexivity].
        apply within_cons; [lia|]. apply within_nil. cbn. lia.
      * destruct (IH scenarioInitialized) as [Hw Hh].
        split; [|rewrite !held_cons, Hh; reflexivity].
        do 3 (apply within_cons; [cbn; lia|]). exact Hw.
    + pose proof (runWithConnection_neutral kind queries) as Hq.
      assert (Hrun : forall rest,
                within 0 rest -> held rest = 0 ->
                within 1 (runWithConnection kind queries ++ Close :: Release :: rest) /\
                held (runWithConnection kind queries ++ Close :: Release :: rest) = -1).
      { intros rest Hw Hh. split.
        - apply within_neutral; [lia | exact Hq|].
          do 2 (apply within_cons; [cbn; lia|]). exact Hw.
        - rewrite held_app, !held_cons, Hh, (held_neutral _ Hq). reflexivity. }
      destruct (negb scenarioInitialized); [destruct init as [e|]|].
      * destruct (IH false) as [Hw Hh].
        split; [|rewrite !held_cons, Hh; reflexivity].
        do 6 (apply within_cons; [cbn; lia|]). exact Hw.
      * destruct (IH true) as [Hw Hh]. destruct (Hrun _ Hw Hh) as [Hw' Hh'].
        split; [|rewrite !held_cons, Hh'; reflexivity].
        do 2 (apply within_cons; [cbn; lia|]). exact Hw'.
      * destruct (IH true) as [Hw Hh]. destruct (Hrun _ Hw Hh) as [Hw' Hh'].
        split; [|rewrite !held_cons, Hh'; reflexivity].
        apply within_cons; [cbn; lia|]. exact Hw'.
Qed.

(** X25: a worker holds at most one connection and leaks none.  At every
    point of its run it holds one connection or none, whatever the
    rounds bring (failed connects, failed initializations, churn,
    cancellation); after the rounds it holds none, so the manager's
    count of active connections is back where it was before the worker
    ran. *)
Theorem worker_holds_at_most_one_connection kind (rounds : list Round) (cm : db.ConnectionManager) :
  - 2 ^ 31 <= db.activeConnections cm < 2 ^ 31 - 1 ->
  (forall done rest,
     Run kind false rounds = (done ++ rest)%list -> 0 <= held done <= 1) /\
  held (Run kind false rounds) = 0 /\
  db.ActiveConnections
    (fold_left (fun cm call => fst (db.step (cm, []) call))
               (managerCalls (Run kind false rounds)) cm)
  = db.ActiveConnections cm.
Proof.
  intros Hcm. destruct (Run_within kind rounds false) as [Hw Hh].
  split; [exact Hw|]. split; [exact Hh|].
  assert (Hgen : forall actions h,
            within h actions -> 0 <= h <= 1 ->
            forall cm0, - 2 ^ 31 <= db.activeConnections cm0 - h /\
                        db.activeConnections cm0 - h < 2 ^ 31 - 1 ->
            db.ActiveConnections
              (fold_left (fun cm call => fst (db.step (cm, []) call)) (managerCalls actions) cm0)
            = db.activeConnections cm0 + held actions).
  { induction actions as [|a actions IH]; intros h Hwi Hh01 cm0 Hcm0.
    - rewrite held_nil. cbn. unfold db.ActiveConnections. lia.
    - assert (Hone : 0 <= h + delta a <= 1).
      { specialize (Hwi [a] actions eq_refl). rewrite held_cons, held_nil in Hwi. lia. }
      assert (Hrest : within (h + delta a) actions).
      { intros done rest E. specialize (Hwi (a :: done) rest).
        rewrite held_cons in Hwi. cbn [app] in Hwi. rewrite E in Hwi.
        specialize (Hwi eq_refl). lia. }
      rewrite held_cons.
      destruct a as [[e|]| | | | | |]; cbn [managerCalls omap list_omap fold_left delta] in *;
        try (rewrite (IH h) by (try assumption; rewrite ?Z.add_0_r in Hrest; assumption); lia).
      + rewrite (IH h); [|now rewrite Z.add_0_r in Hrest|exact Hh01|].
        * cbn. lia.
        * cbn. lia.
      + rewrite (IH (h + 1)); [|exact Hrest|lia|].
        * cbn. rewrite wrap32_small by lia. lia.
        * cbn. rewrite wrap32_small by lia. lia.
      + rewrite (IH (h + -1)); [|exact Hrest|lia|].
        * cbn. rewrite wrap32_small by lia. lia.
        * cbn. rewrite wrap32_small by lia. lia. }
  rewrite (Hgen _ 0 Hw ltac:(lia) cm ltac:(lia)), Hh. unfold db.ActiveConnections. lia.
Qed.

Lemma cons_split {B : Type} (a x : B) (l pre post : list B) :
  a :: l = (pre ++ x :: post)%list ->
  (pre = [] /\ a = x /\ l = post) \/
  (exists pre', pre = a :: pre' /\ l = (pre' ++ x :: post)%list).
Proof.
  destruct pre as [|b pre]; cbn [app]; intros E; injection E as -> ->; eauto.
Qed.

Lemma skip_split {B : Type} (f : B -> bool) (m l pre post : list B) (x : B) :
  Forall (fun a => f a = false) m -> f x = true ->
  (m ++ l = pre ++ x :: post)%list ->
  exists pre', pre = (m ++ pre')%list /\ l = (pre' ++ x :: post)%list.
Proof.
  intros Hm Hx. revert pre. induction Hm as [|a m Ha _ IH]; intros pre E.
  - exists pre. auto.
  - cbn [app] in E. apply cons_split in E as [(_ & -> & _) | (pre' & -> & E)]; [congruence|].
    destruct (IH pre' E) as (pre'' & -> & ->). exists pre''. auto.
Qed.

Lemma runWithConnection_no_Initialize kind queries :
  Forall (fun a => isInitialize a = false) (runWithConnection kind queries).
Proof.
  eapply Forall_impl; [apply runWithConnection_neutral|]. now intros a [_ Ha].
Qed.

(** Once the scenario is initialized the worker does not initialize it
    again. *)
Lemma Run_initialized_no_Initialize kind rounds :
  Forall (fun a => isInitialize a = false) (Run kind true rounds).
Proof.
  induction rounds as [|round rounds IH]; [constructor|].
  destruct round as [|now e cancelled|now init queries]; cbn [Run negb].
  - constructor.
  - destruct cancelled; repeat constructor. exact IH.
  - constructor; [reflexivity|]. apply Forall_app. split.
    + apply runWithConnection_no_Initialize.
    + repeat constructor. exact IH.
Qed.

Lemma Run_Execute_after_Initialize kind rounds : forall scenarioInitialized pre post,
  Run kind scenarioInitialized rounds = (pre ++ Execute :: post)%list ->
  scenarioInitialized = true \/ In (Initialize None) pre.
Proof.
  induction rounds as [|round rounds IH]; intros scenarioInitialized pre post E.
  - destruct pre; discriminate.
  - destruct round as [|now e cancelled|now init queries]; cbn [Run] in E.
    + destruct pre; discriminate.
    + destruct cancelled.
      * apply (skip_split isExecute [_] []) in E as (pre' & _ & E);
          [destruct pre'; discriminate | repeat constructor | reflexivity].
      * apply (skip_split isExecute [_; _; _]) in E as (pre' & -> & E);
          [|repeat constructor | reflexivity].
        destruct (IH _ _ _ E) as [H|H]; [now left | right].
        apply in_or_app. now right.
    + destruct scenarioInitialized; [now left | right]. cbn [negb] in E.
      destruct init as [e|].
      * apply (skip_split isExecute [_; _; _; _; _; _]) in E as (pre' & -> & E);
          [|repeat constructor | reflexivity].
        destruct (IH _ _ _ E) as [H|H]; [discriminate|].
        apply in_or_app. now right.
      * apply (skip_split isExecute [_; _]) in E as (pre' & -> & E);
          [|repeat constructor | reflexivity].
        apply in_or_app. left. right. now left.
Qed.

(** X26: a worker runs queries only after it has initialized the
    scenario, and initializes it once.  In every run that starts
    uninitialized, each query comes after an [Initialize] that returned
    nil; no [Initialize] comes after that one; and an [Initialize] that
    returned an error is followed by the recording of that error with
    latency 0, the close and the release of the connection and a sleep of
    100 ms, with no query on that connection. *)
Theorem worker_initializes_before_queries kind (rounds : list Round) :
  (forall pre post,
     Run kind false rounds = (pre ++ Execute :: post)%list -> In (Initialize None) pre) /\
  (forall pre post,
     Run kind false rounds = (pre ++ Initialize None :: post)%list ->
     Forall (fun a => isInitialize a = false) post) /\
  (forall pre e post,
     Run kind false rounds = (pre ++ Initialize (Some e) :: post)%list ->
     exists now rest,
       post = Record_ (record kind now 0 (Some e)) :: Close :: Release ::
              Sleep (100 * time.Millisecond) :: rest).
Proof.
  split; [|split].
  - intros pre post E.
    destruct (Run_Execute_after_Initialize kind rounds false pre post E); [discriminate | assumption].
  - induction rounds as [|round rounds IH]; intros pre post E.
    + destruct pre; discriminate.
    + destruct round as [|now e cancelled|now init queries]; cbn [Run negb] in E.
      * destruct pre; discriminate.
      * destruct cancelled.
        -- apply (skip_split isInitialize [_] []) in E as (pre' & _ & E);
             [destruct pre'; discriminate | repeat constructor | reflexivity].
        -- apply (skip_split isInitialize [_; _; _]) in E as (pre' & -> & E);
             [|repeat constructor | reflexivity].
           exact (IH _ _ E).
      * destruct init as [e|].
        -- apply cons_split in E as [(_ & E & _) | (pre1 & -> & E)]; [discriminate|].
           apply cons_split in E as [(_ & E & _) | (pre2 & -> & E)]; [discriminate|].
           apply (skip_split isInitialize [_; _; _; _]) in E as (pre' & -> & E);
             [|repeat constructor | reflexivity].
           exact (IH _ _ E).
        -- apply cons_split in E as [(_ & E & _) | (pre1 & -> & E)]; [discriminate|].
           assert (Hrest : Forall (fun a => isInitialize a = false)
                             (runWithConnection kind queries ++
                              Close :: Release :: Run kind true rounds)).
           { apply Forall_app. split; [apply runWithConnection_no_Initialize|].
             repeat constructor. apply Run_initialized_no_Initialize. }
           apply cons_split in E as [(_ & _ & <-) | (pre2 & -> & E)]; [exact Hrest|].
           rewrite E in Hrest. apply Forall_app in Hrest as [_ Hrest].
           inversion Hrest as [|? ? Hbad _]. discriminate Hbad.
  - assert (Hgen : forall scenarioInitialized pre e post,
              Run kind scenarioInitialized rounds = (pre ++ Initialize (Some e) :: post)%list ->
              exists now rest,
                post = Record_ (record kind now 0 (Some e)) :: Close :: Release ::
                       Sleep (100 * time.Millisecond) :: rest).
    { induction rounds as [|round rounds IH]; intros scenarioInitialized pre e post E.
      - destruct pre; discriminate.
      - destruct round as [|now e0 cancelled|now init queries]; cbn [Run] in E.
        + destruct pre; discriminate.
        + destruct cancelled.
          * apply (skip_split isInitialize [_] []) in E as (pre' & _ & E);
              [destruct pre'; discriminate | repeat constructor | reflexivity].
          * apply (skip_split isInitialize [_; _; _]) in E as (pre' & -> & E);
              [|repeat constructor | reflexivity].
            exact (IH _ _ _ _ E).
        + assert (Hrun : forall pre0,
                    (runWithConnection kind queries ++ Close :: Release :: Run kind true rounds
                     = pre0 ++ Initialize (Some e) :: post)%list ->
                    exists now rest,
                      post = Record_ (record kind now 0 (Some e)) :: Close :: Release ::
                             Sleep (100 * time.Millisecond) :: rest).
          { intros pre0 E0.
            apply (skip_split isInitialize) in E0 as (pre' & -> & E0);
              [|apply runWithConnection_no_Initialize | reflexivity].
            apply (skip_split isInitialize [_; _]) in E0 as (pre'' & -> & E0);
              [|repeat constructor | reflexivity].
            exact (IH _ _ _ _ E0). }
          destruct (negb scenarioInitialized); [destruct init as [e1|]|].
          * apply cons_split in E as [(_ & E & _) | (pre1 & -> & E)]; [discriminate|].
            apply cons_split in E as [(_ & E & <-) | (pre2 & -> & E)].
            -- injection E as <-. eauto.
            -- apply (skip_split isInitialize [_; _; _; _]) in E as (pre' & -> & E);
                 [|repeat constructor | reflexivity].
               exact (IH _ _ _ _ E).
          * apply cons_split in E as [(_ & E & _) | (pre1 & -> & E)]; [discriminate|].
            apply cons_split in E as [(_ & E & _) | (pre2 & -> & E)]; [discriminate|].
            exact (Hrun _ E).
          * apply cons_split in E as [(_ & E & _) | (pre1 & -> & E)]; [discriminate|].
            exact (Hrun _ E). }
    intros pre e post E. exact (Hgen false pre e post E).
Qed.

(** X27: the reader and the writer cap the lifetime of a connection in
    the same way, although one is written with two [if]s and the other
    with [max] and [min]: whatever the random lifetime, the connection
    lives between 100 ms and 60 s. *)
Theorem worker_lifetime_is_capped (raw : time.Duration) :
  lifetime load.ReadWorker raw = lifetime load.WriteWorker raw /\
  100 * time.Millisecond <= lifetime load.ReadWorker raw <= 60 * time.Second /\
  (100 * time.Millisecond <= raw <= 60 * time.Second -> lifetime load.ReadWorker raw = raw).
Proof.
  unfold lifetime, time.Millisecond, time.Second. cbn zeta.
  destruct (raw <? 100 * 1000000) eqn:E1;
    [apply Z.ltb_lt in E1 | apply Z.ltb_ge in E1].
  - change (60 * 1000000000 <? 100 * 1000000) with false. cbn beta iota. lia.
  - destruct (60 * 1000000000 <? raw) eqn:E2;
      [apply Z.ltb_lt in E2 | apply Z.ltb_ge in E2]; lia.
Qed.

End workers.

Lemma worker_holds_at_most_one_connection_witness :
  worker.held (worker.Run load.ReadWorker false Examples.rounds) = 0 /\
  db.ActiveConnections
    (fold_left (fun cm call => fst (db.step (cm, []) call))
               (worker.managerCalls (worker.Run load.ReadWorker false Examples.rounds))
               (db.NewConnectionManager "postgres://localhost:5432/pooler_demo"))
  = db.ActiveConnections (db.NewConnectionManager "postgres://localhost:5432/pooler_demo").
Proof.
  apply (proj2 (worker_holds_at_most_one_connection load.ReadWorker Examples.rounds
                  (db.NewConnectionManager "postgres://localhost:5432/pooler_demo")
                  ltac:(cbn; lia))).
Defined.

Lemma worker_initializes_before_queries_witness :
  exists now rest,
    [worker.Record_ (metrics.CallRecordRead (Examples.t0 + 1 * time.Second) 0
                       (Some "table public.missing not found or has no columns"));
     worker.Close; worker.Release; worker.Sleep (100 * time.Millisecond);
     worker.Connect None; worker.Initialize None;
     worker.Execute;
     worker.Record_ (metrics.CallRecordRead (Examples.t0 + 3 * time.Second) 250000 None);
     worker.Execute;
     worker.Record_ (metrics.CallRecordRead (Examples.t0 + 4 * time.Second) 900000
                       (Some "deadlock detected"));
     worker.Close; worker.Release]
    = worker.Record_ (worker.record load.ReadWorker now 0
                        (Some "table public.missing not found or has no columns")) ::
      worker.Close :: worker.Release :: worker.Sleep (100 * time.Millisecond) :: rest.
Proof.
  apply (proj2 (proj2 (worker_initializes_before_queries load.ReadWorker Examples.rounds))
           [worker.Connect (Some "connection refused");
            worker.Record_ (metrics.CallRecordRead Examples.t0 0
                              (Some "failed to connect: connection refused"));
            worker.Sleep (100 * time.Millisecond);
            worker.Connect None]
           "table public.missing not found or has no columns").
  vm_compute. reflexivity.
Defined.

Lemma worker_lifetime_is_capped_witness :
  worker.lifetime load.ReadWorker (5 * time.Second) = 5 * time.Second.
Proof.
  apply (proj2 (proj2 (worker_lifetime_is_capped (5 * time.Second)))).
  vm_compute. split; discriminate.
Defined.

(** ** Setting the scenario by name *)

Section set_scenario.
Import load.

(** X28: [SetScenario] always declares the name and the table asked for,
    and never restarts: the running flag, the workers and the fleet
    transitions are as before, so a running fleet keeps the scenario it
    was started with.  The scenario it sets is a new dynamic one for
    custom, the registry's one for simple, jsonb, wide and fk, and the
    simple one for every other name, also for the empty one. *)
Theorem SetScenario_falls_back_to_simple (ops : list Op) (name customTable : string) :
  let c := applyAll ops NewController in
  let c' := SetScenario name customTable c in
  Scenario (config c') = name /\
  CustomTable (config c') = customTable /\
  running c' = running c /\
  workers c' = workers c /\
  events c' = events c /\
  schema.Scenario_Name (store c') (scenario c')
  = if (name =? "custom")%string
    then schema.CustomScenario_Name (schema.NewCustomScenario customTable)
    else if existsb (String.eqb name) schema.order then name else "simple".
Proof.
  cbn zeta.
  destruct (applyAll_wellFormed ops NewController NewController_wellFormed) as (Hreg & _).
  set (c := applyAll ops NewController) in *.
  unfold SetScenario. destruct (name =? "custom")%string eqn:Hcustom.
  - cbn. do 5 (split; [reflexivity|]).
    unfold schema.Store in *.
    now rewrite (list_lookup_middle (store c) [] _ (length (store c)) eq_refl).
  - rewrite Hreg. unfold schema.Get. rewrite NewRegistry_lookup, getOrNil_simple.
    unfold schema.order. cbn [existsb].
    repeat case_decide; subst; cbn; do 5 (split; [reflexivity|]);
      repeat match goal with
             | H : ?a <> ?b |- context [(?b =? ?a)%string] =>
                 rewrite (proj2 (String.eqb_neq b a)) by congruence
             end; reflexivity.
Qed.

End set_scenario.

(** ** The dynamic scenario: the key range of an integer-keyed table *)

Section seeded_range.
Import schema.



End seeded_range.


Section cached_keys.
Import schema.


End cached_keys.

